(* ===== verification/_CoqProject ===== *)
-Q . S2P
Prelude.v
VarLen.v
SMFBuffer.v
VarLenMachine.v
SMFEvent.v
SMFTrack.v
SMFDecode.v
ADSR.v
Drumkit.v
DrumkitHeap.v
Preferences.v
Session.v
