(* ===== verification/Prelude.v ===== *)
(** * A verification development of Hydrogen's Standard MIDI File encoder

    Hydrogen is a drum machine and sequencer.  The sources in this
    repository are four files:
    - [src/src/lib/smf/SMFEvent.cpp]: the byte buffer [SMFBuffer] with
      its primitives [writeByte], [writeWord], [writeDWord], [writeString]
      and the MIDI variable-length writer [writeVarLen], and the events
      [SMFTrackNameMetaEvent], [SMFNoteOnEvent], [SMFNoteOffEvent] with
      their constructors and [getBuffer] serializers;
    - [src/libs/hydrogen/src/sound_library.cpp]: drumkit load, install
      (gunzip then untar), save (deep copy of the song's instruments)
      and remove (a shell [rm -rf]);
    - [src/libs/hydrogen/include/hydrogen/Preferences.h]: the preferences
      singleton, its window properties, colours and setters;
    - [src/src/lib/ADSR.h]: the ADSR envelope data.

    The components interact as follows: an event's [getBuffer] creates a
    fresh [SMFBuffer], writes its delta time with [writeVarLen], then its
    status and payload bytes, and returns the bytes.  The track writer
    (SMF.cpp, not part of the sources; modelled from the spec) computes the
    delta times, concatenates the events' bytes and frames them in [MTrk]
    and [MThd] chunks.  On the drumkit side, [Drumkit::install] and
    [Drumkit::removeDrumkit] read the data directory from the
    [Preferences] singleton, while the GUI calls the singleton's setters
    in between.

    ** Files, in dependency order
    - [Prelude]: the notation scope [smf_scope], the bit-level helpers
      ([byte_of], [wrap_signed], [to_unsigned], [le_val]), the unit state/divergence monad
      used to sequence buffer writes, the hint database [smf], the tactic
      [bits_arith], the loop [traverse_sum] of fallible bodies, and the
      shared lemmas on [Z.land], [Z.shiftr], [Z.testbit], little-endian
      values and lists.
    - [VarLen]: the abstract contract of MIDI variable-length quantities:
      [vlq_encode] (7-bit groups, most significant first, continuation bit
      on all but the last) and [vlq_decode]; the round-trip law, the
      canonical examples of the MIDI specification, and the length of
      the encoding.
    - [SMFBuffer]: the class [SMFBuffer] as a record holding [m_buffer];
      every write primitive of SMFEvent.cpp.  [writeVarLen] is modelled
      at the width [long_bits] of C's [long]: its two loops are two fuelled
      fixpoints ([varlen_pack], [varlen_emit]) in which the signed
      [buffer <<= 8] wraps around.  The key invariant
      ([varlen_pack_wrap]) is that the packed buffer is always the
      little-endian value of the encoding cut to [long_bits] bits and read
      signed.  Theorems: on a [long] of [8k] bits the complete behaviour
      of [writeVarLen] is [writeVarLen_outcome] ([writeVarLen_refines]):
      negative values, such as the unassigned delta [-1], are written as
      one byte [v & 0x7f]; [0 <= v < 2^(7k)] is written as
      [vlq_encode v], with one ["."] logged per continuation byte
      ([writeVarLen_vlq], for any width), and reads back
      ([writeVarLen_roundtrip]); for [v >= 2^(7k)] the call never returns
      ([writeVarLen_overflow_diverges]: the wrapped buffer becomes
      negative and [buffer >>= 8] stalls at [-1]), which is every value
      from [2^28] on with a 32-bit [long].  The whole class refines the
      byte-sink contract of spec section 4.2 ([sink_contract]): any
      sequence of writes inside the contract appends exactly the bytes
      the contract gives ([run_writes_refine]); [writeWord] and
      [writeDWord] write big-endian ([writeWord_writeDWord_be]).
    - [VarLenMachine]: the two loops of [writeVarLen] as a small-step
      transition system [vstep] on the loop state ([Packing], [Emitting],
      [Finished]) and the buffer, without fuel.  A run returns exactly
      when some fuel makes the fuelled model return (the lemma
      [machine_adequate], by induction on runs).  Theorem: on an
      overflowing value the run does not merely hang but writes the
      first [k] bytes of the encoding and then pushes [0xFF] at every
      turn, so for every [n] it reaches a buffer of [n] more bytes
      ([writeVarLen_overflow_grows]).
    - [SMFEvent]: the events as an inductive type with the source's
      constructors, their C++ constructors (with the [errorLog] on a
      channel [>= 16], and the conversion of the tick to [unsigned],
      [to_unsigned]), the writer's assignment of the delta
      ([setDeltaTime]) and their [getBuffer].  Theorems: the exact bytes
      of every event, the track-name event's delta of 0; the event the
      note-on constructor returns for channel 16 is logged and written
      with status 0xA0 (polyphonic aftertouch), for channel -1 it is
      silently written as a note-off of channel 15; a fresh event's
      unassigned delta is written as 0x7F; a track name of [2^(7k)] characters or
      more makes [getBuffer] diverge on a [long] of [8k] bits
      ([trackName_long_name_diverges]).
    - [SMFTrack]: the track and file writer, modelled from the spec (the
      code is not in the sources): delta computation with its ordering
      error, [MTrk] and [MThd] framing.  Theorems: the deltas of a sorted
      track sum back to its ticks, a decreasing tick is an ordering error,
      the chunk length field equals the length of what follows it, and a
      track name shifts the notes after it.
    - [SMFDecode]: a reader of the event stream grammar of spec section 6
      and of the [MTrk] chunk, written from the spec (it is the
      round-trip decoder the spec's tests assume, not code of the
      repository).  Theorems: a chunk the track writer produces for
      well-formed events on a [long] of at least 32 bits decodes back to
      the events with their computed deltas, then the end of track
      ([trackChunk_decode]); a whole file decodes to its header fields
      and its tracks ([fileBytes_decode]).
    - [ADSR]: [ADSRState], the [ADSR] record of ADSR.h, its constructor's
      default arguments and its copy constructor (float fields as [Q]).
    - [Drumkit]: [Drumkit::install] (an unchecked [fopen], the gunzip
      loop with [BUFSIZE] = 4096, then [untar]), [Drumkit::load] and the
      two drumkit lists (delegations to [LocalFileMng], a record of the
      results it returns), [Drumkit::save] (the deep copy of the
      song's instruments and of their [MAX_LAYERS] layer slots handed to
      [saveDrumkit]), [Drumkit::dump] (the lines it logs) and
      [Drumkit::removeDrumkit] (the [rm -rf] command string).  NULL
      pointers are [None], and a dereference of one, like a thrown
      [H2Exception], is a [Fault]; the loops that may fault are
      [traverse_sum] of the prelude.  Theorems: [install] dereferences a
      NULL [pGunzippedFile] when [fopen] fails, and copies the
      [.tar] name and the data directory into [PATH_BUFSIZE] = 1024
      byte arrays with [strcpy], so a string of 1024 characters or more
      overflows them, and otherwise untars into the data directory even
      after a failed [tar_open] ([install_paths]); the gunzip loop writes a
      whole buffer per read, so a short last read is padded with the stale
      tail of the previous one ([gunzipLoop_stale_tail]); the [.tar] name
      is cut at the first dot of the whole path ([gunzippedName_first_dot]);
      the saved drumkit keeps every layer and instrument setting
      ([save_copies_settings]) but [save] dereferences a NULL sample
      pointer as soon as one layer has none ([save_null_sample]); the saved
      drumkit dumps without fault ([save_then_dump]) while [dump] faults
      exactly on a NULL instrument list, as a fresh drumkit has
      ([dump_new_drumkit]); a name holding a double quote splits the
      shell word ([removeCommand_quoted_word]).
    - [DrumkitHeap]: the heap [save] works on, as the set of live objects
      (a stdpp [gset] of [HeapObj], each named by its role and indices),
      and [save] as the sequence of [new] and [delete] it runs
      ([save_heap], with the loops [instruments_heap] and [layers_heap]
      and the destructor [drumkit_delete], whose call of
      [~InstrumentList] deletes the objects [list_dtor], a parameter).
      Theorem: [save] deletes nothing when it throws or faults, so every
      object it allocated leaks; on return it frees the drumkit and its
      instrument list and nothing else but what [~InstrumentList] frees
      ([save_leaks_on_throw]).
    - [Preferences]: the state of Preferences.h as records (general, audio,
      GUI and window parts), its inline setters and getters, and the LADSPA
      window array [m_ladspaProperties] with [getLadspaProperties] and
      [setLadspaProperties].  Theorems: every getter, after every
      setter, returns what the setter wrote to its field or else its old
      value, as the table [writes] says ([getters_after_setter]); two
      setters that write no common field commute for every getter
      ([setters_commute]).  The [unsigned] grid setters store their
      argument modulo [2^32]; the [float] falloff constants are the
      single-precision values of their literals.  The value and call
      types have [EqDecision] instances.
    - [Session]: the link between the two halves of sound_library.cpp
      and Preferences.h.  [install] and [removeDrumkit] read the data
      directory from the singleton; the class [PreferencesSingleton]
      states what they need of it (state, calls, [getDataDirectory], and
      the law that no call moves the directory), and the instance
      [hydrogen_preferences] discharges it for Preferences.h.  A session
      is a sequence of preference calls and drumkit operations in any
      interleaving ([run_session]), ended by the first undefined
      behaviour (a failing setter, or an install that faults).  The
      client's lemmas are proved against the class; the theorems are
      about Hydrogen's instance: a session that runs to its end keeps the
      data directory and its drumkit operations do exactly what they
      would do alone on the directory read at start ([session_effects]);
      a session reaches undefined behaviour exactly when it stores a
      LADSPA window at an index [>= MAX_FX] or installs with a failed
      [fopen] or an overflowing [strcpy] ([session_fails_ub]).  A
      removal's [H2Exception] is an outcome, not undefined behaviour.

    ** Bounds and fuel
    [long_bits] is a parameter (64 on LP64 Linux, 32 on 32-bit targets
    and Windows).  Both loops of [writeVarLen] get [varlen_fuel] =
    [Z.to_nat long_bits] iterations.  The first loop divides the value by
    128 at each turn and the second emits one byte of the packed buffer
    at each turn, so for [0 <= v < 2^(7 * (long_bits / 8))] the value has
    at most [long_bits / 8] groups and both loops need at most that many
    turns: [writeVarLen_vlq] proves that [writeVarLen] returns [Some] there,
    with the right bytes, at that fuel.  When the fuel runs out the model
    returns [None]; [writeVarLen_overflow_diverges] shows, for every fuel,
    that this [None] is real divergence for every [v >= 2^(7k)]
    ([varlen_emit_m1]: the emit loop at [-1] never stops).  Signed
    overflow (undefined in C++) is modelled as two's-complement
    wrap-around ([wrap_signed]), which is what the compilers produce.

    ** Not modelled
    Every log call of the sources is modelled as the list of messages
    an operation logs (the constructors' [errorLog], [writeVarLen_logs],
    [dump]'s lines, [install]'s [run_infos] and [run_errors],
    [save_logs], [removeDrumkit_logs]), but not the logger they go to;
    the [strerror( errno )] text appended to [install]'s errors comes
    from the C library and is left out.  The heap is modelled for [save] only; the
    destructor of [InstrumentList] (InstrumentList.cpp) is not in the
    sources, so what it frees is a parameter of the model.  [getDefaultUIStyle]
    returns a pointer to the singleton's style; the model returns its
    value, so writes through that pointer are not modelled.  The
    methods declared in Preferences.h but defined in Preferences.cpp
    ([loadPreferences], [savePreferences], [setRecentFiles], the
    constructor) are not in the sources, nor is the XML file they read
    and write.  File and archive I/O (zlib, libtar, stdio) is reduced to
    the data it moves and the results it returns; the Qt GUI is out of
    scope.  ADSR.h declares [getValue] and [release], whose bodies are in
    ADSR.cpp, not in the sources: only its data is modelled, and its
    copy constructor, declared there, as the field-wise copy.
    sound_library.cpp includes [<hydrogen/adsr.h>], a header that is not
    in the sources; the model takes the class of src/src/lib/ADSR.h.
*)

From Stdlib Require Import ZArith List Lia.
Import ListNotations.

Declare Scope smf_scope.
Delimit Scope smf_scope with smf.
Open Scope Z_scope.

(** ** Bit-level helpers *)

(** [std::vector<char>::push_back] of a [short]: the low 8 bits. *)
Definition byte_of (v : Z) : Z := Z.land v 255.

(** A value in [0, 256): what a [char] of the buffer holds, read unsigned. *)
Definition is_byte (b : Z) : bool := (0 <=? b) && (b <? 256).

(** Two's-complement wrap-around of a [w]-bit signed integer. *)
Definition wrap_signed (w z : Z) : Z :=
  (z + 2 ^ (w - 1)) mod 2 ^ w - 2 ^ (w - 1).

(** An [int] passed to an [unsigned] parameter (32 bits on every target
    Hydrogen builds for): its value modulo [2^32]. *)
Definition to_unsigned (z : Z) : Z := z mod 2 ^ 32.

(** The little-endian value of a list of bytes: the first byte is the
    least significant.  This is how [writeVarLen] packs its output into
    one [long] before emitting it. *)
Fixpoint le_val (l : list Z) : Z :=
  match l with
  | [] => 0
  | b :: l' => b + 256 * le_val l'
  end.

Notation "x .& y" := (Z.land x y) (at level 40, left associativity) : smf_scope.
Notation "x .| y" := (Z.lor x y) (at level 50, left associativity) : smf_scope.
Notation "x >>> n" := (Z.shiftr x n) (at level 35) : smf_scope.
Notation "x <<< n" := (Z.shiftl x n) (at level 35) : smf_scope.

(** ** A state monad with divergence

    Buffer writes are sequenced as functions [S -> option S]; [None]
    stands for a loop that does not terminate. *)
Definition act (S : Type) := S -> option S.

Definition act_seq {S} (f g : act S) : act S :=
  fun s => match f s with Some s' => g s' | None => None end.

Definition act_ret {S} : act S := fun s => Some s.

Notation "f ;; g" := (act_seq f g) (at level 100, g at level 200, right associativity) : smf_scope.

Fixpoint act_iter {S A} (f : A -> act S) (l : list A) : act S :=
  match l with
  | [] => act_ret
  | x :: l' => act_seq (f x) (act_iter f l')
  end.

Create HintDb smf discriminated.
Create Rewrite HintDb smf_bits.

Section ActLaws.
Context {S : Type}.

Lemma act_seq_assoc (f g h : act S) s :
  act_seq (act_seq f g) h s = act_seq f (act_seq g h) s.
Proof. unfold act_seq. destruct (f s); reflexivity. Qed.

Lemma act_seq_Some (f g : act S) s s' :
  f s = Some s' -> act_seq f g s = g s'.
Proof. unfold act_seq. intros ->. reflexivity. Qed.

Lemma act_seq_None (f g : act S) s :
  f s = None -> act_seq f g s = None.
Proof. unfold act_seq. intros ->. reflexivity. Qed.

(** An invariant relation between the state before and after an action,
    reflexive and transitive, is preserved by sequencing. *)
Lemma act_seq_rel (R : S -> S -> Prop) (f g : act S) s s'' :
  (forall x, R x x) -> (forall x y z, R x y -> R y z -> R x z) ->
  (forall x y, f x = Some y -> R x y) -> (forall x y, g x = Some y -> R x y) ->
  act_seq f g s = Some s'' -> R s s''.
Proof.
  unfold act_seq. intros Hrefl Htrans Hf Hg H.
  destruct (f s) as [s'|] eqn:E; [|discriminate].
  eauto.
Qed.
End ActLaws.

(** ** Fallible loops

    A loop over a list whose body may fail (a C++ exception or a NULL
    dereference) stops at the first failure: [traverse_sum] maps the
    body over the list in order and returns the first error. *)
Fixpoint traverse_sum {E A B} (f : A -> E + B) (l : list A) : E + list B :=
  match l with
  | [] => inr []
  | x :: l' =>
      match f x with
      | inl e => inl e
      | inr y => match traverse_sum f l' with
                 | inl e => inl e
                 | inr ys => inr (y :: ys)
                 end
      end
  end.

Section TraverseSum.
Context {E A B : Type} (f : A -> E + B).

(** The loop succeeds exactly when every body does, with their results. *)
Lemma traverse_sum_inr l ys :
  traverse_sum f l = inr ys <-> Forall2 (fun x y => f x = inr y) l ys.
Proof.
  revert ys. induction l as [|x l IH]; intros ys; cbn [traverse_sum].
  - split; [intros H; injection H as <-; constructor | intros H; inversion H; reflexivity].
  - destruct (f x) as [e|y] eqn:Ef.
    + split; [discriminate | intros H; inversion H; congruence].
    + destruct (traverse_sum f l) as [e|ys'] eqn:Et.
      * split; [discriminate|]. intros H; inversion H as [|? y' ? ys'' Hy Hr]; subst.
        apply IH in Hr. discriminate.
      * split; [intros H; injection H as <-; constructor; [exact Ef | apply IH; reflexivity]|].
        intros H; inversion H as [|? y' ? ys'' Hy Hr]; subst.
        apply IH in Hr. injection Hr as ->. rewrite Ef in Hy. injection Hy as ->. reflexivity.
Qed.

(** A failure is the failure of the first failing body. *)
Lemma traverse_sum_inl l e :
  traverse_sum f l = inl e <->
  exists (pre : list A) (x : A) (post : list A),
    l = pre ++ x :: post /\ Forall (fun y => exists b, f y = inr b) pre /\ f x = inl e.
Proof.
  induction l as [|x l IH]; cbn [traverse_sum].
  - split; [discriminate|]. intros (pre & y & post & H & _). destruct pre; discriminate.
  - destruct (f x) as [e'|y] eqn:Ef.
    + split.
      * intros H; injection H as <-. exists [], x, l. repeat split; [constructor | exact Ef].
      * intros (pre & z & post & Hl & Hp & Hz). destruct pre as [|w pre]; injection Hl as -> ->.
        -- congruence.
        -- inversion Hp as [|? ? [b Hb] _]. congruence.
    + destruct (traverse_sum f l) as [e'|ys] eqn:Et.
      * split.
        -- intros H; injection H as <-. destruct (proj1 IH eq_refl) as (pre & z & post & -> & Hp & Hz).
           exists (x :: pre), z, post. repeat split; [constructor; [eauto | exact Hp] | exact Hz].
        -- intros (pre & z & post & Hl & Hp & Hz). destruct pre as [|w pre]; injection Hl as -> ->.
           ++ congruence.
           ++ inversion Hp; subst. apply (proj2 IH). exists pre, z, post. auto.
      * split; [discriminate|]. intros (pre & z & post & Hl & Hp & Hz).
        destruct pre as [|w pre]; injection Hl as -> ->; [congruence|].
        inversion Hp; subst. discriminate (proj2 IH ltac:(exists pre, z, post; auto)).
Qed.

(** A loop whose body succeeds exactly on the elements where [p] holds. *)
Lemma traverse_sum_succeeds (p : A -> bool) l :
  (forall x, p x = true -> exists y, f x = inr y) ->
  forallb p l = true -> exists ys, traverse_sum f l = inr ys.
Proof.
  intros Hp. induction l as [|x l IH]; cbn [forallb traverse_sum]; [eauto|].
  intros H. apply andb_prop in H as [Hx Hl].
  destruct (Hp x Hx) as [y ->]. destruct (IH Hl) as [ys ->]. eauto.
Qed.

(** ... and fails, with the only error its body raises, elsewhere. *)
Lemma traverse_sum_fails (p : A -> bool) (e0 : E) l :
  (forall x y, f x = inr y -> p x = true) -> (forall x e, f x = inl e -> e = e0) ->
  forallb p l = false -> traverse_sum f l = inl e0.
Proof.
  intros Hp He. induction l as [|x l IH]; cbn [forallb traverse_sum]; [discriminate|].
  intros H. destruct (f x) as [e|y] eqn:Ef; [f_equal; exact (He _ _ Ef)|].
  rewrite (Hp _ _ Ef) in H. cbn in H. rewrite (IH H). reflexivity.
Qed.

(** The element whose body failed. *)
Lemma traverse_sum_inl_elem l e :
  traverse_sum f l = inl e -> exists x, In x l /\ f x = inl e.
Proof.
  intros H. apply traverse_sum_inl in H as (pre & x & post & -> & _ & Hx).
  exists x. split; [apply in_or_app; right; left; reflexivity | exact Hx].
Qed.

End TraverseSum.

(** ** Runs of a step relation

    [star R a b]: [b] is reached from [a] in zero or more steps. *)
Inductive star {A : Type} (R : A -> A -> Prop) : A -> A -> Prop :=
| star_refl a : star R a a
| star_step a b c : R a b -> star R b c -> star R a c.

Lemma star_one {A} (R : A -> A -> Prop) a b : R a b -> star R a b.
Proof. intros H. exact (star_step R a b b H (star_refl R b)). Qed.

Lemma star_trans {A} (R : A -> A -> Prop) a b c : star R a b -> star R b c -> star R a c.
Proof. induction 1; [auto | intros; eapply star_step; eauto]. Qed.

(** ** Lemmas on the bit operations *)

Lemma land_ones_mod (x : Z) (n : Z) : 0 <= n -> Z.land x (2 ^ n - 1) = x mod 2 ^ n.
Proof. intros Hn. rewrite <- Z.land_ones by exact Hn. rewrite Z.ones_equiv. reflexivity. Qed.

Lemma land_127 (x : Z) : Z.land x 127 = x mod 128.
Proof. exact (land_ones_mod x 7 ltac:(lia)). Qed.

Lemma land_255 (x : Z) : Z.land x 255 = x mod 256.
Proof. exact (land_ones_mod x 8 ltac:(lia)). Qed.

Lemma shiftr_7 (x : Z) : Z.shiftr x 7 = x / 128.
Proof. rewrite Z.shiftr_div_pow2 by lia. reflexivity. Qed.

Lemma shiftr_8 (x : Z) : Z.shiftr x 8 = x / 256.
Proof. rewrite Z.shiftr_div_pow2 by lia. reflexivity. Qed.

Lemma shiftl_8 (x : Z) : Z.shiftl x 8 = x * 256.
Proof. rewrite Z.shiftl_mul_pow2 by lia. reflexivity. Qed.

Lemma testbit_7 (x : Z) : Z.testbit x 7 = (128 <=? x mod 256).
Proof.
  rewrite Z.testbit_eqb by lia. change (2 ^ 7) with 128.
  destruct (Z.leb_spec 128 (x mod 256)) as [H|H];
    [apply Z.eqb_eq | apply Z.eqb_neq]; Z.div_mod_to_equations; lia.
Qed.

Lemma land_128 (x : Z) : Z.land x 128 = if 128 <=? x mod 256 then 128 else 0.
Proof.
  rewrite <- testbit_7. change 128 with (2 ^ 7).
  destruct (Z.testbit x 7) eqn:E; apply Z.bits_inj'; intros i Hi;
    rewrite Z.land_spec, ?Z.bits_0, Z.pow2_bits_eqb by lia;
    destruct (Z.eqb_spec 7 i) as [<-|]; rewrite ?E; simpl; auto using Bool.andb_false_r.
Qed.

(** [lor] of a value shifted left by [n] with a value below [2^n] is a sum. *)
Lemma lor_shifted (a c n : Z) :
  0 <= n -> 0 <= c < 2 ^ n -> Z.lor (a * 2 ^ n) c = a * 2 ^ n + c.
Proof.
  intros Hn Hc.
  assert (Hdis : Z.land (a * 2 ^ n) c = 0).
  { apply Z.bits_inj'. intros i Hi. rewrite Z.land_spec, Z.bits_0.
    destruct (Z.lt_ge_cases i n) as [Hlt|Hge].
    - rewrite Z.mul_pow2_bits_low by lia. reflexivity.
    - assert (Hci : Z.testbit c i = false).
      { destruct (Z.eq_dec c 0) as [->|Hc0]; [apply Z.bits_0|].
        apply Z.bits_above_log2; [lia|].
        pose proof (Z.pow_le_mono_r 2 n i ltac:(lia) Hge).
        apply Z.log2_lt_pow2; lia. }
      rewrite Hci. apply Bool.andb_false_r. }
  rewrite <- Z.lxor_lor by exact Hdis. rewrite <- Z.add_nocarry_lxor by exact Hdis. reflexivity.
Qed.

Lemma lor_128_small (g : Z) : 0 <= g < 128 -> Z.lor 128 g = 128 + g.
Proof.
  intros Hg.
  exact (lor_shifted 1 g 7 ltac:(lia) ltac:(change (2 ^ 7) with 128; lia)).
Qed.

(** A continuation byte [128 + g] carries the group [g] in its low bits. *)
Lemma mod_128_cont (g : Z) : 0 <= g < 128 -> (128 + g) mod 128 = g.
Proof. intros Hg. symmetry. apply Z.mod_unique with 1; lia. Qed.

Lemma wrap_signed_small (w z : Z) :
  0 < w -> - 2 ^ (w - 1) <= z < 2 ^ (w - 1) -> wrap_signed w z = z.
Proof.
  intros Hw Hz. unfold wrap_signed.
  assert (Hp : 2 ^ w = 2 * 2 ^ (w - 1)).
  { rewrite <- Z.pow_succ_r by lia. f_equal. lia. }
  rewrite Z.mod_small by lia. lia.
Qed.

(** [wrap_signed w] depends only on its argument modulo [2^w] ... *)
Lemma wrap_signed_congr (w a b : Z) :
  0 <= w -> a mod 2 ^ w = b mod 2 ^ w -> wrap_signed w a = wrap_signed w b.
Proof.
  intros Hw H. unfold wrap_signed. f_equal.
  rewrite <- (Z.add_mod_idemp_l a), <- (Z.add_mod_idemp_l b), H by (apply Z.pow_nonzero; lia).
  reflexivity.
Qed.

(** ... and keeps it modulo [2^w]. *)
Lemma wrap_signed_mod (w z : Z) : 0 <= w -> wrap_signed w z mod 2 ^ w = z mod 2 ^ w.
Proof.
  intros Hw. unfold wrap_signed.
  rewrite Zminus_mod_idemp_l. f_equal. lia.
Qed.

(** A [w]-bit value with its top bit set reads as a negative [long]. *)
Lemma wrap_signed_high (w z : Z) :
  0 < w -> 2 ^ (w - 1) <= z < 2 ^ w -> wrap_signed w z = z - 2 ^ w.
Proof.
  intros Hw Hz. unfold wrap_signed.
  assert (Hp : 2 ^ w = 2 * 2 ^ (w - 1)).
  { rewrite <- Z.pow_succ_r by lia. f_equal. lia. }
  rewrite <- (Z.mod_unique (z + 2 ^ (w - 1)) (2 ^ w) 1 (z + 2 ^ (w - 1) - 2 ^ w)) by lia. lia.
Qed.

(** [x |= 0x80] on a value whose low byte is 0 adds 128. *)
Lemma lor_128_low0 (x : Z) : x mod 256 = 0 -> Z.lor x 128 = x + 128.
Proof.
  intros Hx. assert (H0 : Z.land x 128 = 0) by (rewrite land_128, Hx; reflexivity).
  rewrite <- Z.lxor_lor, Z.add_nocarry_lxor by exact H0. reflexivity.
Qed.

Lemma skipn_length_app {A} (pre l : list A) : skipn (length pre) (pre ++ l) = l.
Proof. rewrite skipn_app, skipn_all, Nat.sub_diag. reflexivity. Qed.

Lemma firstn_length_app {A} (pre l : list A) : firstn (length pre) (pre ++ l) = pre.
Proof. rewrite firstn_app, firstn_all, Nat.sub_diag, app_nil_r. reflexivity. Qed.

(** Reading a list back slot by slot, [nth] at [0 .. length - 1]. *)
Lemma map_nth_seq {A} (l : list A) (d : A) :
  map (fun n => nth n l d) (seq 0 (length l)) = l.
Proof.
  induction l as [|x l IH]; [reflexivity|]. cbn [length seq map nth]. f_equal.
  rewrite <- seq_shift, map_map. exact IH.
Qed.

Lemma Forall_firstn {A} (P : A -> Prop) (n : nat) (l : list A) :
  Forall P l -> Forall P (firstn n l).
Proof.
  revert l. induction n as [|n IH]; intros l H; [constructor|].
  destruct H; cbn [firstn]; constructor; auto.
Qed.

(** Two lists related pointwise through [g] and [h] have the same images. *)
Lemma Forall2_map_eq {A B C} (g : A -> C) (h : B -> C) (R : A -> B -> Prop) l ys :
  (forall x y, R x y -> h y = g x) -> Forall2 R l ys -> map h ys = map g l.
Proof. intros HR H. induction H; cbn [map]; [reflexivity | f_equal; eauto]. Qed.

Lemma Forall2_Forall_l {A B} (R : A -> B -> Prop) (P : A -> Prop) l ys :
  (forall x y, R x y -> P x) -> Forall2 R l ys -> Forall P l.
Proof. intros HR H. induction H; constructor; eauto. Qed.

Lemma Forall2_Forall_r {A B} (R : A -> B -> Prop) (P : B -> Prop) l ys :
  (forall x y, R x y -> P y) -> Forall2 R l ys -> Forall P ys.
Proof. intros HR H. induction H; constructor; eauto. Qed.

Lemma skipn_app_len {A} (n : nat) (pre l : list A) : length pre = n -> skipn n (pre ++ l) = l.
Proof. intros <-. apply skipn_length_app. Qed.

Lemma firstn_app_len {A} (n : nat) (pre l : list A) : length pre = n -> firstn n (pre ++ l) = pre.
Proof. intros <-. apply firstn_length_app. Qed.

(** The low byte and the rest of a little-endian value. *)
Lemma le_cons_mod (b x : Z) : 0 <= b < 256 -> (b + 256 * x) mod 256 = b.
Proof. intros Hb. symmetry. apply Z.mod_unique with x; lia. Qed.

Lemma le_cons_div (b x : Z) : 0 <= b < 256 -> (b + 256 * x) / 256 = x.
Proof. intros Hb. symmetry. apply Z.div_unique with b; lia. Qed.

Lemma le_val_app (l1 l2 : list Z) :
  le_val (l1 ++ l2) = le_val l1 + 256 ^ Z.of_nat (length l1) * le_val l2.
Proof.
  induction l1 as [|b l1 IH]; cbn [le_val app length].
  - change (256 ^ Z.of_nat 0) with 1. lia.
  - rewrite IH, Nat2Z.inj_succ, Z.pow_succ_r by lia. ring.
Qed.

(** A list of bytes whose last byte is below 128 has a little-endian
    value below [2^(8n - 1)] when it has [n] bytes. *)
Lemma le_val_bound (l : list Z) (b : Z) :
  Forall (fun x => 0 <= x < 256) l -> 0 <= b < 128 ->
  0 <= le_val (l ++ [b]) < 2 ^ (8 * Z.of_nat (length l) + 7).
Proof.
  intros Hl Hb. induction Hl as [|x l Hx Hl IH]; cbn [le_val app length].
  - change (2 ^ (8 * Z.of_nat 0 + 7)) with 128. lia.
  - rewrite Nat2Z.inj_succ.
    replace (8 * Z.succ (Z.of_nat (length l)) + 7) with (8 + (8 * Z.of_nat (length l) + 7)) by lia.
    rewrite Z.pow_add_r by lia. change (2 ^ 8) with 256. lia.
Qed.

(** A list of bytes has a little-endian value below [256^n] ... *)
Lemma le_val_lt (l : list Z) :
  Forall (fun x => 0 <= x < 256) l -> 0 <= le_val l < 256 ^ Z.of_nat (length l).
Proof.
  induction 1 as [|x l Hx Hl IH]; cbn [le_val length]; [lia|].
  rewrite Nat2Z.inj_succ, Z.pow_succ_r by lia. lia.
Qed.

(** ... and at least [2^(8n - 1)] when its last byte has its top bit set. *)
Lemma le_val_top (l : list Z) (t : Z) :
  Forall (fun x => 0 <= x < 256) l -> 128 <= t < 256 ->
  2 ^ (8 * Z.of_nat (length (l ++ [t])) - 1) <= le_val (l ++ [t]) < 2 ^ (8 * Z.of_nat (length (l ++ [t]))).
Proof.
  intros Hl Ht. rewrite le_val_app, length_app. cbn [length le_val].
  pose proof (le_val_lt l Hl) as Hb.
  replace (8 * Z.of_nat (length l + 1) - 1) with (8 * Z.of_nat (length l) + 7) by lia.
  replace (8 * Z.of_nat (length l + 1)) with (8 * Z.of_nat (length l) + 8) by lia.
  rewrite !Z.pow_add_r, Z.pow_mul_r by lia. change (2 ^ 8) with 256. change (2 ^ 7) with 128.
  nia.
Qed.

#[export] Hint Rewrite land_127 land_128 land_255 shiftr_7 shiftr_8 shiftl_8 testbit_7 : smf_bits.
#[export] Hint Resolve wrap_signed_small lor_128_small : smf.
#[export] Hint Resolve star_refl star_one star_trans : smf.

(** Rewrite the code's bit operations on bytes into arithmetic, then
    close the goal with [lia]. *)
Ltac bits_arith :=
  autorewrite with smf_bits in *;
  try (match goal with |- context [Z.lor 128 ?g] => rewrite (lor_128_small g) by lia end);
  try lia.

(** Discharge the hypotheses of a theorem at concrete values: linear
    bounds by [lia], powers of two by evaluation. *)
Ltac solve_bounds :=
  first [ lia | split; [lia | reflexivity] | reflexivity ].
