(* ===== verification/VarLen.v ===== *)
(** * The contract of MIDI variable-length quantities

    What the Standard MIDI File format asks of [SMFBuffer::writeVarLen]
    (spec section 4.1): a value is split into 7-bit groups, most
    significant group first; every byte but the last has its high bit set.
    [vlq_decode] reads one quantity back, stopping at the first byte whose
    high bit is clear.  This file is the abstract specification that
    [SMFBuffer.writeVarLen] is proved to refine. *)

From Stdlib Require Import ZArith List Lia.
From S2P Require Import Prelude.
Import ListNotations.
Open Scope Z_scope.

Module VarLenSpec.

(** The [n] low 7-bit groups of [v], most significant first. *)
Fixpoint vlq_groups (n : nat) (v : Z) : list Z :=
  match n with
  | O => []
  | S n' => (v / 2 ^ (7 * Z.of_nat n')) mod 128 :: vlq_groups n' v
  end.

(** The number of groups of a non-negative value (1 for 0). *)
Definition vlq_len (v : Z) : nat := S (Z.to_nat (Z.log2 v / 7)).

(** The encoding: the leading groups with the continuation bit, then the
    lowest group without it. *)
Definition vlq_encode (v : Z) : list Z :=
  map (fun g => 128 + g) (vlq_groups (pred (vlq_len v)) (v / 128)) ++ [v mod 128].

Fixpoint vlq_decode_acc (bs : list Z) (acc : Z) (n : nat) : option (Z * nat) :=
  match bs with
  | [] => None
  | b :: bs' =>
      let acc' := acc * 128 + b mod 128 in
      if b <? 128 then Some (acc', S n) else vlq_decode_acc bs' acc' (S n)
  end.

(** [decode(bytes, offset) -> (value, bytesConsumed)]. *)
Definition vlq_decode (bs : list Z) (offset : nat) : option (Z * nat) :=
  vlq_decode_acc (skipn offset bs) 0 0.

(** ** Lemmas *)

Lemma vlq_groups_range n v : Forall (fun g => 0 <= g < 128) (vlq_groups n v).
Proof.
  induction n as [|n IH]; simpl; constructor; [apply Z.mod_pos_bound; lia | exact IH].
Qed.

Lemma vlq_groups_length n v : length (vlq_groups n v) = n.
Proof. induction n; simpl; lia. Qed.

Lemma vlq_len_pos v : (1 <= vlq_len v)%nat.
Proof. unfold vlq_len. lia. Qed.

(** Every non-negative value fits in [7 * vlq_len v] bits. *)
Lemma vlq_len_bound v : 0 <= v -> v < 2 ^ (7 * Z.of_nat (vlq_len v)).
Proof.
  intros Hv. destruct (Z.eq_dec v 0) as [->|Hv0]; [reflexivity|].
  unfold vlq_len. rewrite Nat2Z.inj_succ, Z2Nat.id
    by (apply Z.div_pos; [apply Z.log2_nonneg | lia]).
  apply Z.log2_lt_pow2; [lia|].
  pose proof (Z.mul_div_le (Z.log2 v) 7 ltac:(lia)).
  pose proof (Z.mod_pos_bound (Z.log2 v) 7 ltac:(lia)).
  pose proof (Z.div_mod (Z.log2 v) 7 ltac:(lia)). lia.
Qed.

(** [vlq_len] is the least number of groups that holds the value. *)
Lemma vlq_len_le v (k : nat) :
  0 <= v -> (1 <= k)%nat -> ((vlq_len v <= k)%nat <-> v < 2 ^ (7 * Z.of_nat k)).
Proof.
  intros Hv Hk. split.
  - intros Hle. eapply Z.lt_le_trans; [apply vlq_len_bound, Hv|].
    apply Z.pow_le_mono_r; lia.
  - intros Hlt. unfold vlq_len.
    destruct (Z.eq_dec v 0) as [->|Hv0]; [simpl; lia|].
    apply Z.log2_lt_pow2 in Hlt; [|lia].
    assert (Z.log2 v / 7 < Z.of_nat k) by (apply Z.div_lt_upper_bound; lia).
    lia.
Qed.

(** Reading [n] continuation bytes of [v]'s groups shifts them into the
    accumulator. *)
Lemma vlq_decode_groups n v rest acc k :
  0 <= v ->
  vlq_decode_acc (map (fun g => 128 + g) (vlq_groups n v) ++ rest) acc k =
  vlq_decode_acc rest (acc * 2 ^ (7 * Z.of_nat n) + v mod 2 ^ (7 * Z.of_nat n)) (k + n).
Proof.
  intros Hv. revert acc k. induction n as [|n IH]; intros acc k; cbn [vlq_groups map app vlq_decode_acc].
  - rewrite Z.mod_1_r, Nat.add_0_r. f_equal. lia.
  - set (g := (v / 2 ^ (7 * Z.of_nat n)) mod 128).
    assert (Hg : 0 <= g < 128) by (apply Z.mod_pos_bound; lia).
    replace ((128 + g) <? 128) with false by (symmetry; apply Z.ltb_ge; lia).
    rewrite IH. replace (k + S n)%nat with (S k + n)%nat by lia. f_equal.
    rewrite mod_128_cont by exact Hg.
    replace (7 * Z.of_nat (S n)) with (7 * Z.of_nat n + 7) by lia.
    rewrite Z.pow_add_r by lia. change (2 ^ 7) with 128.
    rewrite Z.rem_mul_r by (try apply Z.pow_nonzero; lia). subst g. ring.
Qed.

Lemma vlq_encode_length v : length (vlq_encode v) = vlq_len v.
Proof.
  unfold vlq_encode. rewrite length_app, length_map, vlq_groups_length.
  cbn [length]. pose proof (vlq_len_pos v). lia.
Qed.

(** The shape of an encoding: continuation bytes, then a final byte. *)
Lemma vlq_encode_shape v :
  exists init last, vlq_encode v = init ++ [last] /\
    Forall (fun b => 128 <= b < 256) init /\ 0 <= last < 128.
Proof.
  exists (map (fun g => 128 + g) (vlq_groups (pred (vlq_len v)) (v / 128))), (v mod 128).
  split; [reflexivity|]. split; [|apply Z.mod_pos_bound; lia].
  apply Forall_map. eapply Forall_impl; [|apply vlq_groups_range]. intros a Ha. cbv beta in *. lia.
Qed.

#[export] Hint Resolve vlq_groups_range vlq_len_pos : smf.

(** The round-trip law of the spec: decoding an encoding at its offset
    gives back the value and the number of bytes of the encoding. *)
Lemma vlq_roundtrip (pre rest : list Z) (v : Z) :
  0 <= v ->
  vlq_decode (pre ++ vlq_encode v ++ rest) (length pre) = Some (v, length (vlq_encode v)).
Proof.
  intros Hv. unfold vlq_decode. rewrite skipn_length_app, vlq_encode_length.
  unfold vlq_encode. rewrite <- app_assoc, vlq_decode_groups by (apply Z.div_pos; lia).
  pose proof (vlq_len_bound v Hv) as Hb. pose proof (vlq_len_pos v) as Hl.
  set (n := pred (vlq_len v)) in *.
  assert (Hn : vlq_len v = S n) by lia. rewrite Hn in Hb |- *.
  assert (Hq : v / 128 < 2 ^ (7 * Z.of_nat n)).
  { apply Z.div_lt_upper_bound; [lia|].
    replace (7 * Z.of_nat (S n)) with (7 + 7 * Z.of_nat n) in Hb by lia.
    rewrite Z.pow_add_r in Hb by lia. exact Hb. }
  cbn [app vlq_decode_acc].
  pose proof (Z.mod_pos_bound v 128 ltac:(lia)).
  replace (v mod 128 <? 128) with true by (symmetry; apply Z.ltb_lt; lia).
  rewrite (Z.mod_small (v / 128)) by (split; [apply Z.div_pos|]; lia).
  rewrite (Z.mod_small (v mod 128)) by lia.
  pose proof (Z.div_mod v 128 ltac:(lia)). f_equal. f_equal; lia.
Qed.

(** The groups can also be peeled from the least significant end: this is
    the order in which [writeVarLen]'s first loop visits them. *)
Lemma vlq_groups_snoc n x :
  vlq_groups (S n) x = vlq_groups n (x / 128) ++ [x mod 128].
Proof.
  induction n as [|n IH].
  - cbn [vlq_groups app]. rewrite Z.mul_0_r, Z.pow_0_r, Z.div_1_r. reflexivity.
  - change (vlq_groups (S (S n)) x) with
      ((x / 2 ^ (7 * Z.of_nat (S n))) mod 128 :: vlq_groups (S n) x).
    rewrite IH. cbn [vlq_groups app]. do 2 f_equal.
    rewrite Z.div_div by (try apply Z.pow_pos_nonneg; lia). f_equal.
    replace (7 * Z.of_nat (S n)) with (7 + 7 * Z.of_nat n) by lia.
    rewrite Z.pow_add_r by lia. reflexivity.
Qed.

Lemma vlq_len_small v : v < 128 -> vlq_len v = 1%nat.
Proof.
  intros Hv. unfold vlq_len. destruct (Z.le_gt_cases v 0) as [H|H].
  - rewrite Z.log2_nonpos by exact H. reflexivity.
  - assert (Z.log2 v < 7) by (apply Z.log2_lt_pow2; [lia | change (2 ^ 7) with 128; lia]).
    rewrite Z.div_small by (pose proof (Z.log2_nonneg v); lia). reflexivity.
Qed.

Lemma vlq_len_succ v : 128 <= v -> vlq_len v = S (vlq_len (v / 128)).
Proof.
  intros Hv. unfold vlq_len. f_equal.
  assert (H7 : 7 <= Z.log2 v) by (apply Z.log2_le_pow2; [lia | exact Hv]).
  rewrite <- shiftr_7, Z.log2_shiftr by lia.
  rewrite Z.max_r by lia.
  replace (Z.log2 v) with (Z.log2 v - 7 + 1 * 7) at 1 by lia.
  rewrite Z.div_add by lia.
  rewrite Z2Nat.inj_add by (try apply Z.div_pos; lia). simpl. lia.
Qed.

End VarLenSpec.
