(* ===== verification/SMFBuffer.v ===== *)
(** * SMFBuffer: the byte buffer of SMFEvent.cpp

    [SMFBuffer] keeps one field, [m_buffer : std::vector<char>], modelled
    as the list of its bytes read unsigned.  Each write is an [act
    SMFBuffer] (Prelude): it appends to [m_buffer], and [None] stands for
    a loop of the C++ code that does not terminate.  [writeVarLen] is
    modelled at the width [long_bits] of C's [long], loop by loop.  The
    byte-sink contract of the spec ([sink_contract], [in_contract]) is
    the abstract specification the write operations refine. *)

From Stdlib Require Import ZArith String Ascii List Lia.
From S2P Require Import Prelude VarLen.
Import ListNotations VarLenSpec.
Open Scope Z_scope.
Open Scope smf_scope.

Module Buffer.

Record SMFBuffer := mkSMFBuffer { m_buffer : list Z }.

Definition empty_buffer : SMFBuffer := mkSMFBuffer [].

(** The buffer after [bs] is appended. *)
Definition append (buf : SMFBuffer) (bs : list Z) : SMFBuffer :=
  mkSMFBuffer (m_buffer buf ++ bs).

(** [void SMFBuffer::writeByte( short int nByte )]: [m_buffer.push_back]. *)
Definition writeByte (nByte : Z) : act SMFBuffer :=
  fun buf => Some (append buf [byte_of nByte]).

(** [void SMFBuffer::writeWord( int nVal )]: high byte first. *)
Definition writeWord (nVal : Z) : act SMFBuffer :=
  writeByte (nVal >>> 8) ;; writeByte nVal.

(** [void SMFBuffer::writeDWord( long nVal )]: high byte first. *)
Definition writeDWord (nVal : Z) : act SMFBuffer :=
  writeByte (nVal >>> 24) ;; writeByte (nVal >>> 16) ;;
  writeByte (nVal >>> 8) ;; writeByte nVal.

Section VarLen.
(** The number of bits of C's [long]. *)
Variable long_bits : Z.

(** The first loop of [writeVarLen]:
    [while ( ( value >>= 7 ) > 0 ) { buffer <<= 8; buffer |= 0x80;
    buffer += ( value & 0x7f ); }], with [buffer] a signed [long]. *)
Fixpoint varlen_pack (fuel : nat) (value buffer : Z) : option Z :=
  match fuel with
  | O => None
  | S fuel' =>
      let value' := value >>> 7 in
      if 0 <? value' then
        let buffer1 := wrap_signed long_bits (buffer <<< 8) in
        let buffer2 := buffer1 .| 128 in
        let buffer3 := wrap_signed long_bits (buffer2 + (value' .& 127)) in
        varlen_pack fuel' value' buffer3
      else Some buffer
  end.

(** The messages of the first loop: [infoLog( "." )] at each turn, before
    the buffer is shifted.  They go to the logger, not to the buffer. *)
Fixpoint varlen_pack_logs (fuel : nat) (value : Z) : list string :=
  match fuel with
  | O => []
  | S fuel' =>
      let value' := value >>> 7 in
      if 0 <? value' then "."%string :: varlen_pack_logs fuel' value' else []
  end.

(** The second loop: [while ( true ) { writeByte( (char)buffer );
    if ( buffer & 0x80 ) buffer >>= 8; else break; }]. *)
Fixpoint varlen_emit (fuel : nat) (buffer : Z) : act SMFBuffer :=
  match fuel with
  | O => fun _ => None
  | S fuel' =>
      writeByte buffer ;;
      (if buffer .& 128 =? 0 then act_ret else varlen_emit fuel' (buffer >>> 8))
  end.

Definition writeVarLen_fuel (fuel : nat) (value : Z) : act SMFBuffer :=
  fun buf =>
    match varlen_pack fuel value (value .& 127) with
    | Some buffer => varlen_emit fuel buffer buf
    | None => None
    end.

(** Both loops run at most [long_bits] times when they terminate. *)
Definition varlen_fuel : nat := Z.to_nat long_bits.

(** [void SMFBuffer::writeVarLen( long value )]. *)
Definition writeVarLen (value : Z) : act SMFBuffer :=
  writeVarLen_fuel varlen_fuel value.

(** What [writeVarLen] logs. *)
Definition writeVarLen_logs (value : Z) : list string :=
  varlen_pack_logs varlen_fuel value.

(** [sMsg.c_str()[ i ]]: a (signed) [char], widened to [short]. *)
Definition char_value (c : ascii) : Z :=
  let n := Z.of_nat (nat_of_ascii c) in
  if n <? 128 then n else n - 256.

(** [void SMFBuffer::writeString( std::string sMsg )]: the length as a
    variable-length quantity, then the characters. *)
Definition writeString (sMsg : string) : act SMFBuffer :=
  writeVarLen (Z.of_nat (String.length sMsg)) ;;
  act_iter (fun c => writeByte (char_value c)) (list_ascii_of_string sMsg).
End VarLen.

(** What [writeVarLen] does on a [long] of [8k] bits, in terms of the
    abstract encoding: a negative value is cut to its low 7 bits, a
    value of at most [k] groups of 7 bits is encoded, and on a longer one
    the call never returns ([None]). *)
Definition writeVarLen_outcome (k : nat) (v : Z) : option (list Z) :=
  if v <? 0 then Some [v mod 128]
  else if v <? 2 ^ (7 * Z.of_nat k) then Some (vlq_encode v) else None.

(** The [n]-byte big-endian representation of [v], as the chunk headers
    of a MIDI file need it, and its value. *)
Fixpoint be_bytes (n : nat) (v : Z) : list Z :=
  match n with
  | O => []
  | S n' => (v / 256 ^ Z.of_nat n') mod 256 :: be_bytes n' v
  end.

Fixpoint be_val_acc (acc : Z) (l : list Z) : Z :=
  match l with
  | [] => acc
  | b :: l' => be_val_acc (acc * 256 + b) l'
  end.

(** The public write operations of [SMFBuffer], as a sequence of calls. *)
Inductive SMFWrite :=
| WriteByte (nByte : Z)
| WriteWord (nVal : Z)
| WriteDWord (nVal : Z)
| WriteVarLen (value : Z)
| WriteString (sMsg : string).

Definition run_write (long_bits : Z) (op : SMFWrite) : act SMFBuffer :=
  match op with
  | WriteByte b => writeByte b
  | WriteWord v => writeWord v
  | WriteDWord v => writeDWord v
  | WriteVarLen v => writeVarLen long_bits v
  | WriteString s => writeString long_bits s
  end.

(** The bytes of a string, as [writeString] copies them. *)
Definition string_bytes (s : string) : list Z :=
  map (fun c => Z.of_nat (nat_of_ascii c)) (list_ascii_of_string s).

(** The contract of the byte sink (spec section 4.2): the bytes each write
    operation appends.  [writeByte] appends the low 8 bits, [writeWord]
    and [writeDWord] 2 and 4 bytes high byte first, [writeVarLen] the
    variable-length quantity, [writeString] the quantity of its length
    then its characters. *)
Definition sink_contract (op : SMFWrite) : list Z :=
  match op with
  | WriteByte v => [v mod 256]
  | WriteWord v => be_bytes 2 v
  | WriteDWord v => be_bytes 4 v
  | WriteVarLen v => vlq_encode v
  | WriteString s => vlq_encode (Z.of_nat (String.length s)) ++ string_bytes s
  end.

(** The calls inside the contract on a [long] of [long_bits] bits: a
    variable-length value, or a string length, that is non-negative and
    has at most [long_bits / 8] groups of 7 bits. *)
Definition in_contract (long_bits : Z) (op : SMFWrite) : bool :=
  match op with
  | WriteVarLen v => (0 <=? v) && (v <? 2 ^ (7 * (long_bits / 8)))
  | WriteString s => Z.of_nat (String.length s) <? 2 ^ (7 * (long_bits / 8))
  | _ => true
  end.

(** [buf'] extends [buf] with bytes: the bytes already written are
    unchanged, and what is added are values in [0, 256). *)
Definition appends (buf buf' : SMFBuffer) : Prop :=
  exists sfx, m_buffer buf' = m_buffer buf ++ sfx /\ Forall (fun b => 0 <= b < 256) sfx.

Definition Appending (f : act SMFBuffer) : Prop :=
  forall buf buf', f buf = Some buf' -> appends buf buf'.

(** ** Lemmas *)

Lemma appends_refl buf : appends buf buf.
Proof. exists []. rewrite app_nil_r. split; [reflexivity | constructor]. Qed.

Lemma appends_trans b1 b2 b3 : appends b1 b2 -> appends b2 b3 -> appends b1 b3.
Proof.
  intros [s1 [H1 F1]] [s2 [H2 F2]]. exists (s1 ++ s2).
  rewrite H2, H1, app_assoc. split; [reflexivity | apply Forall_app; split; assumption].
Qed.

Lemma byte_of_range v : 0 <= byte_of v < 256.
Proof. unfold byte_of. rewrite land_255. apply Z.mod_pos_bound. lia. Qed.

Lemma Appending_seq f g : Appending f -> Appending g -> Appending (f ;; g).
Proof.
  intros Hf Hg buf buf' H.
  exact (act_seq_rel appends f g buf buf' appends_refl appends_trans Hf Hg H).
Qed.

Lemma Appending_ret : Appending act_ret.
Proof. intros buf buf' H. injection H as <-. apply appends_refl. Qed.

Lemma Appending_iter {A} (f : A -> act SMFBuffer) l :
  (forall x, Appending (f x)) -> Appending (act_iter f l).
Proof. intros Hf. induction l; simpl; auto using Appending_seq, Appending_ret. Qed.

Lemma Appending_writeByte b : Appending (writeByte b).
Proof.
  intros buf buf' H. injection H as <-. exists [byte_of b].
  split; [reflexivity | repeat constructor; apply byte_of_range].
Qed.

#[export] Hint Resolve Appending_seq Appending_ret Appending_iter Appending_writeByte : smf.

Lemma Appending_emit fuel b : Appending (varlen_emit fuel b).
Proof.
  revert b. induction fuel as [|fuel IH]; intros b; [intros ? ? H; discriminate|].
  cbn [varlen_emit]. destruct (b .& 128 =? 0); auto with smf.
Qed.

Lemma Appending_writeVarLen w v : Appending (writeVarLen w v).
Proof.
  intros buf buf' H. unfold writeVarLen, writeVarLen_fuel in H.
  destruct (varlen_pack w _ v _); [|discriminate]. exact (Appending_emit _ _ _ _ H).
Qed.

#[export] Hint Resolve Appending_emit Appending_writeVarLen : smf.

Lemma Appending_writeString w sMsg : Appending (writeString w sMsg).
Proof. unfold writeString. auto with smf. Qed.

Lemma Appending_writeWord v : Appending (writeWord v).
Proof. unfold writeWord. auto with smf. Qed.

Lemma Appending_writeDWord v : Appending (writeDWord v).
Proof. unfold writeDWord. auto with smf. Qed.

#[export] Hint Resolve Appending_writeString Appending_writeWord Appending_writeDWord : smf.

Lemma be_val_bytes n v acc :
  be_val_acc acc (be_bytes n v) = acc * 256 ^ Z.of_nat n + v mod 256 ^ Z.of_nat n.
Proof.
  revert acc. induction n as [|n IH]; intros acc; cbn [be_bytes be_val_acc].
  - rewrite Z.mod_1_r. lia.
  - rewrite IH, Nat2Z.inj_succ, Z.pow_succ_r by lia.
    rewrite (Z.mul_comm 256 (256 ^ Z.of_nat n)).
    rewrite Z.rem_mul_r by (try apply Z.pow_nonzero; lia). ring.
Qed.

Lemma be_bytes_range n v : Forall (fun b => 0 <= b < 256) (be_bytes n v).
Proof. induction n; constructor; [apply Z.mod_pos_bound; lia | assumption]. Qed.

Lemma be_bytes_length n v : length (be_bytes n v) = n.
Proof. induction n; cbn [be_bytes length]; lia. Qed.


Lemma append_assoc buf l1 l2 : append (append buf l1) l2 = append buf (l1 ++ l2).
Proof. unfold append. simpl. rewrite app_assoc. reflexivity. Qed.

Lemma append_nil buf : append buf [] = buf.
Proof. destruct buf. unfold append. simpl. rewrite app_nil_r. reflexivity. Qed.

Lemma byte_of_small b : 0 <= b < 256 -> byte_of b = b.
Proof. intros Hb. unfold byte_of. rewrite land_255. apply Z.mod_small, Hb. Qed.

(** Emitting a packed encoding: continuation bytes, then a last byte. *)
Lemma varlen_emit_le fuel init last buf :
  Forall (fun b => 128 <= b < 256) init -> 0 <= last < 128 ->
  (length init < fuel)%nat ->
  varlen_emit fuel (le_val (init ++ [last])) buf = Some (append buf (init ++ [last])).
Proof.
  intros Hinit Hlast. revert fuel buf.
  induction Hinit as [|b init Hb Hinit IH]; intros fuel buf Hf;
    (destruct fuel as [|fuel]; [simpl in Hf; lia|]); cbn [varlen_emit app le_val].
  - unfold act_seq, writeByte. rewrite Z.mul_0_r, Z.add_0_r, byte_of_small by lia.
    rewrite land_128, Z.mod_small by lia.
    replace (128 <=? last) with false by (symmetry; apply Z.leb_gt; lia). reflexivity.
  - assert (Hby : Forall (fun x => 0 <= x < 256) init)
      by (eapply Forall_impl; [|exact Hinit]; intros x Hx; cbv beta in *; lia).
    pose proof (le_val_bound init last Hby Hlast).
    unfold act_seq, writeByte. rewrite land_128, shiftr_8.
    unfold byte_of. rewrite land_255, le_cons_mod, le_cons_div by lia.
    replace (128 <=? b) with true by (symmetry; apply Z.leb_le; lia).
    change (128 =? 0) with false. cbv iota.
    rewrite IH by (simpl in Hf; lia). rewrite append_assoc. reflexivity.
Qed.

(** One turn of the first loop, on a buffer holding the wrapped value of
    the bytes packed so far, packs one more continuation byte: the buffer
    is always the little-endian value of the packed bytes, cut to
    [long_bits] bits and read signed. *)
Lemma varlen_pack_step w L g :
  8 <= w -> 0 <= g < 128 ->
  wrap_signed w (wrap_signed w (wrap_signed w (le_val L) <<< 8) .| 128 + g) =
  wrap_signed w (le_val ((128 + g) :: L)).
Proof.
  intros Hw Hg. rewrite shiftl_8.
  assert (Hm : 2 ^ w = 2 ^ (w - 8) * 256)
    by (change 256 with (2 ^ 8); rewrite <- Z.pow_add_r by lia; f_equal; lia).
  set (y := wrap_signed w (wrap_signed w (le_val L) * 256)).
  assert (Hy : y mod 2 ^ w = (le_val L * 256) mod 2 ^ w).
  { unfold y. rewrite wrap_signed_mod by lia.
    rewrite <- Z.mul_mod_idemp_l, wrap_signed_mod, Z.mul_mod_idemp_l by lia; reflexivity. }
  assert (Hy0 : y mod 256 = 0).
  { rewrite <- (Z.mod_mod_divide y (2 ^ w)) by (exists (2 ^ (w - 8)); exact Hm).
    rewrite Hy, Z.mod_mod_divide by (exists (2 ^ (w - 8)); exact Hm). apply Z.mod_mul. lia. }
  rewrite lor_128_low0 by exact Hy0. apply wrap_signed_congr; [lia|]. cbn [le_val].
  rewrite <- Z.add_assoc, <- Z.add_mod_idemp_l, Hy, Z.add_mod_idemp_l by lia. f_equal. lia.
Qed.

(** The first loop, whatever the width: the buffer ends as the wrapped
    little-endian value of the whole encoding. *)
Lemma varlen_pack_wrap w fuel value L :
  8 <= w -> 0 <= value -> (vlq_len value <= fuel)%nat ->
  varlen_pack w fuel value (wrap_signed w (le_val L)) =
  Some (wrap_signed w (le_val (map (fun g => 128 + g)
                                 (vlq_groups (pred (vlq_len value)) (value / 128)) ++ L))).
Proof.
  revert value L. induction fuel as [|fuel IH]; intros value L Hw Hv Hf;
    [pose proof (vlq_len_pos value); lia|].
  cbn [varlen_pack]. rewrite shiftr_7.
  destruct (Z.ltb_spec 0 (value / 128)) as [Hq|Hq].
  - assert (H128 : 128 <= value) by (apply Z.nlt_ge; intros Hc; rewrite Z.div_small in Hq; lia).
    pose proof (vlq_len_succ value H128) as Hlen.
    rewrite land_127, varlen_pack_step by (try apply Z.mod_pos_bound; lia).
    rewrite IH by (try apply Z.div_pos; lia).
    rewrite Hlen. cbn [pred].
    destruct (vlq_len (value / 128)) as [|m] eqn:Em; [pose proof (vlq_len_pos (value / 128)); lia|].
    cbn [pred]. rewrite vlq_groups_snoc, map_app, <- app_assoc. reflexivity.
  - assert (value < 128) by (apply Z.nle_gt; intros Hc; assert (1 <= value / 128)
      by (apply Z.div_le_lower_bound; lia); lia).
    rewrite vlq_len_small by lia. reflexivity.
Qed.

(** The range of [writeVarLen] is never empty: 0 is always encodable. *)
Lemma varlen_range_0 w : 8 <= w -> 0 <= 0 < 2 ^ (7 * (w / 8)).
Proof.
  intros Hw. split; [lia|]. apply Z.pow_pos_nonneg; [lia|].
  apply Z.mul_nonneg_nonneg; [lia | apply Z.div_pos; lia].
Qed.

Lemma varlen_emit_m1 fuel buf : varlen_emit fuel (-1) buf = None.
Proof.
  revert buf. induction fuel as [|fuel IH]; intros buf; [reflexivity|].
  cbn [varlen_emit]. unfold act_seq, writeByte. exact (IH _).
Qed.

Lemma varlen_fuel_S w : 8 <= w -> exists n, varlen_fuel w = S n.
Proof. intros Hw. unfold varlen_fuel. exists (pred (Z.to_nat w)). lia. Qed.

(** Fewer turns than groups: the first loop runs out. *)
Lemma varlen_pack_short w fuel value buffer :
  0 <= value -> (fuel < vlq_len value)%nat -> varlen_pack w fuel value buffer = None.
Proof.
  revert value buffer. induction fuel as [|fuel IH]; intros value buffer Hv Hf; [reflexivity|].
  assert (H128 : 128 <= value)
    by (apply Z.nlt_ge; intros Hc; rewrite vlq_len_small in Hf by lia; lia).
  rewrite (vlq_len_succ value H128) in Hf. cbn [varlen_pack]. rewrite shiftr_7.
  replace (0 <? value / 128) with true
    by (symmetry; apply Z.ltb_lt, Z.div_str_pos; lia).
  apply IH; [apply Z.div_pos |]; lia.
Qed.

(** The first loop logs one ["."] per continuation byte of the
    encoding, and nothing for a negative value. *)
Lemma varlen_pack_logs_dots fuel v :
  0 <= v -> (vlq_len v <= fuel)%nat ->
  varlen_pack_logs fuel v = repeat "."%string (pred (vlq_len v)).
Proof.
  revert v. induction fuel as [|fuel IH]; intros v Hv Hf; [pose proof (vlq_len_pos v); lia|].
  cbn [varlen_pack_logs]. rewrite shiftr_7.
  destruct (Z.ltb_spec 0 (v / 128)) as [Hq|Hq].
  - assert (H128 : 128 <= v) by (apply Z.nlt_ge; intros Hc; rewrite Z.div_small in Hq; lia).
    rewrite (vlq_len_succ v H128) in *. cbn [pred].
    rewrite IH by (try apply Z.div_pos; lia). pose proof (vlq_len_pos (v / 128)) as Hp.
    destruct (vlq_len (v / 128)) as [|m]; [lia | reflexivity].
  - assert (v < 128) by (apply Z.nle_gt; intros Hc; assert (1 <= v / 128)
      by (apply Z.div_le_lower_bound; lia); lia).
    rewrite vlq_len_small by lia. reflexivity.
Qed.

(** With enough turns, the first loop packs the wrapped encoding ... *)
Lemma varlen_pack_encode w fuel v :
  8 <= w -> 0 <= v -> (vlq_len v <= fuel)%nat ->
  varlen_pack w fuel v (v .& 127) = Some (wrap_signed w (le_val (vlq_encode v))).
Proof.
  intros Hw Hv Hf.
  replace (v .& 127) with (wrap_signed w (le_val [v mod 128])).
  - rewrite varlen_pack_wrap by assumption. reflexivity.
  - rewrite land_127. cbn [le_val]. rewrite Z.mul_0_r, Z.add_0_r.
    pose proof (Z.mod_pos_bound v 128 ltac:(lia)).
    assert (2 ^ 7 <= 2 ^ (w - 1)) by (apply Z.pow_le_mono_r; lia).
    apply wrap_signed_small; [lia | change (2 ^ 7) with 128 in *; lia].
Qed.

(** ... and [writeVarLen] emits it. *)
Lemma writeVarLen_fuel_emit w fuel v buf :
  8 <= w -> 0 <= v -> (vlq_len v <= fuel)%nat ->
  writeVarLen_fuel w fuel v buf = varlen_emit fuel (wrap_signed w (le_val (vlq_encode v))) buf.
Proof. intros Hw Hv Hf. unfold writeVarLen_fuel. rewrite varlen_pack_encode by assumption. reflexivity. Qed.

(** The emit loop on a negative buffer whose bytes all carry the
    continuation bit writes them, then stalls at [-1]. *)
Lemma varlen_emit_negative fuel bs buf :
  Forall (fun b => 128 <= b < 256) bs ->
  varlen_emit fuel (le_val bs - 256 ^ Z.of_nat (length bs)) buf = None.
Proof.
  intros Hbs. revert fuel buf. induction Hbs as [|b bs Hb Hbs IH]; intros fuel buf.
  - apply varlen_emit_m1.
  - destruct fuel as [|fuel]; [reflexivity|]. cbn [varlen_emit le_val length].
    rewrite Nat2Z.inj_succ, Z.pow_succ_r by lia.
    replace (b + 256 * le_val bs - 256 * 256 ^ Z.of_nat (length bs))
      with (b + 256 * (le_val bs - 256 ^ Z.of_nat (length bs))) by ring.
    unfold act_seq, writeByte. rewrite land_128, le_cons_mod by lia.
    replace (128 <=? b) with true by (symmetry; apply Z.leb_le; lia).
    change (128 =? 0) with false. cbv iota. rewrite shiftr_8, le_cons_div by lia. apply IH.
Qed.

(** The first [k] bytes of an encoding of more than [k] bytes are
    continuation bytes. *)
Lemma firstn_encode_cont (k : nat) (v : Z) :
  (k < vlq_len v)%nat ->
  Forall (fun b => 128 <= b < 256) (firstn k (vlq_encode v)) /\
  length (firstn k (vlq_encode v)) = k.
Proof.
  intros Hlen. destruct (vlq_encode_shape v) as (init & last & Henc & Hinit & Hlast).
  pose proof (vlq_encode_length v) as Hl. rewrite Henc, length_app in Hl. cbn [length] in Hl.
  rewrite Henc, firstn_app, (proj2 (Nat.sub_0_le k (length init))) by lia. cbn [firstn].
  rewrite app_nil_r, length_firstn. split; [exact (Forall_firstn _ _ _ Hinit) | lia].
Qed.

(** An encoding longer than the [long]: the buffer keeps its first
    [k] bytes, all continuation bytes, and reads negative. *)
Lemma wrap_encode_overflow (k : nat) (v : Z) :
  (1 <= k)%nat -> (k < vlq_len v)%nat ->
  wrap_signed (8 * Z.of_nat k) (le_val (vlq_encode v)) =
  le_val (firstn k (vlq_encode v)) - 256 ^ Z.of_nat k.
Proof.
  intros Hk Hlen. destruct (firstn_encode_cont k v Hlen) as [Hpre Hlk].
  rewrite <- (firstn_skipn k (vlq_encode v)) at 1. rewrite le_val_app, Hlk.
  rewrite (wrap_signed_congr _ _ (le_val (firstn k (vlq_encode v)))).
  - destruct (exists_last (l := firstn k (vlq_encode v))) as (pre & t & Ept);
      [intros He; rewrite He in Hlk; cbn in Hlk; lia|].
    rewrite Ept in Hpre, Hlk |- *. apply Forall_app in Hpre as [Hp Ht].
    pose proof (Forall_inv Ht) as Htb. cbv beta in Htb.
    assert (Hpb : Forall (fun b => 0 <= b < 256) pre)
      by (eapply Forall_impl; [|exact Hp]; intros b Hb; cbv beta in *; lia).
    pose proof (le_val_top pre t Hpb Htb) as Hb. rewrite Hlk in Hb.
    rewrite wrap_signed_high by lia. rewrite Z.pow_mul_r by lia. reflexivity.
  - lia.
  - rewrite Z.pow_mul_r by lia. change (2 ^ 8) with 256. rewrite Z.mul_comm, Z.mod_add; [reflexivity|].
    apply Z.pow_nonzero; lia.
Qed.

(** ** Theorems *)

(** [writeVarLen] appends the encoding of every value in its range. *)
(** A value inside the contract has at most [long_bits / 8] groups, so
    both loops have enough turns. *)
Lemma vlq_len_fuel long_bits v :
  8 <= long_bits -> 0 <= v < 2 ^ (7 * (long_bits / 8)) ->
  (vlq_len v <= Z.to_nat (long_bits / 8) <= varlen_fuel long_bits)%nat.
Proof.
  intros Hw Hv. unfold varlen_fuel.
  assert (H8 : 1 <= long_bits / 8) by (apply Z.div_le_lower_bound; lia).
  assert (H8' : 8 * (long_bits / 8) <= long_bits) by (apply Z.mul_div_le; lia).
  split; [|lia]. apply (vlq_len_le v (Z.to_nat (long_bits / 8))); [lia | lia |].
  rewrite Z2Nat.id by lia. lia.
Qed.

Lemma varlen_vlq (long_bits v : Z) (buf : SMFBuffer) :
  8 <= long_bits -> 0 <= v < 2 ^ (7 * (long_bits / 8)) ->
  writeVarLen long_bits v buf = Some (append buf (vlq_encode v)).
Proof.
  intros Hw Hv. unfold writeVarLen.
  assert (H8 : 1 <= long_bits / 8) by (apply Z.div_le_lower_bound; lia).
  assert (H8' : 8 * (long_bits / 8) <= long_bits) by (apply Z.mul_div_le; lia).
  pose proof (vlq_len_fuel long_bits v Hw Hv) as Hk.
  rewrite writeVarLen_fuel_emit by lia.
  destruct (vlq_encode_shape v) as (init & last & Henc & Hinit & Hlast).
  pose proof (vlq_encode_length v) as Hl. rewrite Henc, length_app in Hl. cbn [length] in Hl.
  assert (Hby : Forall (fun x => 0 <= x < 256) init)
    by (eapply Forall_impl; [|exact Hinit]; intros x Hx; cbv beta in *; lia).
  pose proof (le_val_bound init last Hby Hlast) as Hb.
  assert (2 ^ (8 * Z.of_nat (length init) + 7) <= 2 ^ (long_bits - 1))
    by (apply Z.pow_le_mono_r; lia).
  rewrite Henc, wrap_signed_small by lia. apply varlen_emit_le; [exact Hinit | exact Hlast | lia].
Qed.

(** C2 (refinement): on a [long] of [long_bits] bits, [writeVarLen]
    appends exactly the MIDI variable-length encoding of every value
    [0 <= v < 2^(7 * (long_bits / 8))] (below [2^56] on LP64, below
    [2^28] with a 32-bit [long]), and logs one ["."] per continuation
    byte of it. *)
Theorem writeVarLen_vlq (long_bits v : Z) (buf : SMFBuffer) :
  8 <= long_bits -> 0 <= v < 2 ^ (7 * (long_bits / 8)) ->
  writeVarLen long_bits v buf = Some (append buf (vlq_encode v)) /\
  writeVarLen_logs long_bits v = repeat "."%string (pred (length (vlq_encode v))).
Proof.
  intros Hw Hv. split; [exact (varlen_vlq long_bits v buf Hw Hv)|].
  unfold writeVarLen_logs. rewrite vlq_encode_length.
  pose proof (vlq_len_fuel long_bits v Hw Hv). apply varlen_pack_logs_dots; lia.
Qed.

(** Witness: the largest legal delta, [0x0FFFFFFF], on a 32-bit
    [long]: the spec's four bytes [FF FF FF 7F]. *)
Lemma writeVarLen_vlq_witness :
  (writeVarLen 32 (2 ^ 28 - 1) empty_buffer = Some (append empty_buffer (vlq_encode (2 ^ 28 - 1))) /\
   writeVarLen_logs 32 (2 ^ 28 - 1) = repeat "."%string (pred (length (vlq_encode (2 ^ 28 - 1))))) /\
  vlq_encode (2 ^ 28 - 1) = [255; 255; 255; 127].
Proof. split; [apply writeVarLen_vlq; solve_bounds | reflexivity]. Defined.

(** C3 (round trip): whatever the buffer held before, reading back the
    bytes [writeVarLen] appended, at the offset where they start, gives the
    value and the number of bytes written. *)
Theorem writeVarLen_roundtrip (long_bits v : Z) (buf : SMFBuffer) :
  8 <= long_bits -> 0 <= v < 2 ^ (7 * (long_bits / 8)) ->
  exists buf', writeVarLen long_bits v buf = Some buf' /\
    vlq_decode (m_buffer buf') (length (m_buffer buf)) =
      Some (v, (length (m_buffer buf') - length (m_buffer buf))%nat).
Proof.
  intros Hw Hv. exists (append buf (vlq_encode v)).
  split; [apply varlen_vlq; assumption|].
  unfold append; cbn [m_buffer]. rewrite length_app, Nat.add_sub_swap, Nat.sub_diag by lia.
  rewrite <- (app_nil_r (vlq_encode v)), app_assoc, <- app_assoc.
  rewrite vlq_roundtrip by lia. rewrite app_nil_r. reflexivity.
Qed.

(** Witness: the canonical value 0x3FFF written on LP64 after a
    status byte. *)
Lemma writeVarLen_roundtrip_witness :
  exists buf', writeVarLen 64 16383 (mkSMFBuffer [144]) = Some buf' /\
    vlq_decode (m_buffer buf') (length (m_buffer (mkSMFBuffer [144]))) =
      Some (16383, (length (m_buffer buf') - length (m_buffer (mkSMFBuffer [144%Z])))%nat).
Proof.
  apply writeVarLen_roundtrip; [lia | split; [lia | reflexivity]].
Defined.

(** A negative value is written as its low 7 bits. *)
Lemma varlen_negative (long_bits v : Z) (buf : SMFBuffer) :
  8 <= long_bits -> v < 0 ->
  writeVarLen long_bits v buf = Some (append buf [v mod 128]).
Proof.
  intros Hw Hv. destruct (varlen_fuel_S long_bits Hw) as [n Hn].
  unfold writeVarLen, writeVarLen_fuel. rewrite Hn. cbn [varlen_pack].
  replace (0 <? v >>> 7) with false
    by (symmetry; apply Z.ltb_ge; rewrite shiftr_7; apply Z.lt_le_incl, Z.div_lt_upper_bound; lia).
  cbn [varlen_emit]. unfold act_seq, writeByte, byte_of.
  pose proof (Z.mod_pos_bound v 128 ltac:(lia)).
  rewrite !land_127, land_128, land_255, !(Z.mod_small (v mod 128)) by lia.
  replace (128 <=? v mod 128) with false by (symmetry; apply Z.leb_gt; lia). reflexivity.
Qed.

(** A value of more than [k] groups never comes out of [writeVarLen]
    on an [8k]-bit [long]. *)
Lemma varlen_overflow (k : nat) (v : Z) (fuel : nat) (buf : SMFBuffer) :
  (1 <= k)%nat -> 2 ^ (7 * Z.of_nat k) <= v ->
  writeVarLen_fuel (8 * Z.of_nat k) fuel v buf = None.
Proof.
  intros Hk Hv. assert (Hlen : (k < vlq_len v)%nat).
  { apply Nat.nle_gt. intros Hle. apply (vlq_len_le v k) in Hle; lia. }
  destruct (Nat.le_gt_cases (vlq_len v) fuel) as [Hf|Hf].
  - rewrite writeVarLen_fuel_emit, wrap_encode_overflow by lia.
    destruct (firstn_encode_cont k v Hlen) as [Hc Hlk].
    rewrite <- Hlk at 2. exact (varlen_emit_negative _ _ _ Hc).
  - unfold writeVarLen_fuel. rewrite varlen_pack_short by lia. reflexivity.
Qed.

(** C4 (termination): on a [long] of [8k] bits, [writeVarLen] never
    returns for a value of more than [k] groups of 7 bits
    ([v >= 2^(7k)]: [0x10000000] and above with a 32-bit [long]), whatever
    the number of iterations allowed.  The packed buffer overflows: it
    keeps [k] continuation bytes and reads negative, and [buffer >>= 8]
    then reaches [-1], whose bit 7 is set, and stays there. *)
Theorem writeVarLen_overflow_diverges (k : nat) (v : Z) (fuel : nat) (buf : SMFBuffer) :
  (1 <= k)%nat -> 2 ^ (7 * Z.of_nat k) <= v ->
  writeVarLen_fuel (8 * Z.of_nat k) fuel v buf = None.
Proof. apply varlen_overflow. Qed.

(** Witness: [0x10000000] with a 32-bit [long]. *)
Lemma writeVarLen_overflow_diverges_witness :
  (1 <= 4)%nat /\ 2 ^ (7 * Z.of_nat 4) <= 2 ^ 28 /\
  writeVarLen_fuel (8 * Z.of_nat 4) 1000 (2 ^ 28) empty_buffer = None.
Proof.
  split; [lia|]. split; [reflexivity|]. apply writeVarLen_overflow_diverges; [lia | reflexivity].
Defined.

(** C1 (refinement): the complete behaviour of [writeVarLen] on a
    [long] of [8k] bits ([k = 4] or [8] in practice): every value appends
    the bytes [writeVarLen_outcome] gives, and the call never returns
    exactly when that is [None]. *)
Theorem writeVarLen_refines (k : nat) (v : Z) (buf : SMFBuffer) :
  (1 <= k)%nat ->
  writeVarLen (8 * Z.of_nat k) v buf = option_map (append buf) (writeVarLen_outcome k v).
Proof.
  intros Hk. unfold writeVarLen_outcome.
  destruct (Z.ltb_spec v 0) as [Hneg|Hpos]; [apply varlen_negative; lia|].
  destruct (Z.ltb_spec v (2 ^ (7 * Z.of_nat k))) as [Hsmall|Hbig].
  - apply varlen_vlq; [lia|]. rewrite (Z.mul_comm 8 (Z.of_nat k)), Z.div_mul by lia. lia.
  - apply varlen_overflow; assumption.
Qed.

(** Witness: the three outcomes with a 32-bit [long]. *)
Lemma writeVarLen_refines_witness :
  (1 <= 4)%nat /\
  writeVarLen (8 * Z.of_nat 4) (2 ^ 28 - 1) empty_buffer =
    option_map (append empty_buffer) (writeVarLen_outcome 4 (2 ^ 28 - 1)) /\
  writeVarLen_outcome 4 (2 ^ 28 - 1) = Some [255; 255; 255; 127] /\
  writeVarLen_outcome 4 (2 ^ 28) = None /\
  writeVarLen_outcome 4 (-1) = Some [127].
Proof.
  split; [lia|]. split; [apply writeVarLen_refines; lia|]. repeat split; reflexivity.
Defined.

Lemma writeWord_bytes v buf : writeWord v buf = Some (append buf (be_bytes 2 v)).
Proof.
  unfold writeWord, act_seq, writeByte, byte_of.
  rewrite !land_255, shiftr_8, append_assoc. cbn. rewrite Z.div_1_r. reflexivity.
Qed.

Lemma writeDWord_bytes v buf : writeDWord v buf = Some (append buf (be_bytes 4 v)).
Proof.
  unfold writeDWord, act_seq, writeByte, byte_of.
  rewrite !land_255, shiftr_8, !Z.shiftr_div_pow2 by lia.
  rewrite !append_assoc. cbn. rewrite Z.div_1_r. reflexivity.
Qed.

(** C6 (round trip, bounds): [writeDWord] appends four bytes, high byte
    first, whose big-endian value is [v] modulo [2^32]; [writeWord]
    appends two, whose value is [v] modulo [2^16]. *)
Theorem writeWord_writeDWord_be (v : Z) (buf : SMFBuffer) :
  (exists bs, writeWord v buf = Some (append buf bs) /\ length bs = 2%nat /\
     Forall (fun b => 0 <= b < 256) bs /\ be_val_acc 0 bs = v mod 2 ^ 16) /\
  (exists bs, writeDWord v buf = Some (append buf bs) /\ length bs = 4%nat /\
     Forall (fun b => 0 <= b < 256) bs /\ be_val_acc 0 bs = v mod 2 ^ 32).
Proof.
  split; [exists (be_bytes 2 v) | exists (be_bytes 4 v)];
    rewrite ?writeWord_bytes, ?writeDWord_bytes, be_val_bytes, be_bytes_length;
    (split; [reflexivity | split; [reflexivity | split; [apply be_bytes_range | reflexivity]]]).
Qed.

Lemma act_iter_writeByte {A} (f : A -> Z) l buf :
  act_iter (fun x => writeByte (f x)) l buf = Some (append buf (map (fun x => byte_of (f x)) l)).
Proof.
  revert buf. induction l as [|x l IH]; intros buf; cbn [act_iter map].
  - rewrite append_nil. reflexivity.
  - unfold act_seq at 1, writeByte at 1. rewrite IH, append_assoc. reflexivity.
Qed.

Lemma byte_of_char_value c : byte_of (char_value c) = Z.of_nat (nat_of_ascii c).
Proof.
  unfold byte_of, char_value. rewrite land_255.
  pose proof (Ascii.nat_ascii_bounded c).
  destruct (Z.ltb_spec (Z.of_nat (nat_of_ascii c)) 128).
  - apply Z.mod_small. lia.
  - symmetry. apply Z.mod_unique with (-1); lia.
Qed.

(** [writeString] appends the variable-length length of the string, then
    its characters as unsigned bytes. *)
Lemma writeString_bytes w sMsg buf :
  8 <= w -> Z.of_nat (String.length sMsg) < 2 ^ (7 * (w / 8)) ->
  writeString w sMsg buf =
  Some (append buf (vlq_encode (Z.of_nat (String.length sMsg)) ++ string_bytes sMsg)).
Proof.
  intros Hw Hl. unfold writeString.
  rewrite (act_seq_Some _ _ _ _ (varlen_vlq w (Z.of_nat (String.length sMsg)) buf Hw ltac:(lia))).
  rewrite act_iter_writeByte, append_assoc. unfold string_bytes.
  f_equal. f_equal. f_equal. apply map_ext. intros c. apply byte_of_char_value.
Qed.

(** One write inside the contract appends what the contract says. *)
Lemma run_write_contract w op buf :
  8 <= w -> in_contract w op = true -> run_write w op buf = Some (append buf (sink_contract op)).
Proof.
  intros Hw Hc. destruct op as [v|v|v|v|sMsg]; cbn [run_write sink_contract in_contract] in *.
  - unfold writeByte, byte_of. rewrite land_255. reflexivity.
  - apply writeWord_bytes.
  - apply writeDWord_bytes.
  - apply varlen_vlq; [exact Hw | lia].
  - apply writeString_bytes; [exact Hw | lia].
Qed.

(** C7 (refinement): [SMFBuffer] implements the byte-sink contract of
    the spec: on a [long] of at least 8 bits, any sequence of write calls
    inside the contract appends exactly the concatenation of the bytes
    the contract gives for each call, in order. *)
Theorem run_writes_refine (long_bits : Z) (ops : list SMFWrite) (buf : SMFBuffer) :
  8 <= long_bits -> forallb (in_contract long_bits) ops = true ->
  act_iter (run_write long_bits) ops buf = Some (append buf (flat_map sink_contract ops)).
Proof.
  intros Hw. revert buf. induction ops as [|op ops IH]; intros buf Hc; cbn [act_iter flat_map].
  - rewrite append_nil. reflexivity.
  - apply andb_prop in Hc as [Hop Hops].
    rewrite (act_seq_Some _ _ _ _ (run_write_contract _ _ buf Hw Hop)), IH by exact Hops.
    rewrite append_assoc. reflexivity.
Qed.

(** Witness: a byte, a word, a double word, a quantity and a string on a
    32-bit [long]. *)
Lemma run_writes_refine_witness :
  let ops := [WriteByte 300; WriteWord 258; WriteDWord 1; WriteVarLen 200;
              WriteString "ab"%string] in
  act_iter (run_write 32) ops empty_buffer =
    Some (append empty_buffer (flat_map sink_contract ops)).
Proof. intros ops. apply run_writes_refine; [lia | vm_compute; reflexivity]. Defined.
End Buffer.
