(* ===== verification/VarLenMachine.v ===== *)
(** * [writeVarLen] as a state machine

    The two loops of [SMFBuffer::writeVarLen] (SMFEvent.cpp) as a
    small-step transition system on the loop state and the buffer,
    without fuel: [Packing value buffer] is the first loop, [Emitting
    buffer] the second, [Finished] the return.  The lemma
    [machine_adequate] relates it to the fuelled model of [SMFBuffer] (a
    run of the machine ends exactly when some fuel makes the fuelled model
    return); the theorem shows what an overflowing run does: it writes
    the first bytes of the encoding, then [0xFF] at every turn, so the
    buffer grows without bound. *)

From Stdlib Require Import ZArith List Lia.
From S2P Require Import Prelude VarLen SMFBuffer.
Import ListNotations VarLenSpec Buffer.
Open Scope Z_scope.
Open Scope smf_scope.

Module Machine.

(** The control points of [writeVarLen]. *)
Inductive VState :=
| Packing (value buffer : Z)
| Emitting (buffer : Z)
| Finished.

Section Steps.
(** The number of bits of C's [long]. *)
Variable long_bits : Z.

(** One iteration of either loop, as the C++ code runs it. *)
Inductive vstep : VState * SMFBuffer -> VState * SMFBuffer -> Prop :=
| vs_pack value buffer buf :
    0 < value >>> 7 ->
    vstep (Packing value buffer, buf)
          (Packing (value >>> 7)
             (wrap_signed long_bits
                (wrap_signed long_bits (buffer <<< 8) .| 128 + ((value >>> 7) .& 127))), buf)
| vs_pack_exit value buffer buf :
    value >>> 7 <= 0 ->
    vstep (Packing value buffer, buf) (Emitting buffer, buf)
| vs_emit_more buffer buf :
    buffer .& 128 <> 0 ->
    vstep (Emitting buffer, buf) (Emitting (buffer >>> 8), append buf [byte_of buffer])
| vs_emit_last buffer buf :
    buffer .& 128 = 0 ->
    vstep (Emitting buffer, buf) (Finished, append buf [byte_of buffer]).

(** The state on entry: [buffer = value & 0x7f]. *)
Definition vinit (value : Z) (buf : SMFBuffer) : VState * SMFBuffer :=
  (Packing value (value .& 127), buf).
End Steps.

(** ** Lemmas *)

Lemma varlen_pack_mono w f1 f2 value buffer r :
  (f1 <= f2)%nat -> varlen_pack w f1 value buffer = Some r -> varlen_pack w f2 value buffer = Some r.
Proof.
  revert f2 value buffer. induction f1 as [|f1 IH]; intros f2 value buffer Hf H; [discriminate|].
  destruct f2 as [|f2]; [lia|]. cbn [varlen_pack] in *.
  destruct (0 <? value >>> 7); [apply IH; [lia | exact H] | exact H].
Qed.

Lemma varlen_emit_mono f1 f2 buffer buf buf' :
  (f1 <= f2)%nat -> varlen_emit f1 buffer buf = Some buf' -> varlen_emit f2 buffer buf = Some buf'.
Proof.
  revert f2 buffer buf. induction f1 as [|f1 IH]; intros f2 buffer buf Hf H; [discriminate|].
  destruct f2 as [|f2]; [lia|]. cbn [varlen_emit] in *. unfold act_seq in *.
  destruct (buffer .& 128 =? 0); [exact H | apply IH; [lia | exact H]].
Qed.

(** A run of the first loop is a run of the machine ... *)
Lemma pack_star w fuel value buffer r buf :
  varlen_pack w fuel value buffer = Some r ->
  star (vstep w) (Packing value buffer, buf) (Emitting r, buf).
Proof.
  revert value buffer. induction fuel as [|fuel IH]; intros value buffer H; [discriminate|].
  cbn [varlen_pack] in H. destruct (Z.ltb_spec 0 (value >>> 7)) as [Hlt|Hge].
  - eapply star_step; [apply vs_pack; exact Hlt | apply IH; exact H].
  - injection H as <-. apply star_one, vs_pack_exit. exact Hge.
Qed.

(** ... and so is a run of the second loop. *)
Lemma emit_star w fuel buffer buf buf' :
  varlen_emit fuel buffer buf = Some buf' ->
  star (vstep w) (Emitting buffer, buf) (Finished, buf').
Proof.
  revert buffer buf. induction fuel as [|fuel IH]; intros buffer buf H; [discriminate|].
  cbn [varlen_emit] in H. unfold act_seq, writeByte in H.
  destruct (Z.eqb_spec (buffer .& 128) 0) as [H0|H0].
  - injection H as <-. apply star_one, vs_emit_last. exact H0.
  - eapply star_step; [apply vs_emit_more; exact H0 | apply IH; exact H].
Qed.

(** A run of the machine that returns from the second loop is a run of
    the fuelled loop for some fuel ... *)
Lemma star_emit w s t :
  star (vstep w) s t ->
  forall buffer buf buf', s = (Emitting buffer, buf) -> t = (Finished, buf') ->
  exists fuel, varlen_emit fuel buffer buf = Some buf'.
Proof.
  induction 1 as [a|a b c Hab Hbc IH]; intros buffer buf buf' -> Ht; [discriminate|].
  inversion Hab as [| |buffer0 buf0 H0 E1 E2|buffer0 buf0 H0 E1 E2]; subst.
  - destruct (IH _ _ _ eq_refl eq_refl) as [fuel Hf]. exists (S fuel). cbn [varlen_emit].
    unfold act_seq, writeByte. apply Z.eqb_neq in H0. rewrite H0. exact Hf.
  - inversion Hbc as [|? ? ? Hs _]; [|inversion Hs].
    exists 1%nat. cbn [varlen_emit]. unfold act_seq, writeByte. rewrite H0. reflexivity.
Qed.

(** ... and a run from the first loop goes through the second. *)
Lemma star_pack w s t :
  star (vstep w) s t ->
  forall value buffer buf buf', s = (Packing value buffer, buf) -> t = (Finished, buf') ->
  exists fuel r, varlen_pack w fuel value buffer = Some r /\
                 star (vstep w) (Emitting r, buf) (Finished, buf').
Proof.
  induction 1 as [a|a b c Hab Hbc IH]; intros value buffer buf buf' -> Ht; [discriminate|].
  subst c. inversion Hab as [value0 buffer0 buf0 H0 E1 E2|value0 buffer0 buf0 H0 E1 E2| |]; subst.
  - destruct (IH _ _ _ _ eq_refl eq_refl) as (fuel & r & Hp & Hs). exists (S fuel), r.
    split; [|exact Hs]. cbn [varlen_pack]. apply Z.ltb_lt in H0. rewrite H0. exact Hp.
  - exists 1%nat, buffer. split; [|exact Hbc]. cbn [varlen_pack].
    replace (0 <? value >>> 7) with false by (symmetry; apply Z.ltb_ge; lia). reflexivity.
Qed.

(** The fuelled model and the machine agree. *)
Lemma machine_adequate (long_bits value : Z) (buf buf' : SMFBuffer) :
  (exists fuel, writeVarLen_fuel long_bits fuel value buf = Some buf') <->
  star (vstep long_bits) (vinit value buf) (Finished, buf').
Proof.
  unfold vinit, writeVarLen_fuel. split.
  - intros [fuel Hf]. destruct (varlen_pack long_bits fuel value (value .& 127)) as [r|] eqn:Hp;
      [|discriminate].
    eapply star_trans; [apply (pack_star _ _ _ _ _ _ Hp) | apply (emit_star _ _ _ _ _ Hf)].
  - intros Hs. destruct (star_pack _ _ _ Hs _ _ _ _ eq_refl eq_refl) as (f1 & r & Hp & He).
    destruct (star_emit _ _ _ He _ _ _ eq_refl eq_refl) as [f2 Hf2].
    exists (Nat.max f1 f2).
    rewrite (varlen_pack_mono _ f1 (Nat.max f1 f2) _ _ _ (Nat.le_max_l f1 f2) Hp).
    exact (varlen_emit_mono f2 _ _ _ _ (Nat.le_max_r f1 f2) Hf2).
Qed.

(** The emit loop on a negative buffer whose bytes all carry the
    continuation bit writes them and reaches [-1] ... *)
Lemma emit_negative_star w bs buf :
  Forall (fun b => 128 <= b < 256) bs ->
  star (vstep w) (Emitting (le_val bs - 256 ^ Z.of_nat (length bs)), buf)
                 (Emitting (-1), append buf bs).
Proof.
  intros Hbs. revert buf. induction Hbs as [|b bs Hb Hbs IH]; intros buf.
  - rewrite append_nil. apply star_refl.
  - cbn [le_val length]. rewrite Nat2Z.inj_succ, Z.pow_succ_r by lia.
    replace (b + 256 * le_val bs - 256 * 256 ^ Z.of_nat (length bs))
      with (b + 256 * (le_val bs - 256 ^ Z.of_nat (length bs))) by ring.
    eapply star_step.
    + apply vs_emit_more. rewrite land_128, le_cons_mod by lia.
      replace (128 <=? b) with true by (symmetry; apply Z.leb_le; lia). discriminate.
    + unfold byte_of. rewrite land_255, le_cons_mod, shiftr_8, le_cons_div by lia.
      replace (append buf (b :: bs)) with (append (append buf [b]) bs)
        by (rewrite append_assoc; reflexivity).
      apply IH.
Qed.

(** ... where it writes [0xFF] at every turn. *)
Lemma emit_m1_star w n buf :
  star (vstep w) (Emitting (-1), buf) (Emitting (-1), append buf (repeat 255 n)).
Proof.
  revert buf. induction n as [|n IH]; intros buf; [rewrite append_nil; apply star_refl|].
  eapply star_step; [apply vs_emit_more; discriminate|].
  replace (append buf (repeat 255 (S n))) with (append (append buf [byte_of (-1)]) (repeat 255 n))
    by (rewrite append_assoc; reflexivity).
  apply IH.
Qed.

(** ** Theorems *)

(** C5 (liveness): on a [long] of [8k] bits, the run of [writeVarLen] on
    a value [v >= 2^(7k)] does not merely hang: it keeps pushing bytes.
    For every [n] it reaches a state of the emit loop, at [buffer = -1],
    whose vector holds the first [k] bytes of the encoding of [v] followed
    by [n] bytes [0xFF], so [m_buffer] grows without bound until memory
    runs out. *)
Theorem writeVarLen_overflow_grows (k : nat) (v : Z) (buf : SMFBuffer) (n : nat) :
  (1 <= k)%nat -> 2 ^ (7 * Z.of_nat k) <= v ->
  star (vstep (8 * Z.of_nat k)) (vinit v buf)
       (Emitting (-1), append buf (firstn k (vlq_encode v) ++ repeat 255 n)).
Proof.
  intros Hk Hv. assert (Hlen : (k < vlq_len v)%nat).
  { apply Nat.nle_gt. intros Hle. apply (vlq_len_le v k) in Hle; lia. }
  assert (Hv0 : 0 <= v) by (pose proof (Z.pow_nonneg 2 (7 * Z.of_nat k)); lia).
  destruct (firstn_encode_cont k v Hlen) as [Hc Hlk].
  unfold vinit. eapply star_trans.
  - apply (pack_star _ (vlq_len v)). apply varlen_pack_encode; [lia | exact Hv0 | lia].
  - rewrite wrap_encode_overflow by lia.
    replace (256 ^ Z.of_nat k) with (256 ^ Z.of_nat (length (firstn k (vlq_encode v))))
      by (rewrite Hlk; reflexivity).
    eapply star_trans; [apply emit_negative_star; exact Hc|].
    rewrite <- append_assoc. apply emit_m1_star.
Qed.

(** Witness: [0x10000000] on a 32-bit [long] writes [81 80 80 80], then
    [FF] for ever. *)
Lemma writeVarLen_overflow_grows_witness :
  (1 <= 4)%nat /\ 2 ^ (7 * Z.of_nat 4) <= 2 ^ 28 /\
  star (vstep (8 * Z.of_nat 4)) (vinit (2 ^ 28) empty_buffer)
       (Emitting (-1), append empty_buffer ([129; 128; 128; 128] ++ repeat 255 3)).
Proof.
  split; [lia|]. split; [reflexivity|].
  exact (writeVarLen_overflow_grows 4 (2 ^ 28) empty_buffer 3 ltac:(lia) ltac:(reflexivity)).
Defined.
End Machine.
