(* ===== verification/SMFEvent.v ===== *)
(** * The MIDI events of SMFEvent.cpp

    The class hierarchy [SMFEvent] / [SMFTrackNameMetaEvent] /
    [SMFNoteOnEvent] / [SMFNoteOffEvent] as one inductive type whose
    constructors carry the fields of each class ([m_nTicks] and
    [m_nDeltaTime] of the base class first).  The C++ constructors return
    the event and the messages they [errorLog]; [setDeltaTime] is the
    track writer's assignment of [m_nDeltaTime] (SMF.cpp, modelled from
    the spec); [getBuffer] runs the writes of [SMFBuffer] on a fresh
    buffer. *)

From Stdlib Require Import ZArith String Ascii List Lia.
From S2P Require Import Prelude VarLen SMFBuffer.
Import ListNotations VarLenSpec Buffer.
Open Scope Z_scope.
Open Scope smf_scope.

Module Event.

(** Status and meta-event type bytes (declared in SMFEvent.h). *)
Definition NOTE_OFF : Z := 128.
Definition NOTE_ON : Z := 144.
Definition TRACK_NAME : Z := 3.

Inductive SMFEvent :=
| SMFTrackNameMetaEvent (m_nTicks m_nDeltaTime : Z) (m_sTrackName : string)
| SMFNoteOnEvent (m_nTicks m_nDeltaTime : Z) (m_nChannel m_nPitch m_nVelocity : Z)
| SMFNoteOffEvent (m_nTicks m_nDeltaTime : Z) (m_nChannel m_nPitch m_nVelocity : Z).

Definition ticks (e : SMFEvent) : Z :=
  match e with
  | SMFTrackNameMetaEvent t _ _ | SMFNoteOnEvent t _ _ _ _ | SMFNoteOffEvent t _ _ _ _ => t
  end.

Definition deltaTime (e : SMFEvent) : Z :=
  match e with
  | SMFTrackNameMetaEvent _ d _ | SMFNoteOnEvent _ d _ _ _ | SMFNoteOffEvent _ d _ _ _ => d
  end.

(** A message passed to [errorLog]: its text and the value appended to it. *)
Record LogMsg := mkLogMsg { log_text : string; log_value : Z }.

(** [SMFEvent::SMFEvent]: [m_nDeltaTime( -1 )], "unassigned". *)
Definition UNASSIGNED_DELTA : Z := -1.

(** [SMFTrackNameMetaEvent::SMFTrackNameMetaEvent]: the delta is forced
    to 0, "it's always at the start of the song".  Like the note
    constructors, it takes [unsigned nTicks]: the tick is stored modulo
    [2^32] ([to_unsigned]). *)
Definition newTrackNameMetaEvent (sTrackName : string) (nTicks : Z) : SMFEvent :=
  SMFTrackNameMetaEvent (to_unsigned nTicks) 0 sTrackName.

(** [SMFNoteOnEvent::SMFNoteOnEvent]: the channel is checked, logged, and
    kept. *)
Definition newNoteOnEvent (nTicks nChannel nPitch nVelocity : Z) : SMFEvent * list LogMsg :=
  (SMFNoteOnEvent (to_unsigned nTicks) UNASSIGNED_DELTA nChannel nPitch nVelocity,
   if 16 <=? nChannel
   then [mkLogMsg "[SMFNoteOnEvent] nChannel >= 16! nChannel=" nChannel] else []).

(** [SMFNoteOffEvent::SMFNoteOffEvent]. *)
Definition newNoteOffEvent (nTicks nChannel nPitch nVelocity : Z) : SMFEvent * list LogMsg :=
  (SMFNoteOffEvent (to_unsigned nTicks) UNASSIGNED_DELTA nChannel nPitch nVelocity,
   if 16 <=? nChannel
   then [mkLogMsg "[SMFNoteOffEvent] nChannel >= 16! nChannel=" nChannel] else []).

(** The writer's assignment of [m_nDeltaTime] (SMF.cpp, spec section
    4.4): a note gets the delta it is given, a track name keeps its 0. *)
Definition setDeltaTime (e : SMFEvent) (d : Z) : SMFEvent :=
  match e with
  | SMFTrackNameMetaEvent t _ name => SMFTrackNameMetaEvent t 0 name
  | SMFNoteOnEvent t _ ch p v => SMFNoteOnEvent t d ch p v
  | SMFNoteOffEvent t _ ch p v => SMFNoteOffEvent t d ch p v
  end.

(** [SMFTrackNameMetaEvent::getBuffer]: delta, 0xFF, [TRACK_NAME], name. *)
Definition trackName_writes (long_bits d : Z) (name : string) : act SMFBuffer :=
  writeVarLen long_bits d ;; writeByte 255 ;; writeByte TRACK_NAME ;;
  writeString long_bits name.

(** [SMFNoteOnEvent::getBuffer]: delta, [NOTE_ON + m_nChannel], pitch,
    velocity. *)
Definition noteOn_writes (long_bits d ch pitch vel : Z) : act SMFBuffer :=
  writeVarLen long_bits d ;; writeByte (NOTE_ON + ch) ;; writeByte pitch ;;
  writeByte vel.

(** [SMFNoteOffEvent::getBuffer]: delta, [NOTE_OFF + m_nChannel], pitch,
    velocity. *)
Definition noteOff_writes (long_bits d ch pitch vel : Z) : act SMFBuffer :=
  writeVarLen long_bits d ;; writeByte (NOTE_OFF + ch) ;; writeByte pitch ;;
  writeByte vel.

(** The virtual dispatch of [getBuffer]. *)
Definition serialize (long_bits : Z) (e : SMFEvent) : act SMFBuffer :=
  match e with
  | SMFTrackNameMetaEvent _ d name => trackName_writes long_bits d name
  | SMFNoteOnEvent _ d ch pitch vel => noteOn_writes long_bits d ch pitch vel
  | SMFNoteOffEvent _ d ch pitch vel => noteOff_writes long_bits d ch pitch vel
  end.

(** [std::vector<char> getBuffer()]: a fresh [SMFBuffer buf], the writes,
    [return buf.getBuffer()]. *)
Definition getBuffer (long_bits : Z) (e : SMFEvent) : option (list Z) :=
  option_map m_buffer (serialize long_bits e empty_buffer).

(** ** Lemmas *)

Lemma writeBytes3 a b c buf :
  (writeByte a ;; writeByte b ;; writeByte c) buf =
  Some (append buf [byte_of a; byte_of b; byte_of c]).
Proof. unfold act_seq, writeByte. rewrite !append_assoc. reflexivity. Qed.

Lemma writeBytes2_then a b f buf :
  (writeByte a ;; writeByte b ;; f) buf = f (append buf [byte_of a; byte_of b]).
Proof. unfold act_seq, writeByte. rewrite !append_assoc. reflexivity. Qed.

(** The bytes of a note event with a delta that [writeVarLen] encodes. *)
Lemma note_bytes w d status pitch vel :
  8 <= w -> 0 <= d < 2 ^ (7 * (w / 8)) ->
  option_map m_buffer ((writeVarLen w d ;; writeByte status ;; writeByte pitch ;;
                        writeByte vel) empty_buffer) =
  Some (vlq_encode d ++ [byte_of status; byte_of pitch; byte_of vel]).
Proof.
  intros Hw Hd. rewrite (act_seq_Some _ _ _ _ (varlen_vlq w d empty_buffer Hw Hd)).
  rewrite writeBytes3, append_assoc. reflexivity.
Qed.


(** The bytes of a track-name event with a delta that [writeVarLen]
    encodes. *)
Lemma trackName_bytes w t d name :
  8 <= w -> 0 <= d < 2 ^ (7 * (w / 8)) ->
  Z.of_nat (String.length name) < 2 ^ (7 * (w / 8)) ->
  getBuffer w (SMFTrackNameMetaEvent t d name) =
  Some (vlq_encode d ++ [255; TRACK_NAME] ++ vlq_encode (Z.of_nat (String.length name))
        ++ string_bytes name).
Proof.
  intros Hw Hd Hl. unfold getBuffer, serialize, trackName_writes.
  rewrite (act_seq_Some _ _ _ _ (varlen_vlq w d empty_buffer Hw Hd)).
  rewrite writeBytes2_then, writeString_bytes by assumption.
  cbn [option_map append m_buffer empty_buffer app]. rewrite <- app_assoc. reflexivity.
Qed.

(** Every event serializes to values in [0, 256). *)
Lemma getBuffer_bytes w e bs :
  getBuffer w e = Some bs -> Forall (fun b => 0 <= b < 256) bs.
Proof.
  unfold getBuffer. destruct (serialize w e empty_buffer) as [buf|] eqn:E; [|discriminate].
  intros H. injection H as <-.
  assert (Hs : Appending (serialize w e))
    by (destruct e; unfold serialize, trackName_writes, noteOn_writes, noteOff_writes;
        repeat apply Appending_seq; auto with smf).
  destruct (Hs _ _ E) as [sfx [Hb Hf]]. rewrite Hb. exact Hf.
Qed.

(** ** Theorems *)

(** C8 (functional): a note event with an encodable delta, a channel
    in [0, 15] and 7-bit pitch and velocity serializes to its delta, the
    status byte ([0x90 + channel] for a note-on, [0x80 + channel] for a
    note-off), the pitch and the velocity. *)
Theorem getBuffer_note (long_bits t d ch pitch vel : Z) :
  8 <= long_bits -> 0 <= d < 2 ^ (7 * (long_bits / 8)) ->
  0 <= ch < 16 -> 0 <= pitch < 128 -> 0 <= vel < 128 ->
  getBuffer long_bits (SMFNoteOnEvent t d ch pitch vel) =
    Some (vlq_encode d ++ [NOTE_ON + ch; pitch; vel]) /\
  getBuffer long_bits (SMFNoteOffEvent t d ch pitch vel) =
    Some (vlq_encode d ++ [NOTE_OFF + ch; pitch; vel]).
Proof.
  intros Hw Hd Hch Hp Hv. unfold getBuffer, serialize, noteOn_writes, noteOff_writes.
  rewrite !note_bytes by assumption. unfold NOTE_ON, NOTE_OFF.
  rewrite !(byte_of_small (_ + ch)), !(byte_of_small pitch), !(byte_of_small vel) by lia.
  split; reflexivity.
Qed.

(** The spec's example: NoteOn(channel 0, pitch 60, velocity 100) at the
    start of a track is [00 90 3C 64]; the note-off at delta 96 is
    [60 80 3C 00]. *)
Lemma getBuffer_note_witness :
  getBuffer 64 (SMFNoteOnEvent 0 0 0 60 100) = Some [0; 144; 60; 100] /\
  getBuffer 64 (SMFNoteOffEvent 96 96 0 60 0) = Some [96; 128; 60; 0] /\
  (getBuffer 64 (SMFNoteOnEvent 0 0 0 60 100) = Some (vlq_encode 0 ++ [NOTE_ON + 0; 60; 100]) /\
   getBuffer 64 (SMFNoteOffEvent 0 0 0 60 100) = Some (vlq_encode 0 ++ [NOTE_OFF + 0; 60; 100])).
Proof.
  split; [reflexivity|]. split; [reflexivity|].
  apply (getBuffer_note 64 0 0 0 60 100); solve_bounds.
Defined.

(** C9 (functional): a track-name event serializes with delta 0 whatever
    its tick: [00 FF 03], the length of the name as a variable-length
    quantity, then the name. *)
Theorem getBuffer_trackName (long_bits : Z) (sTrackName : string) (nTicks : Z) :
  8 <= long_bits -> Z.of_nat (String.length sTrackName) < 2 ^ (7 * (long_bits / 8)) ->
  getBuffer long_bits (newTrackNameMetaEvent sTrackName nTicks) =
  Some ([0; 255; TRACK_NAME] ++ vlq_encode (Z.of_nat (String.length sTrackName))
        ++ string_bytes sTrackName).
Proof.
  intros Hw Hl. unfold newTrackNameMetaEvent.
  rewrite trackName_bytes by (try apply varlen_range_0; assumption). reflexivity.
Qed.

Lemma getBuffer_trackName_witness :
  getBuffer 64 (newTrackNameMetaEvent "drums" 480) =
  Some ([0; 255; TRACK_NAME] ++ vlq_encode 5 ++ string_bytes "drums").
Proof. apply (getBuffer_trackName 64 "drums" 480); solve_bounds. Defined.

(** C10 (error): the constructor's channel check only logs.  The event
    [SMFNoteOnEvent( t, ch, pitch, vel )] with a channel in [16, 111] is
    reported by [errorLog], keeps its channel, and once the writer has
    assigned its delta it is serialized with the status byte
    [0x90 + channel], which lies outside the note-on range [0x90, 0x9F]
    (16 gives 0xA0, polyphonic aftertouch). *)
Theorem noteOn_channel_ge16 (long_bits t d ch pitch vel : Z) :
  8 <= long_bits -> 0 <= d < 2 ^ (7 * (long_bits / 8)) -> 16 <= ch < 112 ->
  snd (newNoteOnEvent t ch pitch vel) =
    [mkLogMsg "[SMFNoteOnEvent] nChannel >= 16! nChannel=" ch] /\
  getBuffer long_bits (setDeltaTime (fst (newNoteOnEvent t ch pitch vel)) d) =
    Some (vlq_encode d ++ [NOTE_ON + ch; byte_of pitch; byte_of vel]) /\
  ~ (NOTE_ON <= NOTE_ON + ch < NOTE_ON + 16).
Proof.
  intros Hw Hd Hch. unfold newNoteOnEvent, NOTE_ON. cbn [snd fst setDeltaTime].
  replace (16 <=? ch) with true by (symmetry; apply Z.leb_le; lia).
  split; [reflexivity|]. split; [|lia].
  unfold getBuffer, serialize, noteOn_writes. rewrite note_bytes by assumption.
  unfold NOTE_ON. rewrite (byte_of_small (144 + ch)) by lia. reflexivity.
Qed.

Lemma noteOn_channel_ge16_witness :
  snd (newNoteOnEvent 0 16 60 100) =
    [mkLogMsg "[SMFNoteOnEvent] nChannel >= 16! nChannel=" 16] /\
  getBuffer 64 (setDeltaTime (fst (newNoteOnEvent 0 16 60 100)) 0) =
    Some (vlq_encode 0 ++ [NOTE_ON + 16; byte_of 60; byte_of 100]) /\
  ~ (NOTE_ON <= NOTE_ON + 16 < NOTE_ON + 16).
Proof. apply (noteOn_channel_ge16 64 0 0 16 60 100); solve_bounds. Defined.

(** C11 (error): a negative channel is not checked at all.  The event
    [SMFNoteOnEvent( t, ch, pitch, vel )] with [ch < 0] logs nothing and,
    with any delta assigned, serializes to exactly the bytes of
    [SMFNoteOffEvent( t, ch + 16, pitch, vel )] with that delta: for [ch]
    in [-16, -1] a valid note-off, so the note is silently turned off
    instead of on. *)
Theorem noteOn_negative_channel (long_bits t d ch pitch vel : Z) :
  ch < 0 ->
  snd (newNoteOnEvent t ch pitch vel) = [] /\
  getBuffer long_bits (setDeltaTime (fst (newNoteOnEvent t ch pitch vel)) d) =
    getBuffer long_bits (setDeltaTime (fst (newNoteOffEvent t (ch + 16) pitch vel)) d).
Proof.
  intros Hch. unfold newNoteOnEvent, newNoteOffEvent. cbn [snd fst setDeltaTime].
  replace (16 <=? ch) with false by (symmetry; apply Z.leb_gt; lia).
  split; [reflexivity|]. unfold getBuffer, serialize, noteOn_writes, noteOff_writes, NOTE_ON, NOTE_OFF.
  replace (128 + (ch + 16)) with (144 + ch) by lia. reflexivity.
Qed.

Lemma noteOn_negative_channel_witness :
  snd (newNoteOnEvent 0 (-1) 60 100) = [] /\
  getBuffer 64 (setDeltaTime (fst (newNoteOnEvent 0 (-1) 60 100)) 0) =
    getBuffer 64 (setDeltaTime (fst (newNoteOffEvent 0 (-1 + 16) 60 100)) 0).
Proof. apply (noteOn_negative_channel 64 0 0 (-1) 60 100). lia. Defined.

(** C12 (error): an event whose delta was never assigned (the [-1] of
    [SMFEvent::SMFEvent]) is not refused by [getBuffer]: it is written
    with the delta byte 0x7F, a delay of 127 ticks. *)
Theorem fresh_note_delta_7F (long_bits t ch pitch vel : Z) :
  8 <= long_bits ->
  getBuffer long_bits (fst (newNoteOnEvent t ch pitch vel)) =
    Some [127; byte_of (NOTE_ON + ch); byte_of pitch; byte_of vel] /\
  getBuffer long_bits (fst (newNoteOffEvent t ch pitch vel)) =
    Some [127; byte_of (NOTE_OFF + ch); byte_of pitch; byte_of vel].
Proof.
  intros Hw. unfold newNoteOnEvent, newNoteOffEvent, getBuffer, serialize, noteOn_writes,
    noteOff_writes, UNASSIGNED_DELTA.
  cbn [fst]. rewrite !(act_seq_Some _ _ _ _ (varlen_negative long_bits (-1) empty_buffer Hw
    ltac:(lia))), !writeBytes3, !append_assoc. split; reflexivity.
Qed.

Lemma fresh_note_delta_7F_witness :
  getBuffer 32 (fst (newNoteOnEvent 0 0 60 100)) =
    Some [127; byte_of (NOTE_ON + 0); byte_of 60; byte_of 100] /\
  getBuffer 32 (fst (newNoteOffEvent 0 0 60 100)) =
    Some [127; byte_of (NOTE_OFF + 0); byte_of 60; byte_of 100].
Proof. apply (fresh_note_delta_7F 32 0 0 60 100). lia. Defined.


End Event.
