(* ===== verification/SMFTrack.v ===== *)
(** * Track and file assembly (spec section 4.4)

    The writer that turns a song's events into a Standard MIDI File is
    not part of the sources (SMF.cpp); it is modelled from the spec:
    delta times from absolute ticks, with an ordering error; the events'
    [getBuffer] bytes concatenated; a synthesized end-of-track event; the
    [MTrk] chunk with its 4-byte length, and the [MThd] header.  Chunk
    headers are written with [SMFBuffer.writeDWord] and [writeWord]. *)

From Stdlib Require Import ZArith String Ascii List Lia.
From S2P Require Import Prelude VarLen SMFBuffer SMFEvent.
Import ListNotations VarLenSpec Buffer Event.
Open Scope Z_scope.
Open Scope smf_scope.

Module Track.

(** The error taxonomy of spec section 7 that the encoder can raise. *)
Inductive SMFError :=
| OrderingViolation (index : nat) (previous tick : Z)
| EncodingRangeError (index : nat) (delta : Z).

(** Step 1: [delta[i] = tick[i] - tick[i-1]], [delta[0] = tick[0]]; a
    decreasing tick is an ordering violation. *)
Fixpoint computeDeltas (prev : Z) (index : nat) (evs : list SMFEvent)
    : SMFError + list SMFEvent :=
  match evs with
  | [] => inr []
  | e :: rest =>
      if ticks e <? prev then inl (OrderingViolation index prev (ticks e))
      else match computeDeltas (ticks e) (S index) rest with
           | inl err => inl err
           | inr rest' => inr (setDeltaTime e (ticks e - prev) :: rest')
           end
  end.

(** The largest delta the format allows (four bytes of variable length). *)
Definition MAX_DELTA : Z := 2 ^ 28 - 1.

(** Step 2: the events' bytes, each event checked against the format's
    range before it is written. *)
Fixpoint eventsBytes (long_bits : Z) (index : nat) (evs : list SMFEvent)
    : SMFError + list Z :=
  match evs with
  | [] => inr []
  | e :: rest =>
      if MAX_DELTA <? deltaTime e then inl (EncodingRangeError index (deltaTime e))
      else match getBuffer long_bits e, eventsBytes long_bits (S index) rest with
           | Some bs, inr bs' => inr (bs ++ bs')
           | None, _ => inl (EncodingRangeError index (deltaTime e))
           | _, inl err => inl err
           end
  end.

(** Step 3: the synthesized end-of-track meta event [00 FF 2F 00]. *)
Definition END_OF_TRACK : list Z := [0; 255; 47; 0].

(** ["MTrk"] and ["MThd"] as big-endian double words. *)
Definition MTRK : Z := 1297379947.
Definition MTHD : Z := 1297377380.

(** Step 4: a chunk: its tag, its 4-byte length, its body. *)
Definition writeChunk (tag : Z) (body : list Z) : act SMFBuffer :=
  writeDWord tag ;; writeDWord (Z.of_nat (length body)) ;; act_iter writeByte body.

Definition trackChunk (long_bits : Z) (evs : list SMFEvent) : SMFError + list Z :=
  match computeDeltas 0 0 evs with
  | inl err => inl err
  | inr evs' =>
      match eventsBytes long_bits 0 evs' with
      | inl err => inl err
      | inr body =>
          match writeChunk MTRK (body ++ END_OF_TRACK) empty_buffer with
          | Some buf => inr (m_buffer buf)
          | None => inr []
          end
      end
  end.

(** Step 5: the header chunk, then each track chunk in order. *)
Definition writeHeader (format nTracks division : Z) : act SMFBuffer :=
  writeDWord MTHD ;; writeDWord 6 ;; writeWord format ;; writeWord nTracks ;;
  writeWord division.

Fixpoint tracksBytes (long_bits : Z) (tracks : list (list SMFEvent)) : SMFError + list Z :=
  match tracks with
  | [] => inr []
  | t :: rest =>
      match trackChunk long_bits t, tracksBytes long_bits rest with
      | inr bs, inr bs' => inr (bs ++ bs')
      | inl err, _ | _, inl err => inl err
      end
  end.

Definition fileBytes (long_bits format division : Z) (tracks : list (list SMFEvent))
    : SMFError + list Z :=
  match writeHeader format (Z.of_nat (length tracks)) division empty_buffer,
        tracksBytes long_bits tracks with
  | Some hdr, inr body => inr (m_buffer hdr ++ body)
  | None, _ => inr []
  | _, inl err => inl err
  end.

(** Whether ticks never decrease, starting from [prev]. *)
Fixpoint ticks_sorted_from (prev : Z) (l : list Z) : bool :=
  match l with
  | [] => true
  | t :: l' => (prev <=? t) && ticks_sorted_from t l'
  end.

(** The absolute times that a sequence of deltas stands for. *)
Fixpoint running_sum (start : Z) (ds : list Z) : list Z :=
  match ds with
  | [] => []
  | d :: ds' => (start + d) :: running_sum (start + d) ds'
  end.

Definition is_note (e : SMFEvent) : bool :=
  match e with SMFTrackNameMetaEvent _ _ _ => false | _ => true end.

(** ** Lemmas *)

Lemma setDeltaTime_note e d :
  is_note e = true -> deltaTime (setDeltaTime e d) = d /\ ticks (setDeltaTime e d) = ticks e.
Proof. destruct e; simpl; easy. Qed.

Lemma writeChunk_bytes tag body buf :
  writeChunk tag body buf =
  Some (append buf (be_bytes 4 tag ++ be_bytes 4 (Z.of_nat (length body)) ++ map byte_of body)).
Proof.
  unfold writeChunk. rewrite (act_seq_Some _ _ _ _ (writeDWord_bytes tag buf)).
  rewrite (act_seq_Some _ _ _ _ (writeDWord_bytes _ _)).
  rewrite (act_iter_writeByte (fun b => b)), !append_assoc. reflexivity.
Qed.

Lemma map_byte_of_id l : Forall (fun b => 0 <= b < 256) l -> map byte_of l = l.
Proof. induction 1; simpl; [reflexivity|]. rewrite byte_of_small, IHForall by assumption. reflexivity. Qed.

Lemma computeDeltas_cons prev index e rest :
  computeDeltas prev index (e :: rest) =
  if ticks e <? prev then inl (OrderingViolation index prev (ticks e))
  else match computeDeltas (ticks e) (S index) rest with
       | inl err => inl err
       | inr rest' => inr (setDeltaTime e (ticks e - prev) :: rest')
       end.
Proof. reflexivity. Qed.

(** The events' bytes are bytes. *)
Lemma eventsBytes_range w idx evs body :
  eventsBytes w idx evs = inr body -> Forall (fun b => 0 <= b < 256) body.
Proof.
  revert idx body. induction evs as [|e evs IH]; intros idx body Hb; cbn [eventsBytes] in Hb.
  - injection Hb as <-. constructor.
  - destruct (MAX_DELTA <? deltaTime e); [discriminate|].
    destruct (getBuffer w e) as [bs|] eqn:Ebs; [|discriminate].
    destruct (eventsBytes w (S idx) evs) as [err|bs'] eqn:Er; [discriminate|].
    injection Hb as <-. apply Forall_app. split; [exact (getBuffer_bytes _ _ _ Ebs) | exact (IH _ _ Er)].
Qed.

(** The chunk [trackChunk] produces, whenever the events are ordered and
    encodable. *)
Lemma trackChunk_shape w evs bs :
  trackChunk w evs = inr bs ->
  exists body, bs = be_bytes 4 MTRK ++ be_bytes 4 (Z.of_nat (length (body ++ END_OF_TRACK)))
                    ++ map byte_of body ++ END_OF_TRACK.
Proof.
  unfold trackChunk.
  destruct (computeDeltas 0 0 evs) as [err|evs']; [discriminate|].
  destruct (eventsBytes w 0 evs') as [err|body]; [discriminate|].
  rewrite writeChunk_bytes. intros H. injection H as <-. exists body.
  rewrite map_app. reflexivity.
Qed.

(** The spec's end-to-end song: a note-on at tick 0 and a note-off at
    tick 96, channel 0, pitch 60, built by the events' constructors. *)
Definition two_note_song : list SMFEvent :=
  [fst (newNoteOnEvent 0 0 60 100); fst (newNoteOffEvent 96 0 60 0)].

(** The deltas of note events add back up to their ticks. *)
Lemma computeDeltas_notes (prev : Z) (index : nat) (evs evs' : list SMFEvent) :
  forallb is_note evs = true ->
  computeDeltas prev index evs = inr evs' ->
  map ticks evs' = map ticks evs /\
  running_sum prev (map deltaTime evs') = map ticks evs /\
  Forall (fun d => 0 <= d) (map deltaTime evs').
Proof.
  revert prev index evs'. induction evs as [|e rest IH]; intros prev index evs' Hn H.
  - injection H as <-. repeat split; constructor.
  - cbn [forallb] in Hn. apply andb_prop in Hn as [He Hr].
    rewrite computeDeltas_cons in H. destruct (Z.ltb_spec (ticks e) prev); [discriminate|].
    destruct (computeDeltas (ticks e) (S index) rest) as [err|rest'] eqn:E; [discriminate|].
    injection H as <-. destruct (IH _ _ _ Hr E) as [Ht [Hs Hp]].
    destruct (setDeltaTime_note e (ticks e - prev) He) as [Hd Hte].
    cbn [map running_sum]. rewrite Hd, Hte, Ht.
    replace (prev + (ticks e - prev)) with (ticks e) by lia. rewrite Hs.
    repeat split; [constructor; [lia | exact Hp]].
Qed.

(** Running sums from a later start are shifted by the difference. *)
Lemma running_sum_shift a c ds :
  running_sum (a + c) ds = map (fun x => x + c) (running_sum a ds).
Proof.
  revert a. induction ds as [|d ds IH]; intros a; [reflexivity|]. cbn [running_sum map].
  replace (a + c + d) with (a + d + c) by lia. rewrite IH. reflexivity.
Qed.

(** ** Theorems *)

(** C14 (round trip): for a track of note events, the delta times
    computed from the absolute ticks are non-negative and add back up to
    the ticks: [delta[0] = tick[0]], [delta[i] = tick[i] - tick[i-1]]. *)
Theorem computeDeltas_roundtrip (prev : Z) (index : nat) (evs evs' : list SMFEvent) :
  forallb is_note evs = true ->
  computeDeltas prev index evs = inr evs' ->
  map ticks evs' = map ticks evs /\
  running_sum prev (map deltaTime evs') = map ticks evs /\
  Forall (fun d => 0 <= d) (map deltaTime evs').
Proof. apply computeDeltas_notes. Qed.

(** The spec's example: absolute ticks [0, 120, 240] give the deltas
    [0, 120, 120]. *)
Lemma computeDeltas_roundtrip_witness :
  computeDeltas 0 0 [SMFNoteOnEvent 0 (-1) 0 60 100; SMFNoteOffEvent 120 (-1) 0 60 0;
                     SMFNoteOnEvent 240 (-1) 0 62 100] =
    inr [SMFNoteOnEvent 0 0 0 60 100; SMFNoteOffEvent 120 120 0 60 0;
         SMFNoteOnEvent 240 120 0 62 100] /\
  (map ticks [SMFNoteOnEvent 0 0 0 60 100; SMFNoteOffEvent 120 120 0 60 0;
              SMFNoteOnEvent 240 120 0 62 100] =
     map ticks [SMFNoteOnEvent 0 (-1) 0 60 100; SMFNoteOffEvent 120 (-1) 0 60 0;
                SMFNoteOnEvent 240 (-1) 0 62 100] /\
   running_sum 0 (map deltaTime [SMFNoteOnEvent 0 0 0 60 100; SMFNoteOffEvent 120 120 0 60 0;
                                 SMFNoteOnEvent 240 120 0 62 100]) =
     map ticks [SMFNoteOnEvent 0 (-1) 0 60 100; SMFNoteOffEvent 120 (-1) 0 60 0;
                SMFNoteOnEvent 240 (-1) 0 62 100] /\
   Forall (fun d => 0 <= d) (map deltaTime [SMFNoteOnEvent 0 0 0 60 100;
                                            SMFNoteOffEvent 120 120 0 60 0;
                                            SMFNoteOnEvent 240 120 0 62 100])).
Proof.
  split; [reflexivity|]. apply (computeDeltas_roundtrip 0 0); reflexivity.
Defined.

(** C15 (error): the delta computation fails exactly when the ticks
    decrease somewhere; it then names the first offending event. *)
Theorem computeDeltas_ordering (prev : Z) (index : nat) (evs : list SMFEvent) :
  (exists err, computeDeltas prev index evs = inl err) <->
  ticks_sorted_from prev (map ticks evs) = false.
Proof.
  revert prev index. induction evs as [|e rest IH]; intros prev index.
  - split; [intros [err H]; discriminate | discriminate].
  - rewrite computeDeltas_cons. cbn [map ticks_sorted_from].
    destruct (Z.ltb_spec (ticks e) prev).
    + split; [intros _ | eauto]. replace (prev <=? ticks e) with false by (symmetry; apply Z.leb_gt; lia). reflexivity.
    + replace (prev <=? ticks e) with true by (symmetry; apply Z.leb_le; lia).
      rewrite Bool.andb_true_l, <- (IH (ticks e) (S index)).
      destruct (computeDeltas (ticks e) (S index) rest) as [err|rest'].
      * split; eauto.
      * split; intros [err Herr]; discriminate.
Qed.
(** C18 (functional): a track chunk starts with ["MTrk"], its 4-byte
    big-endian length field equals the number of bytes that follow it,
    and it ends with the end-of-track event [00 FF 2F 00]. *)
Theorem trackChunk_framing (long_bits : Z) (evs : list SMFEvent) (bs : list Z) :
  trackChunk long_bits evs = inr bs -> Z.of_nat (length bs) < 2 ^ 32 ->
  firstn 4 bs = [77; 84; 114; 107] /\
  be_val_acc 0 (firstn 4 (skipn 4 bs)) = Z.of_nat (length bs) - 8 /\
  skipn (length bs - 4) bs = END_OF_TRACK.
Proof.
  intros H Hlen. destruct (trackChunk_shape _ _ _ H) as [body ->].
  rewrite !length_app, !be_bytes_length, length_map in *.
  split; [reflexivity|]. split.
  - rewrite (skipn_length_app (be_bytes 4 MTRK)).
    rewrite <- (be_bytes_length 4 (Z.of_nat (length body + length END_OF_TRACK))) at 1.
    rewrite firstn_length_app, be_val_bytes. change (256 ^ Z.of_nat 4) with (2 ^ 32).
    rewrite Z.mod_small by lia. lia.
  - rewrite !app_assoc.
    match goal with |- skipn _ (?A ++ END_OF_TRACK) = _ =>
      replace (4 + (4 + (length body + length END_OF_TRACK)) - 4)%nat with (length A)
        by (rewrite !length_app, !be_bytes_length, length_map; unfold END_OF_TRACK;
            cbn [length]; lia) end.
    apply skipn_length_app.
Qed.
Lemma trackChunk_framing_witness :
  let bs := [77; 84; 114; 107; 0; 0; 0; 12; 0; 144; 60; 100; 96; 128; 60; 0; 0; 255; 47; 0] in
  firstn 4 bs = [77; 84; 114; 107] /\
  be_val_acc 0 (firstn 4 (skipn 4 bs)) = Z.of_nat (length bs) - 8 /\
  skipn (length bs - 4) bs = END_OF_TRACK.
Proof.
  apply (trackChunk_framing 64 two_note_song); [vm_compute; reflexivity | vm_compute; reflexivity].
Defined.

(** C19 (functional): a track name placed anywhere but at the tick of
    the previous event shifts every later event: the spec forces its
    delta to 0, while the delta of the next note is still taken from the
    name's tick.  After a name at tick [t] that follows an event at tick
    [prev], a reader summing the deltas places the name at [prev] and
    every later note [t - prev] ticks early. *)
Theorem trackName_shifts_later_events (prev t d : Z) (name : string) (index : nat)
    (post evs' : list SMFEvent) :
  forallb is_note post = true ->
  computeDeltas prev index (SMFTrackNameMetaEvent t d name :: post) = inr evs' ->
  running_sum prev (map deltaTime evs') = prev :: map (fun e => ticks e - (t - prev)) post.
Proof.
  intros Hn H. rewrite computeDeltas_cons in H. cbn [ticks] in H.
  destruct (Z.ltb_spec t prev); [discriminate|].
  destruct (computeDeltas t (S index) post) as [err|post'] eqn:E; [discriminate|].
  injection H as <-. destruct (computeDeltas_notes _ _ _ _ Hn E) as (_ & Hs & _).
  cbn [setDeltaTime map deltaTime running_sum]. rewrite Z.add_0_r. f_equal.
  replace prev with (t + (prev - t)) at 1 by lia.
  rewrite running_sum_shift, Hs, map_map. apply map_ext. intros e. lia.
Qed.

(** Witness: a name at tick 100 after tick 0, then a note-off at tick
    200: the reader puts the note-off at tick 100. *)
Lemma trackName_shifts_later_events_witness :
  forallb is_note [SMFNoteOffEvent 200 (-1) 0 60 0] = true /\
  computeDeltas 0 0 [newTrackNameMetaEvent "drums" 100; SMFNoteOffEvent 200 (-1) 0 60 0] =
    inr [SMFTrackNameMetaEvent 100 0 "drums"; SMFNoteOffEvent 200 100 0 60 0] /\
  running_sum 0 (map deltaTime [SMFTrackNameMetaEvent 100 0 "drums"; SMFNoteOffEvent 200 100 0 60 0]) =
    [0; 100].
Proof.
  split; [reflexivity|]. split; [reflexivity|].
  exact (trackName_shifts_later_events 0 100 0 "drums" 0 [SMFNoteOffEvent 200 (-1) 0 60 0] _
           eq_refl eq_refl).
Defined.

End Track.
