(* ===== verification/SMFDecode.v ===== *)
(** * Reading a track back (spec sections 4.1, 6 and 8)

    A decoder of the event stream grammar of spec section 6,
    [<var-len delta><status>[<channel>]<payload>], for the events the
    encoder writes, of the [MTrk] chunk around it and of the whole file
    ([MThd] header, then the chunks).  It is not code of
    the repository: it is the reader the spec's round-trip tests assume
    (section 2: "round-trip decode for testing").  The theorems show that
    what [getBuffer] and [trackChunk] write decodes back to the events,
    so the bytes are a well-formed track in the sense of the spec. *)

From Stdlib Require Import ZArith String Ascii List Lia.
From S2P Require Import Prelude VarLen SMFBuffer SMFEvent SMFTrack.
Import ListNotations VarLenSpec Buffer Event Track.
Open Scope Z_scope.
Open Scope bool_scope.

Module Decode.

(** The events as a reader sees them: delta, kind and payload. *)
Inductive DecodedEvent :=
| DNoteOn (delta ch pitch vel : Z)
| DNoteOff (delta ch pitch vel : Z)
| DTrackName (delta : Z) (name : string)
| DEndOfTrack (delta : Z).

(** What an event of the encoder should read back as. *)
Definition view (e : SMFEvent) : DecodedEvent :=
  match e with
  | SMFTrackNameMetaEvent _ d name => DTrackName d name
  | SMFNoteOnEvent _ d ch p v => DNoteOn d ch p v
  | SMFNoteOffEvent _ d ch p v => DNoteOff d ch p v
  end.

(** A MIDI data byte has its top bit clear. *)
Definition is_data (b : Z) : bool := (0 <=? b) && (b <? 128).

Definition string_of_bytes (bs : list Z) : string :=
  string_of_list_ascii (map (fun b => ascii_of_nat (Z.to_nat b)) bs).

(** One event: its delta, then a meta event ([FF 03] with a
    length-prefixed text, or [FF 2F 00]) or a note event (status [0x9n]
    or [0x8n], two data bytes).  Returns the event and the bytes after
    it. *)
Definition decode_event (bs : list Z) : option (DecodedEvent * list Z) :=
  match vlq_decode bs 0 with
  | None => None
  | Some (delta, n) =>
      match skipn n bs with
      | status :: b1 :: rest =>
          if status =? 255 then
            if b1 =? 3 then
              match vlq_decode rest 0 with
              | Some (len, m) =>
                  let text := skipn m rest in
                  if Z.of_nat (length text) <? len then None
                  else Some (DTrackName delta (string_of_bytes (firstn (Z.to_nat len) text)),
                             skipn (Z.to_nat len) text)
              | None => None
              end
            else if b1 =? 47 then
              match rest with
              | b2 :: rest' => if b2 =? 0 then Some (DEndOfTrack delta, rest') else None
              | [] => None
              end
            else None
          else
            match rest with
            | v :: rest' =>
                if is_data b1 && is_data v then
                  if status / 16 =? 9 then Some (DNoteOn delta (status mod 16) b1 v, rest')
                  else if status / 16 =? 8 then Some (DNoteOff delta (status mod 16) b1 v, rest')
                  else None
                else None
            | [] => None
            end
      | _ => None
      end
  end.

(** A track body: events up to an end-of-track that ends the body.  Each
    event takes at least one byte, so [S (length bs)] turns are enough. *)
Fixpoint decode_events (fuel : nat) (bs : list Z) : option (list DecodedEvent) :=
  match fuel with
  | O => None
  | S fuel' =>
      match decode_event bs with
      | Some (DEndOfTrack d, []) => Some [DEndOfTrack d]
      | Some (DEndOfTrack _, _ :: _) => None
      | Some (e, rest) => option_map (cons e) (decode_events fuel' rest)
      | None => None
      end
  end.

Definition decode_track_body (bs : list Z) : option (list DecodedEvent) :=
  decode_events (S (length bs)) bs.

(** An [MTrk] chunk: the tag, a 4-byte length equal to the size of the
    rest, and a track body. *)
Definition decode_track_chunk (bs : list Z) : option (list DecodedEvent) :=
  if list_eq_dec Z.eq_dec (firstn 4 bs) (be_bytes 4 MTRK) then
    let body := skipn 8 bs in
    if be_val_acc 0 (firstn 4 (skipn 4 bs)) =? Z.of_nat (length body)
    then decode_track_body body else None
  else None.

(** The [MThd] header: the tag, the length 6, then the format, the
    number of tracks and the division as big-endian 16-bit words.
    Returns them and the bytes after the header. *)
Definition decode_header (bs : list Z) : option (Z * Z * Z * list Z) :=
  if list_eq_dec Z.eq_dec (firstn 8 bs) (be_bytes 4 MTHD ++ be_bytes 4 6) then
    if (14 <=? length bs)%nat then
      Some (be_val_acc 0 (firstn 2 (skipn 8 bs)), be_val_acc 0 (firstn 2 (skipn 10 bs)),
            be_val_acc 0 (firstn 2 (skipn 12 bs)), skipn 14 bs)
    else None
  else None.

(** The track chunks one after the other, each cut at its length field;
    each chunk has at least 8 bytes, so [S (length bs)] turns are
    enough. *)
Fixpoint decode_tracks (fuel : nat) (bs : list Z) : option (list (list DecodedEvent)) :=
  match fuel with
  | O => None
  | S fuel' =>
      match bs with
      | [] => Some []
      | _ :: _ =>
          let n := (8 + Z.to_nat (be_val_acc 0 (firstn 4 (skipn 4 bs))))%nat in
          match decode_track_chunk (firstn n bs) with
          | Some evs => option_map (cons evs) (decode_tracks fuel' (skipn n bs))
          | None => None
          end
      end
  end.

(** A whole file: the header, then its tracks. *)
Definition decode_file (bs : list Z) : option (Z * Z * Z * list (list DecodedEvent)) :=
  match decode_header bs with
  | Some (format, ntracks, division, rest) =>
      option_map (fun ts => (format, ntracks, division, ts)) (decode_tracks (S (length rest)) rest)
  | None => None
  end.

(** The events the decoder reads back exactly: channels in [0, 15], data
    bytes below 128, names short enough for a 4-byte length. *)
Definition wf_event (e : SMFEvent) : bool :=
  match e with
  | SMFNoteOnEvent _ _ ch p v | SMFNoteOffEvent _ _ ch p v =>
      (0 <=? ch) && (ch <? 16) && is_data p && is_data v
  | SMFTrackNameMetaEvent _ _ name => Z.of_nat (String.length name) <? 2 ^ 28
  end.

(** ** Lemmas *)

Lemma vlq_decode_front d rest :
  0 <= d -> vlq_decode (vlq_encode d ++ rest) 0 = Some (d, length (vlq_encode d)).
Proof. intros Hd. exact (vlq_roundtrip [] rest d Hd). Qed.

Lemma string_of_bytes_inv s : string_of_bytes (string_bytes s) = s.
Proof.
  unfold string_of_bytes, string_bytes. rewrite map_map.
  erewrite map_ext; [rewrite map_id; apply string_of_list_ascii_of_string|].
  intros c. cbv beta. rewrite Nat2Z.id. apply ascii_nat_embedding.
Qed.

Lemma string_bytes_length s : length (string_bytes s) = String.length s.
Proof.
  unfold string_bytes. rewrite length_map.
  induction s as [|c s IH]; cbn [list_ascii_of_string length String.length]; congruence.
Qed.

(** A note event reads back with its status nibble and channel. *)
Lemma decode_event_note d status ch p v rest :
  0 <= d -> (status = 8 \/ status = 9) -> 0 <= ch < 16 ->
  is_data p = true -> is_data v = true ->
  decode_event (vlq_encode d ++ [byte_of (status * 16 + ch); byte_of p; byte_of v] ++ rest) =
  Some ((if status =? 9 then DNoteOn else DNoteOff) d ch p v, rest).
Proof.
  intros Hd Hs Hch Hp Hv. unfold decode_event. rewrite vlq_decode_front by exact Hd.
  rewrite skipn_length_app. unfold is_data in Hp, Hv.
  apply andb_prop in Hp as [Hp1 Hp2]. apply andb_prop in Hv as [Hv1 Hv2].
  apply Z.leb_le in Hp1, Hv1. apply Z.ltb_lt in Hp2, Hv2.
  rewrite !byte_of_small by lia. cbn [app]. unfold is_data.
  replace (status * 16 + ch =? 255) with false by (symmetry; apply Z.eqb_neq; lia).
  replace ((status * 16 + ch) / 16) with status
    by (apply Z.div_unique_pos with ch; lia).
  replace ((status * 16 + ch) mod 16) with ch
    by (apply Z.mod_unique_pos with status; lia).
  replace ((0 <=? p) && (p <? 128) && ((0 <=? v) && (v <? 128))) with true
    by (symmetry; repeat (apply andb_true_intro; split); apply Z.leb_le || apply Z.ltb_lt; lia).
  destruct Hs as [-> | ->]; reflexivity.
Qed.

(** A track-name event reads back with its delta and its name. *)
Lemma decode_event_name d name rest :
  0 <= d ->
  decode_event (vlq_encode d ++ [255; TRACK_NAME] ++ vlq_encode (Z.of_nat (String.length name))
                ++ string_bytes name ++ rest) = Some (DTrackName d name, rest).
Proof.
  intros Hd. unfold decode_event. rewrite vlq_decode_front by exact Hd.
  rewrite skipn_length_app. cbn [app]. unfold TRACK_NAME. cbn -[vlq_decode vlq_encode skipn firstn].
  rewrite vlq_decode_front by lia. rewrite skipn_length_app.
  rewrite length_app, string_bytes_length.
  replace (Z.of_nat (String.length name + length rest) <? Z.of_nat (String.length name))
    with false by (symmetry; apply Z.ltb_ge; lia).
  rewrite Nat2Z.id, <- string_bytes_length, firstn_length_app, skipn_length_app,
    string_of_bytes_inv. reflexivity.
Qed.

(** A [long] of at least 32 bits encodes every delta of the format. *)
Lemma range_28 w : 32 <= w -> 2 ^ 28 <= 2 ^ (7 * (w / 8)).
Proof.
  intros Hw. apply Z.pow_le_mono_r; [lia|].
  assert (4 <= w / 8) by (apply Z.div_le_lower_bound; lia). lia.
Qed.

(** The bytes of a note event, with status nibble [status], read back. *)
Lemma note_decode w d status ch p v :
  32 <= w -> (status = 8 \/ status = 9) -> 0 <= d < 2 ^ 28 ->
  (0 <=? ch) && (ch <? 16) && is_data p && is_data v = true ->
  exists bs, option_map m_buffer ((writeVarLen w d ;; writeByte (status * 16 + ch) ;;
                                   writeByte p ;; writeByte v) empty_buffer) = Some bs /\
    (1 <= length bs)%nat /\
    forall rest, decode_event (bs ++ rest) =
                 Some ((if status =? 9 then DNoteOn else DNoteOff) d ch p v, rest).
Proof.
  intros Hw Hs Hd Hwf.
  apply andb_prop in Hwf as [Hwf Hv]. apply andb_prop in Hwf as [Hwf Hp].
  apply andb_prop in Hwf as [H0 H16]. apply Z.leb_le in H0. apply Z.ltb_lt in H16.
  pose proof (range_28 w Hw) as H4.
  rewrite note_bytes by lia. eexists. split; [reflexivity|].
  split; [rewrite length_app, vlq_encode_length; pose proof (vlq_len_pos d); lia|].
  intros rest. rewrite <- app_assoc. apply decode_event_note; auto; lia.
Qed.

(** Every event the decoder reads exactly serializes to at least one
    byte that reads back as the event, on a [long] of at least 32 bits. *)
Lemma getBuffer_decode w e :
  32 <= w -> wf_event e = true -> 0 <= deltaTime e <= MAX_DELTA ->
  exists bs, getBuffer w e = Some bs /\ (1 <= length bs)%nat /\
    forall rest, decode_event (bs ++ rest) = Some (view e, rest).
Proof.
  intros Hw Hwf Hd. unfold MAX_DELTA in Hd.
  destruct e as [t d name | t d ch p v | t d ch p v]; cbn [deltaTime wf_event view] in *.
  - apply Z.ltb_lt in Hwf.
    pose proof (range_28 w Hw) as H4.
    rewrite trackName_bytes by lia. eexists. split; [reflexivity|].
    split; [rewrite length_app, vlq_encode_length; pose proof (vlq_len_pos d); lia|].
    intros rest. rewrite <- !app_assoc. apply decode_event_name. lia.
  - exact (note_decode w d 9 ch p v Hw ltac:(lia) ltac:(lia) Hwf).
  - exact (note_decode w d 8 ch p v Hw ltac:(lia) ltac:(lia) Hwf).
Qed.

(** The events' bytes, then the end of track, read back as the events. *)
Lemma eventsBytes_decode w idx evs body fuel :
  32 <= w -> Forall (fun e => wf_event e = true /\ 0 <= deltaTime e) evs ->
  eventsBytes w idx evs = inr body -> (length evs < fuel)%nat ->
  decode_events fuel (body ++ END_OF_TRACK) = Some (map view evs ++ [DEndOfTrack 0]).
Proof.
  intros Hw Hwf. revert idx body fuel.
  induction Hwf as [|e evs [He Hd] Hwf IH]; intros idx body fuel Hb Hf;
    (destruct fuel as [|fuel]; [cbn in Hf; lia|]).
  - injection Hb as <-. reflexivity.
  - cbn [eventsBytes] in Hb. destruct (Z.ltb_spec MAX_DELTA (deltaTime e)); [discriminate|].
    destruct (getBuffer_decode w e Hw He ltac:(lia)) as (bs & Hbs & _ & Hdec).
    rewrite Hbs in Hb. destruct (eventsBytes w (S idx) evs) as [err|bs'] eqn:Er; [discriminate|].
    injection Hb as <-. cbn [decode_events]. rewrite <- app_assoc, Hdec.
    rewrite (IH _ _ _ Er) by (cbn [length] in Hf; lia).
    destruct e; reflexivity.
Qed.

(** Each event writes at least one byte. *)
Lemma eventsBytes_length w idx evs body :
  32 <= w -> Forall (fun e => wf_event e = true /\ 0 <= deltaTime e) evs ->
  eventsBytes w idx evs = inr body -> (length evs <= length body)%nat.
Proof.
  intros Hw Hwf. revert idx body.
  induction Hwf as [|e evs [He Hd] Hwf IH]; intros idx body Hb; [cbn; lia|].
  cbn [eventsBytes] in Hb. destruct (Z.ltb_spec MAX_DELTA (deltaTime e)); [discriminate|].
  destruct (getBuffer_decode w e Hw He ltac:(lia)) as (bs & Hbs & Hl & _).
  rewrite Hbs in Hb. destruct (eventsBytes w (S idx) evs) as [err|bs'] eqn:Er; [discriminate|].
  injection Hb as <-. rewrite length_app. specialize (IH _ _ Er). cbn [length]. lia.
Qed.

(** The deltas the writer computes are non-negative, and the events keep
    their channels, data and names. *)
Lemma computeDeltas_wf prev idx evs evs' :
  computeDeltas prev idx evs = inr evs' -> forallb wf_event evs = true ->
  Forall (fun e => wf_event e = true /\ 0 <= deltaTime e) evs'.
Proof.
  revert prev idx evs'. induction evs as [|e evs IH]; intros prev idx evs' H Hwf.
  - injection H as <-. constructor.
  - cbn [forallb] in Hwf. apply andb_prop in Hwf as [He Hr].
    rewrite computeDeltas_cons in H. destruct (Z.ltb_spec (ticks e) prev); [discriminate|].
    destruct (computeDeltas (ticks e) (S idx) evs) as [err|rest'] eqn:E; [discriminate|].
    injection H as <-. constructor; [|exact (IH _ _ _ E Hr)].
    destruct e; cbn in *; split; (assumption || lia).
Qed.

(** The chunk framing reads back: the tag, then a length that matches. *)
Lemma decode_track_chunk_frame body :
  Z.of_nat (length body) < 2 ^ 32 ->
  decode_track_chunk (be_bytes 4 MTRK ++ be_bytes 4 (Z.of_nat (length body)) ++ body) =
  decode_track_body body.
Proof.
  intros Hlen. unfold decode_track_chunk.
  rewrite (firstn_app_len 4 (be_bytes 4 MTRK)) by apply be_bytes_length.
  destruct (list_eq_dec Z.eq_dec (be_bytes 4 MTRK) (be_bytes 4 MTRK)) as [_|]; [|congruence].
  rewrite app_assoc, (skipn_app_len 8 (be_bytes 4 MTRK ++ _))
    by (rewrite length_app, !be_bytes_length; reflexivity).
  rewrite <- app_assoc, (skipn_app_len 4 (be_bytes 4 MTRK)), (firstn_app_len 4 (be_bytes 4 _))
    by apply be_bytes_length.
  rewrite be_val_bytes, Z.mod_small by lia. rewrite Z.eqb_refl. reflexivity.
Qed.

(** The pieces of a chunk that [trackChunk] accepts. *)
Lemma trackChunk_inr w evs bs :
  trackChunk w evs = inr bs ->
  exists evs' body, computeDeltas 0 0 evs = inr evs' /\ eventsBytes w 0 evs' = inr body /\
    bs = be_bytes 4 MTRK ++ be_bytes 4 (Z.of_nat (length (body ++ END_OF_TRACK)))
         ++ map byte_of (body ++ END_OF_TRACK).
Proof.
  unfold trackChunk. destruct (computeDeltas 0 0 evs) as [err|evs'] eqn:Ed; [discriminate|].
  destruct (eventsBytes w 0 evs') as [err|body] eqn:Ee; [discriminate|].
  rewrite writeChunk_bytes. intros H. exists evs', body. split; [reflexivity|]. split; [exact Ee|].
  injection H as <-. reflexivity.
Qed.

(** A chunk the writer accepts reads back (the content of the round trip). *)
Lemma chunk_decode (long_bits : Z) (evs : list SMFEvent) (bs : list Z) :
  32 <= long_bits -> forallb wf_event evs = true ->
  trackChunk long_bits evs = inr bs -> Z.of_nat (length bs) < 2 ^ 32 ->
  exists evs', computeDeltas 0 0 evs = inr evs' /\
    decode_track_chunk bs = Some (map view evs' ++ [DEndOfTrack 0]).
Proof.
  intros Hw Hwf Hb Hlen. destruct (trackChunk_inr _ _ _ Hb) as (evs' & body & Ed & Ee & ->).
  exists evs'. split; [exact Ed|].
  pose proof (computeDeltas_wf _ _ _ _ Ed Hwf) as Hwf'.
  rewrite map_byte_of_id
    by (apply Forall_app; split; [exact (eventsBytes_range _ _ _ _ Ee) | repeat constructor; lia]).
  rewrite !length_app, !be_bytes_length, length_map, length_app in Hlen.
  rewrite decode_track_chunk_frame by (rewrite length_app; lia). unfold decode_track_body.
  apply (eventsBytes_decode long_bits 0); [exact Hw | exact Hwf' | exact Ee |].
  pose proof (eventsBytes_length _ _ _ _ Hw Hwf' Ee). rewrite length_app. lia.
Qed.

(** The header [writeHeader] writes. *)
Lemma writeHeader_bytes format ntracks division :
  writeHeader format ntracks division empty_buffer =
  Some (mkSMFBuffer (be_bytes 4 MTHD ++ be_bytes 4 6 ++ be_bytes 2 format ++
                     be_bytes 2 ntracks ++ be_bytes 2 division)).
Proof.
  unfold writeHeader.
  rewrite (act_seq_Some _ _ _ _ (writeDWord_bytes _ _)), (act_seq_Some _ _ _ _ (writeDWord_bytes _ _)),
    (act_seq_Some _ _ _ _ (writeWord_bytes _ _)), (act_seq_Some _ _ _ _ (writeWord_bytes _ _)),
    writeWord_bytes, !append_assoc.
  reflexivity.
Qed.

(** A 16-bit field reads back. *)
Lemma be16_read x rest : 0 <= x < 2 ^ 16 -> be_val_acc 0 (firstn 2 (be_bytes 2 x ++ rest)) = x.
Proof.
  intros Hx. rewrite (firstn_app_len 2) by apply be_bytes_length.
  rewrite be_val_bytes. apply Z.mod_small. exact Hx.
Qed.

Lemma decode_header_bytes format ntracks division rest :
  0 <= format < 2 ^ 16 -> 0 <= ntracks < 2 ^ 16 -> 0 <= division < 2 ^ 16 ->
  decode_header (be_bytes 4 MTHD ++ be_bytes 4 6 ++ be_bytes 2 format ++
                 be_bytes 2 ntracks ++ be_bytes 2 division ++ rest) =
  Some (format, ntracks, division, rest).
Proof.
  intros Hf Hn Hd. unfold decode_header.
  set (tail := be_bytes 2 format ++ be_bytes 2 ntracks ++ be_bytes 2 division ++ rest).
  assert (Hl : length (be_bytes 4 MTHD ++ be_bytes 4 6) = 8%nat)
    by (rewrite length_app, !be_bytes_length; reflexivity).
  rewrite app_assoc, (firstn_app_len 8 _ _ Hl).
  destruct (list_eq_dec Z.eq_dec _ _) as [_|]; [|congruence].
  rewrite length_app, Hl. cbn [Nat.leb].
  replace (skipn 10 _) with (skipn 2 (skipn 8 ((be_bytes 4 MTHD ++ be_bytes 4 6) ++ tail)))
    by (rewrite skipn_skipn; reflexivity).
  replace (skipn 12 _) with (skipn 4 (skipn 8 ((be_bytes 4 MTHD ++ be_bytes 4 6) ++ tail)))
    by (rewrite skipn_skipn; reflexivity).
  replace (skipn 14 _) with (skipn 6 (skipn 8 ((be_bytes 4 MTHD ++ be_bytes 4 6) ++ tail)))
    by (rewrite skipn_skipn; reflexivity).
  rewrite (skipn_app_len 8 _ _ Hl). unfold tail.
  rewrite (skipn_app_len 2 (be_bytes 2 format)) by apply be_bytes_length.
  rewrite app_assoc, (skipn_app_len 4 (be_bytes 2 format ++ be_bytes 2 ntracks))
    by (rewrite length_app, !be_bytes_length; reflexivity).
  rewrite <- app_assoc, app_assoc, app_assoc,
    (skipn_app_len 6 ((be_bytes 2 format ++ be_bytes 2 ntracks) ++ be_bytes 2 division))
    by (rewrite !length_app, !be_bytes_length; reflexivity).
  rewrite <- !app_assoc, !be16_read by assumption. reflexivity.
Qed.

(** A chunk [trackChunk] writes: its length field gives its size. *)
Lemma trackChunk_size w evs c rest :
  trackChunk w evs = inr c -> Z.of_nat (length c) < 2 ^ 32 ->
  (8 + Z.to_nat (be_val_acc 0 (firstn 4 (skipn 4 (c ++ rest)))) = length c)%nat.
Proof.
  intros Hc Hlen. destruct (trackChunk_inr _ _ _ Hc) as (evs' & body & _ & _ & ->).
  rewrite !length_app, !be_bytes_length in *.
  rewrite <- !app_assoc, (skipn_app_len 4 (be_bytes 4 MTRK)) by apply be_bytes_length.
  rewrite (firstn_app_len 4 (be_bytes 4 _)) by apply be_bytes_length.
  rewrite be_val_bytes. change (256 ^ Z.of_nat 4) with (2 ^ 32).
  rewrite length_map, length_app in *. rewrite Z.mod_small by lia. lia.
Qed.

(** The track chunks [tracksBytes] writes read back, one by one. *)
Lemma tracksBytes_decode w tracks body fuel :
  32 <= w -> Forall (fun t => forallb wf_event t = true) tracks ->
  tracksBytes w tracks = inr body -> Z.of_nat (length body) < 2 ^ 32 ->
  (length tracks < fuel)%nat ->
  exists tracks', Forall2 (fun t t' => computeDeltas 0 0 t = inr t') tracks tracks' /\
    decode_tracks fuel body = Some (map (fun t' => map view t' ++ [DEndOfTrack 0]) tracks').
Proof.
  intros Hw Hwf. revert body fuel.
  induction Hwf as [|t tracks Ht Hwf IH]; intros body fuel Hb Hlen Hf;
    (destruct fuel as [|fuel]; [cbn in Hf; lia|]).
  - injection Hb as <-. exists []. split; [constructor | reflexivity].
  - cbn [tracksBytes] in Hb.
    destruct (trackChunk w t) as [err|c] eqn:Ec; [discriminate|].
    destruct (tracksBytes w tracks) as [err|bs'] eqn:Er; [discriminate|].
    injection Hb as <-. rewrite length_app in Hlen.
    destruct (chunk_decode w t c Hw Ht Ec ltac:(lia)) as (t' & Et & Hdec).
    destruct (IH bs' fuel eq_refl ltac:(lia) ltac:(cbn [length] in Hf; lia)) as (ts' & Hts & Hrest).
    exists (t' :: ts'). split; [constructor; assumption|].
    destruct (trackChunk_inr _ _ _ Ec) as (e1 & b1 & _ & _ & Hcs).
    assert (Hne : exists x l, c ++ bs' = x :: l)
      by (rewrite Hcs; cbn [be_bytes app]; eexists; eexists; reflexivity).
    destruct Hne as (x & l & Hxl). cbn [decode_tracks]. rewrite Hxl. cbv beta iota zeta.
    rewrite <- Hxl, (trackChunk_size _ _ _ _ Ec) by lia.
    rewrite firstn_length_app, skipn_length_app, Hdec, Hrest. reflexivity.
Qed.

(** Each chunk has at least its 8 header bytes. *)
Lemma tracksBytes_length w tracks body :
  tracksBytes w tracks = inr body -> (length tracks <= length body)%nat.
Proof.
  revert body. induction tracks as [|t tracks IH]; intros body Hb; [cbn; lia|].
  cbn [tracksBytes] in Hb.
  destruct (trackChunk w t) as [err|c] eqn:Ec; [discriminate|].
  destruct (tracksBytes w tracks) as [err|bs'] eqn:Er; [discriminate|].
  injection Hb as <-. destruct (trackChunk_inr _ _ _ Ec) as (e1 & b1 & _ & _ & ->).
  specialize (IH _ eq_refl). rewrite !length_app, !be_bytes_length. cbn [length]. lia.
Qed.

(** ** Theorems *)

(** C16 (round trip): a track that the writer accepts reads back.  Its
    note events must have channels in [0, 15] and 7-bit data bytes.  Its
    names must be shorter than [2^28].  The [long] must have at least 32
    bits, and the chunk must be under 4 GiB.  The [MTrk] chunk then
    decodes to the track's events with the deltas the writer computed,
    followed by the end of track. *)
Theorem trackChunk_decode (long_bits : Z) (evs : list SMFEvent) (bs : list Z) :
  32 <= long_bits -> forallb wf_event evs = true ->
  trackChunk long_bits evs = inr bs -> Z.of_nat (length bs) < 2 ^ 32 ->
  exists evs', computeDeltas 0 0 evs = inr evs' /\
    decode_track_chunk bs = Some (map view evs' ++ [DEndOfTrack 0]).
Proof. apply chunk_decode. Qed.

Lemma trackChunk_decode_witness :
  exists bs, trackChunk 32 two_note_song = inr bs /\
  exists evs', computeDeltas 0 0 two_note_song = inr evs' /\
    decode_track_chunk bs = Some (map view evs' ++ [DEndOfTrack 0]).
Proof.
  eexists. split; [reflexivity|].
  apply (trackChunk_decode 32 two_note_song); [lia | reflexivity | reflexivity | vm_compute; reflexivity].
Defined.

(** C17 (round trip): a whole file that the writer accepts reads back.
    The format, the number of tracks and the division must fit in 16
    bits.  The events of every track must be well formed, and the [long]
    must have at least 32 bits.  The file must be under 4 GiB.  The file
    then decodes to its header fields and to each track's events, with
    the deltas the writer computed and the end of track. *)
Theorem fileBytes_decode (long_bits format division : Z) (tracks : list (list SMFEvent))
    (bs : list Z) :
  32 <= long_bits -> 0 <= format < 2 ^ 16 -> 0 <= division < 2 ^ 16 ->
  Z.of_nat (length tracks) < 2 ^ 16 ->
  Forall (fun t => forallb wf_event t = true) tracks ->
  fileBytes long_bits format division tracks = inr bs -> Z.of_nat (length bs) < 2 ^ 32 ->
  exists tracks', Forall2 (fun t t' => computeDeltas 0 0 t = inr t') tracks tracks' /\
    decode_file bs = Some (format, Z.of_nat (length tracks), division,
                           map (fun t' => map view t' ++ [DEndOfTrack 0]) tracks').
Proof.
  intros Hw Hf Hd Hn Hwf Hb Hlen. unfold fileBytes in Hb. rewrite writeHeader_bytes in Hb.
  destruct (tracksBytes long_bits tracks) as [err|body] eqn:Et; [discriminate|].
  assert (Hbs : bs = (be_bytes 4 MTHD ++ be_bytes 4 6 ++ be_bytes 2 format ++
                      be_bytes 2 (Z.of_nat (length tracks)) ++ be_bytes 2 division) ++ body)
    by (injection Hb as <-; reflexivity).
  subst bs. rewrite !length_app, !be_bytes_length in Hlen.
  destruct (tracksBytes_decode long_bits tracks body (S (length body)) Hw Hwf Et ltac:(lia)
              ltac:(pose proof (tracksBytes_length _ _ _ Et); lia)) as (ts' & Hts & Hdec).
  exists ts'. split; [exact Hts|]. unfold decode_file.
  rewrite <- !app_assoc, decode_header_bytes by lia. rewrite Hdec. reflexivity.
Qed.

Lemma fileBytes_decode_witness :
  exists bs, fileBytes 32 0 96 [two_note_song] = inr bs /\
  exists tracks', Forall2 (fun t t' => computeDeltas 0 0 t = inr t') [two_note_song] tracks' /\
    decode_file bs = Some (0, Z.of_nat (length [two_note_song]), 96,
                           map (fun t' => map view t' ++ [DEndOfTrack 0]) tracks').
Proof.
  eexists. split; [reflexivity|].
  apply (fileBytes_decode 32 0 96 [two_note_song]);
    [lia | split; [lia | reflexivity] | split; [lia | reflexivity] | reflexivity
    | repeat constructor | reflexivity | vm_compute; reflexivity].
Defined.

End Decode.
