(* ===== verification/ADSR.v ===== *)
(** * The ADSR envelope data of ADSR.h

    Only the class declaration is in the sources: its state enumeration,
    its public parameters with the constructor's default arguments, and
    its private state.  The envelope computation ([getValue], [release])
    lives in ADSR.cpp, which is not part of the sources.  C++ [float]
    fields are modelled as rationals: the code in the sources only stores
    and copies them. *)

From Stdlib Require Import QArith.

Module Envelope.

(** [enum ADSRState]. *)
Inductive ADSRState := ATTACK | DECAY | SUSTAIN | RELEASE | IDLE.

Definition ADSRState_eq_dec (a b : ADSRState) : {a = b} + {a <> b}.
Proof. decide equality. Defined.

(** [class ADSR]: public parameters, then private state. *)
Record ADSR := mkADSR {
  m_fAttack : Q;        (** attack time, in samples *)
  m_fDecay : Q;         (** decay time, in samples *)
  m_fSustain : Q;       (** sustain level *)
  m_fRelease : Q;       (** release time, in samples *)
  m_state : ADSRState;
  m_fTicks : Q;
  m_fValue : Q;
  m_fReleaseValue : Q
}.

(** The default arguments of [ADSR( fAttack = 0.0, fDecay = 0.0,
    fSustain = 1.0, fRelease = 1000 )], in that order. *)
Definition ADSR_default_args : Q * Q * Q * Q := (0, 0, 1, 1000)%Q.

(** [ADSR( const ADSR& orig )]: the copy used when an instrument is
    duplicated; its body is in ADSR.cpp, modelled as the copy of every
    field. *)
Definition copyADSR (orig : ADSR) : ADSR :=
  mkADSR (m_fAttack orig) (m_fDecay orig) (m_fSustain orig) (m_fRelease orig)
         (m_state orig) (m_fTicks orig) (m_fValue orig) (m_fReleaseValue orig).

Lemma copyADSR_id a : copyADSR a = a.
Proof. destruct a. reflexivity. Qed.

End Envelope.
