(* ===== verification/Drumkit.v ===== *)
(** * Drumkits: sound_library.cpp

    [Drumkit::install] (gunzip into a [.tar] file, then untar into the
    data directory), [Drumkit::load] and the drumkit lists (delegations
    to [LocalFileMng]), [Drumkit::save] (a copy of the song's instruments,
    handed to [LocalFileMng::saveDrumkit]), [Drumkit::dump] (its log
    lines) and [Drumkit::removeDrumkit] (a shell [rm -rf]).  The
    libraries the code calls (zlib, libtar, [system], [LocalFileMng]) are
    inputs of the model: the results they return are parameters, and the
    model records the calls made.  A NULL pointer is [None]; dereferencing
    one (a failed [fopen] in [install] included), writing past a
    fixed-size array ([strcpy] into a 1024-byte path buffer of
    [install]), or throwing [H2Exception], ends the operation with a
    [Fault].  The heap [save] allocates is modelled in DrumkitHeap. *)

From Stdlib Require Import ZArith QArith String Ascii List Lia.
From S2P Require Import Prelude ADSR.
Import ListNotations Envelope.
Open Scope Z_scope.

Module Kit.

(** ** Data *)

Record Sample := mkSample { sample_nFrames : Z; sample_filename : string }.

(** [InstrumentLayer]: its [Sample*] may be NULL ([None]). *)
Record InstrumentLayer := mkLayer {
  layer_sample : option Sample;
  layer_gain : Q; layer_pitch : Q;
  layer_start_velocity : Q; layer_end_velocity : Q
}.

(** [Instrument]: its layer slots, [get_layer( n )] for [n < MAX_LAYERS],
    each NULL ([None]) or a layer. *)
Record Instrument := mkInstrument {
  instr_id : string; instr_name : string; instr_adsr : ADSR;
  instr_volume : Q; instr_pan_l : Q; instr_pan_r : Q; instr_muted : bool;
  instr_random_pitch_factor : Q; instr_mute_group : Z;
  instr_filter_active : bool; instr_filter_cutoff : Q; instr_filter_resonance : Q;
  instr_drumkit_name : string;
  instr_layers : list (option InstrumentLayer)
}.

(** [class Drumkit]: its [InstrumentList*], NULL ([None]) until
    [setInstrumentList]. *)
Record Drumkit := mkDrumkit {
  m_sName : string; m_sAuthor : string; m_sInfo : string;
  m_pInstrumentList : option (list Instrument)
}.

(** [Drumkit::Drumkit()]: empty strings and [m_pInstrumentList( NULL )]. *)
Definition newDrumkit : Drumkit := mkDrumkit "" "" "" None.

(** The operations of [LocalFileMng] (LocalFileMng.cpp, not in the
    sources) that sound_library.cpp calls; what they return is an input
    of the model. *)
Record LocalFileMng := mkLocalFileMng {
  mng_loadDrumkit : string -> option Drumkit;
  mng_getUserDrumkitList : list string;
  mng_getSystemDrumkitList : list string
}.

(** [Drumkit::load]: [LocalFileMng mng; return mng.loadDrumkit( sFilename );]
    (a NULL result is [None]). *)
Definition load (mng : LocalFileMng) (sFilename : string) : option Drumkit :=
  mng_loadDrumkit mng sFilename.

(** [Drumkit::getUserDrumkitList] and [Drumkit::getSystemDrumkitList]:
    the lists [LocalFileMng] returns. *)
Definition getUserDrumkitList (mng : LocalFileMng) : list string := mng_getUserDrumkitList mng.
Definition getSystemDrumkitList (mng : LocalFileMng) : list string := mng_getSystemDrumkitList mng.

(** How an operation of this file ends when it does not return: a
    dereference of the named NULL pointer, a [strcpy] past the end of the
    named array, or a thrown [H2Exception]. *)
Inductive Fault :=
| NullDereference (pointer : string)
| BufferOverflow (array : string)
| H2Exception (msg : string).

(** ** QString helpers *)

(** [QString::indexOf]: the first position of a character, or -1. *)
Fixpoint indexOf (c : ascii) (s : string) : Z :=
  match s with
  | EmptyString => -1
  | String a s' => if Ascii.eqb a c then 0 else
                   let i := indexOf c s' in if i <? 0 then -1 else i + 1
  end.

(** [QString::left]: the first [n] characters; the whole string when [n]
    is negative or past the end. *)
Definition qleft (s : string) (n : Z) : string :=
  if (n <? 0) || (Z.of_nat (String.length s) <=? n) then s
  else substring 0 (Z.to_nat n) s.

(** The tab character of the [INFOLOG] strings. *)
Definition tab : string := String (ascii_of_nat 9) EmptyString.

(** [to_string( unsigned )]: the decimal digits, most significant first;
    [S n] turns of the digit loop are enough, since each turn divides by
    10. *)
Fixpoint decimal_digits (fuel n : nat) (acc : string) : string :=
  match fuel with
  | O => acc
  | S fuel' =>
      let acc' := String (ascii_of_nat (48 + n mod 10)) acc in
      if (n <? 10)%nat then acc' else decimal_digits fuel' (n / 10) acc'
  end.

Definition to_string (n : nat) : string := decimal_digits (S n) n EmptyString.

(** ** [Drumkit::install] *)

(** [filename.left( filename.indexOf( "." ) ) + ".tar"]. *)
Definition gunzippedName (filename : string) : string :=
  (qleft filename (indexOf "." filename) ++ ".tar")%string.

(** What one [gzread( gzipFile, buf, 4096 )] returns: some bytes, or
    0 at the end, or -1 on an error. *)
Inductive GzRead := GzData (bytes : list Z) | GzEnd | GzError.

Definition BUFSIZE : nat := 4096.

(** [while ( gzread( gzipFile, buf, 4096 ) > 0 )
       fwrite( buf, sizeof( uchar ), 4096, pGunzippedFile );]:
    each read overwrites the start of [buf], and each write copies all
    4096 bytes of it. *)
Fixpoint gunzipLoop (reads : list GzRead) (buf : list Z) : list Z :=
  match reads with
  | GzData c :: rest =>
      if (length c =? 0)%nat then []
      else let buf' := c ++ skipn (length c) buf in buf' ++ gunzipLoop rest buf'
  | _ => []
  end.

(** The library calls of [install], in order. *)
Inductive Call :=
| Fopen (name : string) | Gzopen (name : string) | Gzclose | Fclose
| TarOpen (name : string) | TarExtractAll (destDir : string) | TarClose.

(** The size of [char tarfilename[1024]] and [char destDir[1024]]. *)
Definition PATH_BUFSIZE : nat := 1024.

(** [strcpy] of a string into a [char[PATH_BUFSIZE]] array: it fits
    when its characters and the terminating NUL do. *)
Definition fits_path (s : string) : bool := (String.length s <? PATH_BUFSIZE)%nat.

(** The calls, the [_ERRORLOG] messages (their prefix: the text of
    [strerror( errno )] that [arg] appends comes from the C library and is
    left out), the bytes of the [.tar] file, the fault that ends the run,
    if any, and the [_INFOLOG] messages. *)
Record InstallRun := mkInstallRun {
  run_calls : list Call; run_errors : list string; run_tar : list Z;
  run_fault : option Fault; run_infos : list string
}.

(** [Drumkit::install].  Whether [fopen] returns a file is the input
    [fopen_ok]; the results of [tar_open], [tar_extract_all] and
    [tar_close] are the inputs [open_ok], [extract_ok], [close_ok]; none
    of these is checked before use.  A NULL [pGunzippedFile] is
    dereferenced by the first [fwrite], or by [fclose] when no read
    returned data.  Each [strcpy] into a 1024-byte array that does not
    fit overflows the stack.  Both end the model's run with a fault. *)
Definition install (dataDir filename : string) (reads : list GzRead) (buf0 : list Z)
    (fopen_ok open_ok extract_ok close_ok : bool) : InstallRun :=
  let name := gunzippedName filename in
  let gz := [Fopen name; Gzopen filename; Gzclose; Fclose] in
  let tar := gunzipLoop reads buf0 in
  let open_err := if open_ok then [] else ["[Drumkit::install] tar_open(): "%string] in
  let info := ["[Drumkit::install] drumkit = " ++ filename]%string in
  if negb fopen_ok then
    mkInstallRun (match tar with [] => [Fopen name; Gzopen filename; Gzclose]
                            | _ :: _ => [Fopen name; Gzopen filename] end)
      [] [] (Some (NullDereference "pGunzippedFile")) info
  else if negb (fits_path name) then
    mkInstallRun gz [] tar (Some (BufferOverflow "tarfilename")) info
  else if negb (fits_path dataDir) then
    mkInstallRun (gz ++ [TarOpen name]) open_err tar (Some (BufferOverflow "destDir")) info
  else
    mkInstallRun (gz ++ [TarOpen name; TarExtractAll dataDir; TarClose])
      (open_err ++
       (if extract_ok then [] else ["[Drumkit::install] tar_extract_all(): "%string]) ++
       (if close_ok then [] else ["[Drumkit::install] tar_close(): "%string]))
      tar None info.

(** ** [Drumkit::save] and [Drumkit::dump] *)

Section Layers.
(** What [new Instrument( id, name, adsr )] leaves in the fields that
    [save] does not set (Instrument.cpp is not in the sources). *)
Variable instrument_defaults : Instrument.
(** The number of layer slots of an instrument (Instrument.h). *)
Variable MAX_LAYERS : nat.

(** [Instrument::get_layer( nLayer )]. *)
Definition get_layer (i : Instrument) (nLayer : nat) : option InstrumentLayer :=
  nth nLayer (instr_layers i) None.

(** The slots the loops [for ( nLayer = 0; nLayer < MAX_LAYERS; ... )]
    visit. *)
Definition layer_slots (i : Instrument) : list (option InstrumentLayer) :=
  map (get_layer i) (seq 0 MAX_LAYERS).

(** The body of the layer loop of [save]: a NULL layer stays NULL; a
    layer gets a new [Sample( 0, pSample->get_filename() )], which
    dereferences [pSample] unchecked. *)
Definition copyLayer (ol : option InstrumentLayer) : Fault + option InstrumentLayer :=
  match ol with
  | Some l =>
      match layer_sample l with
      | Some smp => inr (Some (mkLayer (Some (mkSample 0 (sample_filename smp)))
                                 (layer_gain l) (layer_pitch l)
                                 (layer_start_velocity l) (layer_end_velocity l)))
      | None => inl (NullDereference "pSample")
      end
  | None => inr None
  end.

(** The body of the instrument loop of [save]: the new instrument gets
    the old one's settings and a copy of each layer slot; [sInstrDrumkit]
    is read and not used. *)
Definition copyInstrument (old : Instrument) : Fault + Instrument :=
  match traverse_sum copyLayer (layer_slots old) with
  | inl f => inl f
  | inr layers =>
      inr {| instr_id := instr_id old; instr_name := instr_name old;
             instr_adsr := copyADSR (instr_adsr old);
             instr_volume := instr_volume old; instr_pan_l := instr_pan_l old;
             instr_pan_r := instr_pan_r old; instr_muted := instr_muted old;
             instr_random_pitch_factor := instr_random_pitch_factor old;
             instr_mute_group := instr_mute_group old;
             instr_filter_active := instr_filter_active old;
             instr_filter_cutoff := instr_filter_cutoff old;
             instr_filter_resonance := instr_filter_resonance old;
             instr_drumkit_name := instr_drumkit_name instrument_defaults;
             instr_layers := layers |}
  end.

(** The drumkit [save] builds and hands to [saveDrumkit]. *)
Definition drumkitInfo (sName sAuthor sInfo : string) (song : list Instrument)
    : Fault + Drumkit :=
  match traverse_sum copyInstrument song with
  | inl f => inl f
  | inr l => inr (mkDrumkit sName sAuthor sInfo (Some l))
  end.

(** [Drumkit::save]: [throw H2Exception( "Error saving the drumkit" )]
    when [saveDrumkit] returns non-zero. *)
Definition save (sName sAuthor sInfo : string) (song : list Instrument)
    (saveDrumkit : Drumkit -> Z) : Fault + Drumkit :=
  match drumkitInfo sName sAuthor sInfo song with
  | inl f => inl f
  | inr info =>
      if saveDrumkit info =? 0 then inr info
      else inl (H2Exception "Error saving the drumkit")
  end.

(** What [save] logs: [_INFOLOG( "Saving drumkit" )] on entry, and
    [_ERRORLOG( "Error saving the drumkit" )] before the throw when
    [saveDrumkit] fails. *)
Definition save_logs (sName sAuthor sInfo : string) (song : list Instrument)
    (saveDrumkit : Drumkit -> Z) : list string :=
  "Saving drumkit"%string ::
  match drumkitInfo sName sAuthor sInfo song with
  | inl _ => []
  | inr info => if saveDrumkit info =? 0 then [] else ["Error saving the drumkit"%string]
  end.

(** The [INFOLOG] line of one layer slot in [dump]. *)
Definition layerLine (ol : option InstrumentLayer) : string :=
  match ol with
  | Some l =>
      match layer_sample l with
      | Some smp => (tab ++ tab ++ "   |- " ++ sample_filename smp)%string
      | None => (tab ++ tab ++ "   |- NULL sample")%string
      end
  | None => (tab ++ tab ++ "   |- NULL Layer")%string
  end.

(** The lines of the instrument loop of [dump], from index [k] of [n]. *)
Fixpoint instrumentLines (n k : nat) (l : list Instrument) : list string :=
  match l with
  | [] => []
  | i :: l' =>
      (tab ++ tab ++ "|- (" ++ to_string k ++ " of " ++ to_string n ++ ") Name = " ++
       instr_name i)%string
      :: map layerLine (layer_slots i) ++ instrumentLines n (S k) l'
  end.

(** [Drumkit::dump]: the lines it logs, and the fault that ends it when
    [m_pInstrumentList] is NULL (the loop condition reads its size). *)
Definition dump (d : Drumkit) : list string * option Fault :=
  let header := ["Drumkit dump"; tab ++ "|- Name = " ++ m_sName d;
                 tab ++ "|- Author = " ++ m_sAuthor d; tab ++ "|- Info = " ++ m_sInfo d;
                 tab ++ "|- Instrument list"]%string in
  match m_pInstrumentList d with
  | None => (header, Some (NullDereference "m_pInstrumentList"))
  | Some l => (header ++ instrumentLines (length l) 0 l, None)
  end.

(** The settings a drumkit keeps of an instrument: everything but the
    drumkit name and the sample data (frames) of its layers. *)
Definition layerSettings (ol : option InstrumentLayer) : option (string * Q * Q * Q * Q) :=
  match ol with
  | Some l => option_map (fun smp => (sample_filename smp, layer_gain l, layer_pitch l,
                                      layer_start_velocity l, layer_end_velocity l))
                         (layer_sample l)
  | None => None
  end.

Definition instrumentSettings (i : Instrument) :=
  (instr_id i, instr_name i, instr_adsr i, instr_volume i, instr_pan_l i, instr_pan_r i,
   instr_muted i, instr_random_pitch_factor i, instr_mute_group i, instr_filter_active i,
   instr_filter_cutoff i, instr_filter_resonance i, map layerSettings (layer_slots i)).

(** A layer slot [save] can copy: NULL, or a layer with a sample. *)
Definition slot_ok (ol : option InstrumentLayer) : bool :=
  match ol with Some l => match layer_sample l with Some _ => true | None => false end
              | None => true end.

Definition samples_present (i : Instrument) : bool := forallb slot_ok (layer_slots i).
End Layers.

(** ** [Drumkit::removeDrumkit] *)

Definition dquote : string := String (ascii_of_nat 34) EmptyString.

(** The command string of [removeDrumkit]: [rm -rf], a space, then the
    data directory followed by the drumkit's name between two
    double-quote characters. *)
Definition removeCommand (dataDirectory sDrumkitName : string) : string :=
  ("rm -rf " ++ dquote ++ (dataDirectory ++ sDrumkitName) ++ dquote)%string.

(** The exception [removeDrumkit] throws when [system] returns non-zero. *)
Definition removeDrumkit (dataDirectory sDrumkitName : string) (system : string -> Z)
    : Fault + unit :=
  let cmd := removeCommand dataDirectory sDrumkitName in
  if system cmd =? 0 then inr tt else inl (H2Exception ("Error executing '" ++ cmd ++ "'")).

(** What [removeDrumkit] logs: [_INFOLOG( "Removing drumkit: " + ... )],
    [_INFOLOG( cmd )], and [_ERRORLOG] before the throw. *)
Definition removeDrumkit_logs (dataDirectory sDrumkitName : string) (system : string -> Z)
    : list string :=
  let cmd := removeCommand dataDirectory sDrumkitName in
  app [("Removing drumkit: " ++ sDrumkitName)%string; cmd]
      (if system cmd =? 0 then [] else [("Error executing '" ++ cmd ++ "'")%string]).

(** ** Observations used by the theorems *)

(** The text a shell takes as the first double-quoted word of a command. *)
Fixpoint upto_quote (s : string) : string :=
  match s with
  | EmptyString => EmptyString
  | String a s' => if Ascii.eqb a (ascii_of_nat 34) then EmptyString else String a (upto_quote s')
  end.

Fixpoint first_quoted (s : string) : option string :=
  match s with
  | EmptyString => None
  | String a s' => if Ascii.eqb a (ascii_of_nat 34) then Some (upto_quote s') else first_quoted s'
  end.

Definition has_quote (s : string) : bool :=
  existsb (fun a => Ascii.eqb a (ascii_of_nat 34)) (list_ascii_of_string s).

Definition has_dot (s : string) : bool :=
  existsb (fun a => Ascii.eqb a "."%char) (list_ascii_of_string s).

(** ** Lemmas *)

Lemma indexOf_app_dot pre post :
  has_dot pre = false -> indexOf "." (pre ++ String "." post) = Z.of_nat (String.length pre).
Proof.
  induction pre as [|a pre IH]; intros H; [reflexivity|].
  cbn [has_dot list_ascii_of_string existsb] in H. apply Bool.orb_false_iff in H as [Ha Hp].
  cbn [String.append indexOf String.length]. rewrite Ha, IH by exact Hp.
  replace (Z.of_nat (String.length pre) <? 0) with false by (symmetry; apply Z.ltb_ge; lia). lia.
Qed.

Lemma substring_app_length pre post :
  substring 0 (String.length pre) (pre ++ post) = pre.
Proof.
  induction pre as [|a pre IH]; [destruct post; reflexivity|].
  cbn [String.append String.length substring]. rewrite IH. reflexivity.
Qed.

Lemma upto_quote_app s t :
  has_quote s = false -> upto_quote (s ++ t) = (s ++ upto_quote t)%string.
Proof.
  induction s as [|a s IH]; intros H; [reflexivity|].
  cbn [has_quote list_ascii_of_string existsb] in H. apply Bool.orb_false_iff in H as [Ha Hs].
  cbn [String.append upto_quote]. rewrite Ha, IH by exact Hs. reflexivity.
Qed.

Lemma string_length_app s t : String.length (s ++ t) = (String.length s + String.length t)%nat.
Proof. induction s as [|a s IH]; cbn; [reflexivity | rewrite IH; reflexivity]. Qed.

Lemma string_app_assoc s t u : ((s ++ t) ++ u)%string = (s ++ (t ++ u))%string.
Proof. induction s as [|a s IH]; cbn; [reflexivity | rewrite IH; reflexivity]. Qed.

Lemma upto_quote_app_quote s t : upto_quote (s ++ String (ascii_of_nat 34) t) = upto_quote s.
Proof.
  induction s as [|a s IH]; [reflexivity|]. cbn [String.append upto_quote].
  destruct (Ascii.eqb a (ascii_of_nat 34)); [reflexivity | rewrite IH; reflexivity].
Qed.

Lemma last_cons_default {A} (c : A) l d : last (c :: l) d = last l c.
Proof.
  revert c d. induction l as [|x l IH]; intros c d; [reflexivity|].
  change (last (x :: l) d = last (x :: l) c). rewrite !IH. reflexivity.
Qed.

(** Whole 4096-byte reads are written out unchanged, and the buffer then
    holds the last of them. *)
Lemma gunzipLoop_full full buf0 rest :
  Forall (fun c => length c = BUFSIZE) full -> length buf0 = BUFSIZE ->
  gunzipLoop (map GzData full ++ rest) buf0 = concat full ++ gunzipLoop rest (last full buf0) /\
  length (last full buf0) = BUFSIZE.
Proof.
  intros Hf. revert buf0. induction Hf as [|c full Hc Hf IH]; intros buf0 Hb;
    [split; [reflexivity | assumption]|].
  cbn [map app gunzipLoop concat]. rewrite Hc.
  rewrite (skipn_all2 buf0) by lia. rewrite app_nil_r, last_cons_default.
  destruct (IH c Hc) as [Hl Hlen]. rewrite Hl, app_assoc. split; [reflexivity | exact Hlen].
Qed.

Section SaveLemmas.
Variable defaults : Instrument.
Variable MAX_LAYERS : nat.

Lemma layer_slots_length i : length (layer_slots MAX_LAYERS i) = MAX_LAYERS.
Proof. unfold layer_slots. rewrite length_map, length_seq. reflexivity. Qed.

(** A copied slot keeps its settings and has a sample. *)
Lemma copyLayer_inr ol ol' :
  copyLayer ol = inr ol' ->
  layerSettings ol' = layerSettings ol /\ slot_ok ol = true /\ slot_ok ol' = true.
Proof.
  destruct ol as [l|]; cbn [copyLayer]; [|intros H; injection H as <-; auto].
  destruct (layer_sample l) eqn:Es; [|discriminate]. intros H; injection H as <-.
  cbn [layerSettings slot_ok layer_sample option_map]. rewrite Es. auto.
Qed.

Lemma copyLayer_inl ol e : copyLayer ol = inl e -> e = NullDereference "pSample".
Proof.
  destruct ol as [l|]; cbn [copyLayer]; [|discriminate].
  destruct (layer_sample l); [discriminate | congruence].
Qed.

Lemma copyLayer_ok ol : slot_ok ol = true -> exists ol', copyLayer ol = inr ol'.
Proof.
  destruct ol as [l|]; cbn [slot_ok copyLayer]; [|eauto].
  destruct (layer_sample l); [eauto | discriminate].
Qed.

(** A copied instrument keeps its settings, loses its drumkit name, and
    has a sample in every layer. *)
Lemma copyInstrument_inr i i' :
  copyInstrument defaults MAX_LAYERS i = inr i' ->
  instrumentSettings MAX_LAYERS i' = instrumentSettings MAX_LAYERS i /\
  instr_drumkit_name i' = instr_drumkit_name defaults /\
  samples_present MAX_LAYERS i = true /\ samples_present MAX_LAYERS i' = true.
Proof.
  unfold copyInstrument. destruct (traverse_sum copyLayer (layer_slots MAX_LAYERS i))
    as [e|layers] eqn:Et; [discriminate|]. intros H; injection H as <-.
  apply traverse_sum_inr in Et.
  assert (Hslots : layer_slots MAX_LAYERS
                     {| instr_id := instr_id i; instr_name := instr_name i;
                        instr_adsr := copyADSR (instr_adsr i); instr_volume := instr_volume i;
                        instr_pan_l := instr_pan_l i; instr_pan_r := instr_pan_r i;
                        instr_muted := instr_muted i;
                        instr_random_pitch_factor := instr_random_pitch_factor i;
                        instr_mute_group := instr_mute_group i;
                        instr_filter_active := instr_filter_active i;
                        instr_filter_cutoff := instr_filter_cutoff i;
                        instr_filter_resonance := instr_filter_resonance i;
                        instr_drumkit_name := instr_drumkit_name defaults;
                        instr_layers := layers |} = layers).
  { unfold layer_slots, get_layer. cbn [instr_layers].
    rewrite <- (layer_slots_length i), (Forall2_length Et). apply map_nth_seq. }
  unfold instrumentSettings, samples_present. rewrite Hslots. cbn -[layer_slots].
  rewrite copyADSR_id, (Forall2_map_eq layerSettings layerSettings _ _ _
                          (fun x y H => proj1 (copyLayer_inr x y H)) Et).
  split; [reflexivity|]. split; [reflexivity|]. split.
  - apply forallb_forall, Forall_forall.
    exact (Forall2_Forall_l _ _ _ _ (fun x y H => proj1 (proj2 (copyLayer_inr x y H))) Et).
  - apply forallb_forall, Forall_forall.
    exact (Forall2_Forall_r _ _ _ _ (fun x y H => proj2 (proj2 (copyLayer_inr x y H))) Et).
Qed.

Lemma copyInstrument_inl i e :
  copyInstrument defaults MAX_LAYERS i = inl e -> e = NullDereference "pSample".
Proof.
  unfold copyInstrument. destruct (traverse_sum copyLayer (layer_slots MAX_LAYERS i))
    as [e'|layers] eqn:Et; [|discriminate]. intros H; injection H as <-.
  destruct (traverse_sum_inl_elem _ _ _ Et) as [x [_ Hx]]. exact (copyLayer_inl _ _ Hx).
Qed.

Lemma copyInstrument_ok i :
  samples_present MAX_LAYERS i = true -> exists i', copyInstrument defaults MAX_LAYERS i = inr i'.
Proof.
  intros H. unfold copyInstrument.
  destruct (traverse_sum_succeeds copyLayer slot_ok _ copyLayer_ok H) as [ls ->]. eauto.
Qed.

(** The number of lines [dump] logs for a list of instruments. *)
Lemma instrumentLines_length n k l :
  length (instrumentLines MAX_LAYERS n k l) = (length l * S MAX_LAYERS)%nat.
Proof.
  revert k. induction l as [|i l IH]; intros k; [reflexivity|].
  cbn [instrumentLines length]. rewrite length_app, length_map, layer_slots_length, IH. lia.
Qed.
End SaveLemmas.

(** [install] runs to its end exactly when [fopen] succeeded and both
    [strcpy]s fit. *)
Lemma install_runs (dataDir filename : string) (reads : list GzRead) (buf0 : list Z)
    (fopen_ok open_ok extract_ok close_ok : bool) :
  run_fault (install dataDir filename reads buf0 fopen_ok open_ok extract_ok close_ok) = None <->
  fopen_ok = true /\ fits_path (gunzippedName filename) = true /\ fits_path dataDir = true.
Proof.
  unfold install. destruct fopen_ok, (fits_path (gunzippedName filename)), (fits_path dataDir);
    cbn [negb run_fault]; split; try intros (H1 & H2 & H3); try intros H; easy.
Qed.

(** ** Theorems *)

(** C20 (functional): [install]'s gunzip loop writes 4096 bytes per read
    whatever [gzread] returned.  When the compressed file does not end on
    a 4096-byte boundary, the [.tar] file gets, after the data, the
    [4096 - n] stale bytes left in the buffer by the previous read. *)
Theorem gunzipLoop_stale_tail (full : list (list Z)) (lastc buf0 : list Z) :
  Forall (fun c => length c = BUFSIZE) full -> length buf0 = BUFSIZE ->
  (0 < length lastc < BUFSIZE)%nat ->
  exists stale, gunzipLoop (map GzData full ++ [GzData lastc; GzEnd]) buf0 =
                concat full ++ lastc ++ stale /\
                length stale = (BUFSIZE - length lastc)%nat.
Proof.
  intros Hf Hb Hl. destruct (gunzipLoop_full full buf0 [GzData lastc; GzEnd] Hf Hb) as [-> Hlen].
  exists (skipn (length lastc) (last full buf0)). cbn [gunzipLoop].
  replace (length lastc =? 0)%nat with false by (symmetry; apply Nat.eqb_neq; lia).
  rewrite app_nil_r, length_skipn, Hlen. split; reflexivity.
Qed.

Lemma gunzipLoop_stale_tail_witness :
  exists stale, gunzipLoop (map GzData [] ++ [GzData [1; 2; 3]; GzEnd]) (repeat 0 BUFSIZE) =
                concat [] ++ [1; 2; 3] ++ stale /\
                length stale = (BUFSIZE - length [1; 2; 3])%nat.
Proof.
  apply gunzipLoop_stale_tail; [apply Forall_nil | apply repeat_length | unfold BUFSIZE; cbn; lia].
Defined.



(** C21 (functional): the [.tar] name is cut at the first dot of the whole
    path, not at the extension: a dot in a directory name puts the [.tar]
    file in a parent directory under a wrong name. *)
Theorem gunzippedName_first_dot (pre post : string) :
  has_dot pre = false -> gunzippedName (pre ++ String "." post) = (pre ++ ".tar")%string.
Proof.
  intros H. unfold gunzippedName, qleft. rewrite indexOf_app_dot by exact H.
  rewrite string_length_app. cbn [String.length].
  replace ((Z.of_nat (String.length pre) <? 0) ||
           (Z.of_nat (String.length pre + S (String.length post)) <=? Z.of_nat (String.length pre)))
    with false by (symmetry; apply Bool.orb_false_iff; split; [apply Z.ltb_ge | apply Z.leb_gt]; lia).
  rewrite Nat2Z.id, substring_app_length. reflexivity.
Qed.

Lemma gunzippedName_first_dot_witness :
  gunzippedName ("/home/user/" ++ String "." "hydrogen/data/drumkits/TR808.h2drumkit") =
  ("/home/user/" ++ ".tar")%string.
Proof. apply gunzippedName_first_dot. reflexivity. Defined.

(** C23 (functional, error): when every layer of the song has a sample,
    [save] builds a drumkit with the given name, author and info and a
    copy of every instrument that keeps all its settings and the file
    names of its samples; the drumkit name of each instrument is not
    copied (it is read into [sInstrDrumkit] and dropped).  That drumkit
    is returned when [saveDrumkit] returns 0; otherwise [save] throws
    "Error saving the drumkit". *)
Theorem save_copies_settings (defaults : Instrument) (MAX_LAYERS : nat)
    (sName sAuthor sInfo : string) (song : list Instrument) (saveDrumkit : Drumkit -> Z) :
  forallb (samples_present MAX_LAYERS) song = true ->
  exists info l,
    drumkitInfo defaults MAX_LAYERS sName sAuthor sInfo song = inr info /\
    m_sName info = sName /\ m_sAuthor info = sAuthor /\ m_sInfo info = sInfo /\
    m_pInstrumentList info = Some l /\
    map (instrumentSettings MAX_LAYERS) l = map (instrumentSettings MAX_LAYERS) song /\
    Forall (fun i => instr_drumkit_name i = instr_drumkit_name defaults) l /\
    save defaults MAX_LAYERS sName sAuthor sInfo song saveDrumkit =
      (if saveDrumkit info =? 0 then inr info
       else inl (H2Exception "Error saving the drumkit")).
Proof.
  intros H. unfold save, drumkitInfo.
  destruct (traverse_sum_succeeds _ _ _ (copyInstrument_ok defaults MAX_LAYERS) H) as [l El].
  rewrite El. apply traverse_sum_inr in El.
  do 2 eexists. do 5 (split; [reflexivity|]). split; [|split; [|reflexivity]].
  - exact (Forall2_map_eq _ _ _ _ _ (fun x y Hc => proj1 (copyInstrument_inr _ _ x y Hc)) El).
  - exact (Forall2_Forall_r _ _ _ _ (fun x y Hc => proj1 (proj2 (copyInstrument_inr _ _ x y Hc))) El).
Qed.

Lemma save_copies_settings_witness :
  let adsr := mkADSR 0 0 1 1000 IDLE 0 0 0 in
  let layer := mkLayer (Some (mkSample 44100 "kick.wav")) 1 0 0 1 in
  let kick := mkInstrument "0" "Kick" adsr 1 1 1 false 0 (-1) false 1 0 "TR808" [Some layer; None] in
  forallb (samples_present 2) [kick] = true /\
  exists info l,
    drumkitInfo kick 2 "MyKit" "me" "info" [kick] = inr info /\
    m_sName info = "MyKit"%string /\ m_sAuthor info = "me"%string /\
    m_sInfo info = "info"%string /\ m_pInstrumentList info = Some l /\
    map (instrumentSettings 2) l = map (instrumentSettings 2) [kick] /\
    Forall (fun i => instr_drumkit_name i = instr_drumkit_name kick) l /\
    save kick 2 "MyKit" "me" "info" [kick] (fun _ => 0) =
      (if (fun (_ : Drumkit) => 0) info =? 0 then inr info
       else inl (H2Exception "Error saving the drumkit")).
Proof.
  intros adsr layer kick. split; [reflexivity|].
  apply (save_copies_settings kick 2 "MyKit" "me" "info" [kick] (fun _ => 0)). reflexivity.
Defined.

(** C25 (error): [save] copies each layer's sample as
    [new Sample( 0, pSample->get_filename() )] without the NULL check
    that [dump] makes.  As soon as one of the [MAX_LAYERS] slots of one
    instrument holds a layer without a sample, [save] dereferences NULL,
    whatever [saveDrumkit] would do; otherwise it does not fault there. *)
Theorem save_null_sample (defaults : Instrument) (MAX_LAYERS : nat)
    (sName sAuthor sInfo : string) (song : list Instrument) (saveDrumkit : Drumkit -> Z) :
  forallb (samples_present MAX_LAYERS) song = false ->
  save defaults MAX_LAYERS sName sAuthor sInfo song saveDrumkit =
    inl (NullDereference "pSample").
Proof.
  intros H. unfold save, drumkitInfo.
  rewrite (traverse_sum_fails _ _ _ _
             (fun x y Hc => proj1 (proj2 (proj2 (copyInstrument_inr defaults MAX_LAYERS x y Hc))))
             (copyInstrument_inl defaults MAX_LAYERS) H).
  reflexivity.
Qed.

Lemma save_null_sample_witness :
  let adsr := mkADSR 0 0 1 1000 IDLE 0 0 0 in
  let kick := mkInstrument "0" "Kick" adsr 1 1 1 false 0 (-1) false 1 0 "TR808"
                [Some (mkLayer (Some (mkSample 44100 "kick.wav")) 1 0 0 1);
                 Some (mkLayer None 1 0 0 1)] in
  forallb (samples_present 16) [kick] = false /\
  save kick 16 "MyKit" "me" "info" [kick] (fun _ => 0) = inl (NullDereference "pSample").
Proof.
  intros adsr kick. split; [reflexivity|]. apply save_null_sample. reflexivity.
Defined.

(** C27 (functional): the drumkit [save] returns can be dumped: [dump]
    logs its five header lines and, for each instrument, one line and one
    line per layer slot, without a fault; each of its layers has a
    sample, so no slot logs "NULL sample". *)
Theorem save_then_dump (defaults : Instrument) (MAX_LAYERS : nat)
    (sName sAuthor sInfo : string) (song : list Instrument) (saveDrumkit : Drumkit -> Z)
    (info : Drumkit) :
  save defaults MAX_LAYERS sName sAuthor sInfo song saveDrumkit = inr info ->
  exists l, m_pInstrumentList info = Some l /\
    forallb (samples_present MAX_LAYERS) l = true /\
    snd (dump MAX_LAYERS info) = None /\
    length (fst (dump MAX_LAYERS info)) = (5 + length song * S MAX_LAYERS)%nat.
Proof.
  unfold save, drumkitInfo. destruct (traverse_sum (copyInstrument defaults MAX_LAYERS) song)
    as [e|l] eqn:Et; [discriminate|].
  destruct (_ =? 0); [|discriminate]. intros H; injection H as <-.
  apply traverse_sum_inr in Et. exists l. split; [reflexivity|]. split.
  - apply forallb_forall, Forall_forall.
    exact (Forall2_Forall_r _ _ _ _
             (fun x y Hc => proj2 (proj2 (proj2 (copyInstrument_inr _ _ x y Hc)))) Et).
  - unfold dump. cbn [m_pInstrumentList fst snd]. split; [reflexivity|].
    rewrite length_app, instrumentLines_length, <- (Forall2_length Et). reflexivity.
Qed.

Lemma save_then_dump_witness :
  let adsr := mkADSR 0 0 1 1000 IDLE 0 0 0 in
  let kick := mkInstrument "0" "Kick" adsr 1 1 1 false 0 (-1) false 1 0 "TR808"
                [Some (mkLayer (Some (mkSample 44100 "kick.wav")) 1 0 0 1)] in
  exists info,
    save kick 2 "MyKit" "me" "info" [kick] (fun _ => 0) = inr info /\
    exists l, m_pInstrumentList info = Some l /\
      forallb (samples_present 2) l = true /\
      snd (dump 2 info) = None /\
      length (fst (dump 2 info)) = (5 + length [kick] * S 2)%nat.
Proof.
  intros adsr kick. eexists. split; [reflexivity|].
  apply (save_then_dump kick 2 "MyKit" "me" "info" [kick] (fun _ => 0)). reflexivity.
Defined.

(** C30 (error): [Drumkit::dump] faults exactly on a drumkit whose
    [m_pInstrumentList] is NULL, after logging its five header lines: the
    condition of its instrument loop dereferences the list.  A drumkit
    just constructed is one: [Drumkit()] sets the list to NULL, so [dump]
    cannot run on it before [setInstrumentList]. *)
Theorem dump_new_drumkit (MAX_LAYERS : nat) (d : Drumkit) :
  m_pInstrumentList newDrumkit = None /\
  (m_pInstrumentList d = None <->
   dump MAX_LAYERS d =
     (["Drumkit dump"; tab ++ "|- Name = " ++ m_sName d; tab ++ "|- Author = " ++ m_sAuthor d;
       tab ++ "|- Info = " ++ m_sInfo d; tab ++ "|- Instrument list"]%string,
      Some (NullDereference "m_pInstrumentList"))).
Proof.
  split; [reflexivity|]. unfold dump.
  destruct (m_pInstrumentList d); split; intros H; try reflexivity; discriminate.
Qed.

(** C24 (safety): [removeDrumkit] quotes the path but not the quotes in
    it: the word the shell removes is the data directory followed by the
    drumkit name up to its first double quote.  A name with a quote ends
    the quoted word early and the rest of the name is run as shell code;
    an empty name removes the whole data directory. *)
Theorem removeCommand_quoted_word (dataDirectory sDrumkitName : string) :
  has_quote dataDirectory = false ->
  first_quoted (removeCommand dataDirectory sDrumkitName) =
  Some (dataDirectory ++ upto_quote sDrumkitName)%string.
Proof.
  intros H. unfold removeCommand, dquote. cbn [String.append first_quoted].
  change (Ascii.eqb (ascii_of_nat 34) (ascii_of_nat 34)) with true. cbv iota.
  rewrite string_app_assoc, (upto_quote_app dataDirectory) by exact H.
  rewrite upto_quote_app_quote. reflexivity.
Qed.

(** A name that closes the quote: the shell removes [dataDirectory ++
    "kit"] and then runs [; rm -rf ~ ;]. *)
Lemma removeCommand_quoted_word_witness :
  first_quoted (removeCommand "/home/user/.hydrogen/data/"
                  ("kit" ++ dquote ++ " ; rm -rf ~ ; " ++ dquote)) =
  Some ("/home/user/.hydrogen/data/" ++
        upto_quote ("kit" ++ dquote ++ " ; rm -rf ~ ; " ++ dquote))%string /\
  upto_quote ("kit" ++ dquote ++ " ; rm -rf ~ ; " ++ dquote) = "kit"%string.
Proof. split; [apply removeCommand_quoted_word; reflexivity | reflexivity]. Defined.
End Kit.
