(* ===== verification/DrumkitHeap.v ===== *)
(** * The objects [Drumkit::save] allocates and frees

    [Drumkit::save] (sound_library.cpp) builds the drumkit it saves on
    the heap: [new Drumkit()], [new InstrumentList()], and for every
    instrument of the song a [new ADSR] and a [new Instrument], and for
    every layer a [new Sample] and a [new InstrumentLayer].  At the end it
    runs [delete pDrumkitInfo], whose destructor [Drumkit::~Drumkit]
    deletes [m_pInstrumentList].  This file models the heap as the set of
    live objects (stdpp's [gset]), each object named by its role and its
    instrument and layer indices, and [save] as the sequence of [new] and
    [delete] it executes up to its end or its fault.  The destructor of
    [InstrumentList] is in InstrumentList.cpp, not in the sources: what it
    frees is a parameter of the model, [list_dtor], the objects its body
    deletes. *)

From Stdlib Require Import ZArith String List.
From stdpp Require Import base list gmap countable.
From S2P Require Import Prelude Drumkit.
Import ListNotations Kit.

Module Heap.
Local Open Scope nat_scope.

(** The objects of the heap [save] touches. *)
Inductive HeapObj :=
| ODrumkit
| OInstrumentList
| OADSR (nInstrument : nat)
| OInstrument (nInstrument : nat)
| OSample (nInstrument nLayer : nat)
| OLayer (nInstrument nLayer : nat).

#[export] Instance HeapObj_eq_dec : EqDecision HeapObj.
Proof. solve_decision. Defined.

#[export] Instance HeapObj_countable : Countable HeapObj.
Proof.
  refine (inj_countable'
    (fun o => match o with
              | ODrumkit => (0, 0, 0) | OInstrumentList => (1, 0, 0)
              | OADSR i => (2, i, 0) | OInstrument i => (3, i, 0)
              | OSample i l => (4, i, l) | OLayer i l => (5, i, l)
              end)
    (fun t => match t with
              | (0, _, _) => ODrumkit | (1, _, _) => OInstrumentList
              | (2, i, _) => OADSR i | (3, i, _) => OInstrument i
              | (4, i, l) => OSample i l | (_, i, l) => OLayer i l
              end) _).
  intros []; reflexivity.
Defined.

(** A [new] or a [delete]. *)
Inductive HeapOp := New (o : HeapObj) | Delete (o : HeapObj).

(** The live objects after one operation and after a sequence. *)
Definition heap_step (h : gset HeapObj) (op : HeapOp) : gset HeapObj :=
  match op with
  | New o => {[o]} ∪ h
  | Delete o => h ∖ {[o]}
  end.

Definition run_heap (h : gset HeapObj) (ops : list HeapOp) : gset HeapObj :=
  foldl heap_step h ops.

Section Save.
(** The number of layer slots (Instrument.h). *)
Variable MAX_LAYERS : nat.

(** The layer loop of instrument [i] from slot [l]: a NULL layer
    allocates nothing; a layer's [pSample->get_filename()] is read before
    [new Sample] and [new InstrumentLayer( pNewSample )], and faults when
    the sample is NULL. *)
Fixpoint layers_heap (i l : nat) (slots : list (option InstrumentLayer))
    : list HeapOp * option Fault :=
  match slots with
  | [] => ([], None)
  | None :: rest => layers_heap i (S l) rest
  | Some ly :: rest =>
      match layer_sample ly with
      | None => ([], Some (NullDereference "pSample"))
      | Some _ =>
          let '(ops, f) := layers_heap i (S l) rest in
          (New (OSample i l) :: New (OLayer i l) :: ops, f)
      end
  end.

(** The instrument loop from instrument [i]:
    [new Instrument( ..., new ADSR( ... ) )] (the argument first), then
    its layers. *)
Fixpoint instruments_heap (i : nat) (song : list Instrument) : list HeapOp * option Fault :=
  match song with
  | [] => ([], None)
  | old :: rest =>
      let '(ops, f) := layers_heap i 0 (layer_slots MAX_LAYERS old) in
      let ops' := New (OADSR i) :: New (OInstrument i) :: ops in
      match f with
      | Some flt => (ops', Some flt)
      | None => let '(ops2, f2) := instruments_heap (S i) rest in (ops' ++ ops2, f2)
      end
  end.
End Save.

(** [delete pDrumkitInfo]: [Drumkit::~Drumkit] runs
    [delete m_pInstrumentList], that is the body of [~InstrumentList]
    (the deletes [list_dtor], not in the sources) and the release of the
    list, then the drumkit's storage is freed. *)
Definition drumkit_delete (list_dtor : list HeapObj) : list HeapOp :=
  map Delete list_dtor ++ [Delete OInstrumentList; Delete ODrumkit].

(** The heap operations of [Drumkit::save], in order, and the fault that
    ends it: [new Drumkit()], [new InstrumentList()], the loops, then
    either the thrown [H2Exception] or [delete pDrumkitInfo]. *)
Definition save_heap (list_dtor : list HeapObj) (defaults : Instrument) (MAX_LAYERS : nat)
    (sName sAuthor sInfo : string) (song : list Instrument) (saveDrumkit : Drumkit -> Z)
    : list HeapOp * option Fault :=
  let '(ops, f) := instruments_heap MAX_LAYERS 0 song in
  let allocs := New ODrumkit :: New OInstrumentList :: ops in
  match f with
  | Some flt => (allocs, Some flt)
  | None =>
      match save defaults MAX_LAYERS sName sAuthor sInfo song saveDrumkit with
      | inl flt => (allocs, Some flt)
      | inr _ => (allocs ++ drumkit_delete list_dtor, None)
      end
  end.

(** An allocation. *)
Definition is_new (op : HeapOp) : Prop := match op with New _ => True | Delete _ => False end.

(** An operation that allocates one of the objects the loops create. *)
Definition loop_alloc (op : HeapOp) : Prop :=
  match op with
  | New (OADSR _ | OInstrument _ | OSample _ _ | OLayer _ _) => True
  | _ => False
  end.

(** ** Lemmas *)

Lemma run_heap_app h a b : run_heap h (a ++ b) = run_heap (run_heap h a) b.
Proof. unfold run_heap. apply foldl_app. Qed.

(** Allocations only: the heap keeps what it had and gains every object
    allocated. *)
Lemma run_heap_allocs h ops o :
  Forall is_new ops -> o ∈ h \/ In (New o) ops -> o ∈ run_heap h ops.
Proof.
  revert h. induction ops as [|op ops IH]; intros h Hops Ho; cbn [run_heap foldl] in *.
  - destruct Ho as [Ho|[]]. exact Ho.
  - inversion Hops as [|? ? Hop Hops']. fold (run_heap (heap_step h op) ops).
    apply IH; [exact Hops'|]. destruct op as [o'|o']; [|destruct Hop].
    destruct Ho as [Ho|[Ho|Ho]]; [left; set_solver | injection Ho as ->; left; set_solver | right; exact Ho].
Qed.

(** Deleting other objects keeps an object live. *)
Lemma run_heap_deletes h ds o :
  o ∈ h -> ~ In o ds -> o ∈ run_heap h (map Delete ds).
Proof.
  revert h. induction ds as [|d ds IH]; intros h Ho Hds; [exact Ho|].
  cbn [map run_heap foldl heap_step]. fold (run_heap (h ∖ {[d]}) (map Delete ds)).
  apply IH; [|intros Hin; apply Hds; right; exact Hin].
  assert (o <> d) by (intros ->; apply Hds; left; reflexivity). set_solver.
Qed.

Lemma loop_alloc_new ops : Forall loop_alloc ops -> Forall is_new ops.
Proof. apply Forall_impl. intros [[]|]; cbn; tauto. Qed.

Lemma layers_heap_alloc i l slots : Forall loop_alloc (fst (layers_heap i l slots)).
Proof.
  revert l. induction slots as [|[ly|] rest IH]; intros l; cbn [layers_heap]; [constructor| |apply IH].
  destruct (layer_sample ly); [|constructor].
  specialize (IH (S l)). destruct (layers_heap i (S l) rest) as [ops f].
  repeat constructor. exact IH.
Qed.

(** The layer loop faults exactly where [save]'s copy of the layers does. *)
Lemma layers_heap_fault i l slots :
  snd (layers_heap i l slots) =
    match traverse_sum copyLayer slots with inl e => Some e | inr _ => None end.
Proof.
  revert l. induction slots as [|[ly|] rest IH]; intros l; cbn [layers_heap traverse_sum copyLayer];
    [reflexivity| |rewrite IH; destruct (traverse_sum copyLayer rest); reflexivity].
  destruct (layer_sample ly); [|reflexivity].
  specialize (IH (S l)). destruct (layers_heap i (S l) rest) as [ops f]. cbn [snd] in *.
  rewrite IH. destruct (traverse_sum copyLayer rest); reflexivity.
Qed.

Section Instruments.
Variable defaults : Instrument.
Variable MAX_LAYERS : nat.

Lemma instruments_heap_alloc i song : Forall loop_alloc (fst (instruments_heap MAX_LAYERS i song)).
Proof.
  revert i. induction song as [|old rest IH]; intros i; cbn [instruments_heap]; [constructor|].
  pose proof (layers_heap_alloc i 0 (layer_slots MAX_LAYERS old)) as Hl.
  destruct (layers_heap i 0 (layer_slots MAX_LAYERS old)) as [ops [flt|]];
    [repeat constructor; exact Hl|].
  specialize (IH (S i)). destruct (instruments_heap MAX_LAYERS (S i) rest) as [ops2 f2].
  cbn [fst] in *. apply Forall_app. split; [repeat constructor; exact Hl | exact IH].
Qed.

Lemma instruments_heap_fault i song :
  snd (instruments_heap MAX_LAYERS i song) =
    match traverse_sum (copyInstrument defaults MAX_LAYERS) song with
    | inl e => Some e | inr _ => None end.
Proof.
  revert i. induction song as [|old rest IH]; intros i; cbn [instruments_heap traverse_sum];
    [reflexivity|].
  pose proof (layers_heap_fault i 0 (layer_slots MAX_LAYERS old)) as Hl.
  unfold copyInstrument at 1.
  destruct (layers_heap i 0 (layer_slots MAX_LAYERS old)) as [ops f].
  cbn [snd] in Hl. subst f.
  destruct (traverse_sum copyLayer (layer_slots MAX_LAYERS old)); [reflexivity|].
  specialize (IH (S i)). destruct (instruments_heap MAX_LAYERS (S i) rest) as [ops2 f2].
  cbn [snd] in *. rewrite IH. destruct (traverse_sum (copyInstrument defaults MAX_LAYERS) rest); reflexivity.
Qed.
End Instruments.

(** ** Theorems *)

(** C26 (error): [save] frees what it allocated only when it returns.
    When it throws [H2Exception] because [saveDrumkit] failed (or
    dereferences a NULL sample), it has run no [delete]: the drumkit, its
    instrument list and every instrument, ADSR, sample and layer it
    allocated are still live and unreachable, a leak.  When it returns,
    whatever [~InstrumentList] frees, [delete pDrumkitInfo] has freed the
    drumkit and its instrument list, and [save] itself has freed nothing
    else: every other object it allocated is live unless the list's
    destructor deletes it. *)
Theorem save_leaks_on_throw (list_dtor : list HeapObj) (defaults : Instrument) (MAX_LAYERS : nat)
    (sName sAuthor sInfo : string) (song : list Instrument) (saveDrumkit : Drumkit -> Z)
    (h : gset HeapObj) :
  let r := save_heap list_dtor defaults MAX_LAYERS sName sAuthor sInfo song saveDrumkit in
  match save defaults MAX_LAYERS sName sAuthor sInfo song saveDrumkit with
  | inl flt =>
      snd r = Some flt /\ (forall o, In (New o) (fst r) -> o ∈ run_heap h (fst r))
  | inr _ =>
      snd r = None /\ (ODrumkit ∉ run_heap h (fst r)) /\ (OInstrumentList ∉ run_heap h (fst r)) /\
      (forall o, In (New o) (fst r) -> o <> ODrumkit -> o <> OInstrumentList -> ~ In o list_dtor ->
                 o ∈ run_heap h (fst r))
  end.
Proof.
  cbv zeta. unfold save_heap.
  pose proof (instruments_heap_fault defaults MAX_LAYERS 0 song) as Hf.
  pose proof (instruments_heap_alloc MAX_LAYERS 0 song) as Ha.
  destruct (instruments_heap MAX_LAYERS 0 song) as [ops f]. cbn [fst snd] in Hf, Ha. subst f.
  assert (Hn : Forall is_new (New ODrumkit :: New OInstrumentList :: ops))
    by (repeat constructor; exact (loop_alloc_new _ Ha)).
  unfold save, drumkitInfo.
  destruct (traverse_sum (copyInstrument defaults MAX_LAYERS) song) as [e|l].
  - split; [reflexivity|]. intros o Ho. apply run_heap_allocs; [exact Hn | right; exact Ho].
  - destruct (saveDrumkit _ =? 0)%Z.
    + cbn [fst snd]. rewrite run_heap_app. unfold drumkit_delete. rewrite run_heap_app.
      set (h1 := run_heap h _).
      assert (Hall : forall o, In (New o) (New ODrumkit :: New OInstrumentList :: ops) -> o ∈ h1)
        by (intros o Ho; apply run_heap_allocs; [exact Hn | right; exact Ho]).
      cbn [run_heap foldl heap_step].
      split; [reflexivity|]. split; [set_solver|]. split; [set_solver|].
      intros o Ho Hd Hl Hdt. apply in_app_or in Ho as [Ho|Ho].
      * pose proof (run_heap_deletes h1 list_dtor o (Hall o Ho) Hdt). set_solver.
      * apply in_app_or in Ho as [Ho|[Ho|[Ho|[]]]]; try discriminate.
        apply in_map_iff in Ho as (x & Hx & _). discriminate.
    + split; [reflexivity|]. intros o Ho. apply run_heap_allocs; [exact Hn | right; exact Ho].
Qed.

End Heap.
