(* ===== verification/Preferences.v ===== *)
(** * The preferences state of Preferences.h

    The singleton [Preferences] as a record of its fields, grouped as the
    header groups them, with the setters the header defines inline.  The
    array [m_ladspaProperties[MAX_FX]] is a list of length [MAX_FX]
    updated with stdpp's list insert; an index out of range, which the
    code does not check, is undefined behaviour and modelled as [None].
    Loading and saving the XML file (Preferences.cpp) are not in the
    sources. *)

From stdpp Require Import base list strings.
From Stdlib Require Import ZArith QArith.
From S2P Require Import Prelude.
Open Scope Z_scope.

Module Prefs.

(** [class WindowProperties]. *)
Record WindowProperties := mkWindowProperties {
  x : Z; y : Z; width : Z; height : Z; visible : bool
}.

(** [class H2RGBColor]: the default arguments are [-1, -1, -1]. *)
Record H2RGBColor := mkH2RGBColor { m_red : Z; m_green : Z; m_blue : Z }.

Definition H2RGBColor_default : H2RGBColor := mkH2RGBColor (-1) (-1) (-1).

(** [class UIStyle]: the colours of the song editor and the pattern
    editor, in the order of the header. *)
Record UIStyle := mkUIStyle {
  m_songEditor_backgroundColor : H2RGBColor;
  m_songEditor_alternateRowColor : H2RGBColor;
  m_songEditor_selectedRowColor : H2RGBColor;
  m_songEditor_lineColor : H2RGBColor;
  m_songEditor_textColor : H2RGBColor;
  m_songEditor_pattern1Color : H2RGBColor;
  m_patternEditor_backgroundColor : H2RGBColor;
  m_patternEditor_alternateRowColor : H2RGBColor;
  m_patternEditor_selectedRowColor : H2RGBColor;
  m_patternEditor_textColor : H2RGBColor;
  m_patternEditor_noteColor : H2RGBColor;
  m_patternEditor_lineColor : H2RGBColor;
  m_patternEditor_line1Color : H2RGBColor;
  m_patternEditor_line2Color : H2RGBColor;
  m_patternEditor_line3Color : H2RGBColor;
  m_patternEditor_line4Color : H2RGBColor;
  m_patternEditor_line5Color : H2RGBColor
}.

(** The mixer's falloff speeds [FALLOFF_SLOW], [FALLOFF_NORMAL],
    [FALLOFF_FAST]: the [float] literals 1.08f, 1.1f, 1.5f, that is the
    nearest single-precision values, [k / 2^23]. *)
Definition FALLOFF_SLOW : Q := 9059697 # 8388608.
Definition FALLOFF_NORMAL : Q := 9227469 # 8388608.
Definition FALLOFF_FAST : Q := 3 # 2.

(** The audio engine, OSS, MIDI, ALSA and JACK properties (public). *)
Record AudioPrefs := mkAudioPrefs {
  m_sAudioDriver : string; m_bUseMetronome : bool; m_fMetronomeVolume : Q;
  m_nMaxNotes : Z; m_nBufferSize : Z; m_nSampleRate : Z;
  m_sOSSDevice : string;
  m_sMidiDriver : string; m_sMidiPortName : string; m_nMidiChannelFilter : Z;
  m_bMidiNoteOffIgnore : bool; m_bUseMidiTransport : bool;
  m_sAlsaAudioDevice : string;
  m_sJackPortName1 : string; m_sJackPortName2 : string; m_bJackTransportMode : bool;
  m_bJackConnectDefaults : bool; m_nJackTrackOutputMode : Z
}.

(** The general properties (private). *)
Record GeneralPrefs := mkGeneralPrefs {
  restoreLastSong : bool; m_bShowDevelWarning : bool; lastSongFilename : string;
  hearNewNotes : bool; m_recentFiles : list string; m_ladspaPathVect : list string;
  quantizeEvents : bool; recordEvents : bool; m_sLastNews : string
}.

(** The GUI properties (private). *)
Record GuiPrefs := mkGuiPrefs {
  m_sQTStyle : string; applicationFontFamily : string; applicationFontPointSize : Z;
  mixerFontFamily : string; mixerFontPointSize : Z; mixerFalloffSpeed : Q;
  m_nPatternEditorGridResolution : Z; m_bPatternEditorUsingTriplets : bool;
  m_bShowInstrumentPeaks : bool; m_bIsFXTabVisible : bool;
  m_nPatternEditorGridHeight : Z; m_nPatternEditorGridWidth : Z
}.

(** The window properties (private), [m_ladspaProperties] last. *)
Record WindowPrefs := mkWindowPrefs {
  mainFormProperties : WindowProperties; mixerProperties : WindowProperties;
  patternEditorProperties : WindowProperties; songEditorProperties : WindowProperties;
  drumkitManagerProperties : WindowProperties; audioEngineInfoProperties : WindowProperties;
  m_ladspaProperties : list WindowProperties
}.

(** [class Preferences]. *)
Record Preferences := mkPreferences {
  m_sPreferencesFilename : string; m_sPreferencesDirectory : string;
  m_bFollowPlayhead : bool; sServerList : list string;
  audio : AudioPrefs; m_sDefaultEditor : string;
  m_sDataDirectory : string; demoPath : string;
  general : GeneralPrefs; gui : GuiPrefs; windows : WindowPrefs;
  m_pDefaultUIStyle : UIStyle
}.

(** ** Setters *)

(** Update one group of fields, keeping the others. *)
Definition with_general (f : GeneralPrefs -> GeneralPrefs) (p : Preferences) : Preferences :=
  {| m_sPreferencesFilename := m_sPreferencesFilename p;
     m_sPreferencesDirectory := m_sPreferencesDirectory p;
     m_bFollowPlayhead := m_bFollowPlayhead p; sServerList := sServerList p;
     audio := audio p; m_sDefaultEditor := m_sDefaultEditor p;
     m_sDataDirectory := m_sDataDirectory p; demoPath := demoPath p;
     general := f (general p); gui := gui p; windows := windows p;
     m_pDefaultUIStyle := m_pDefaultUIStyle p |}.

Definition with_gui (f : GuiPrefs -> GuiPrefs) (p : Preferences) : Preferences :=
  {| m_sPreferencesFilename := m_sPreferencesFilename p;
     m_sPreferencesDirectory := m_sPreferencesDirectory p;
     m_bFollowPlayhead := m_bFollowPlayhead p; sServerList := sServerList p;
     audio := audio p; m_sDefaultEditor := m_sDefaultEditor p;
     m_sDataDirectory := m_sDataDirectory p; demoPath := demoPath p;
     general := general p; gui := f (gui p); windows := windows p;
     m_pDefaultUIStyle := m_pDefaultUIStyle p |}.

Definition with_windows (f : WindowPrefs -> WindowPrefs) (p : Preferences) : Preferences :=
  {| m_sPreferencesFilename := m_sPreferencesFilename p;
     m_sPreferencesDirectory := m_sPreferencesDirectory p;
     m_bFollowPlayhead := m_bFollowPlayhead p; sServerList := sServerList p;
     audio := audio p; m_sDefaultEditor := m_sDefaultEditor p;
     m_sDataDirectory := m_sDataDirectory p; demoPath := demoPath p;
     general := general p; gui := gui p; windows := f (windows p);
     m_pDefaultUIStyle := m_pDefaultUIStyle p |}.

(** [void setDefaultEditor( QString editor )]. *)
Definition setDefaultEditor (editor : string) (p : Preferences) : Preferences :=
  {| m_sPreferencesFilename := m_sPreferencesFilename p;
     m_sPreferencesDirectory := m_sPreferencesDirectory p;
     m_bFollowPlayhead := m_bFollowPlayhead p; sServerList := sServerList p;
     audio := audio p; m_sDefaultEditor := editor;
     m_sDataDirectory := m_sDataDirectory p; demoPath := demoPath p;
     general := general p; gui := gui p; windows := windows p;
     m_pDefaultUIStyle := m_pDefaultUIStyle p |}.

Definition setRestoreLastSongEnabled (restore : bool) : Preferences -> Preferences :=
  with_general (fun g =>
    {| restoreLastSong := restore; m_bShowDevelWarning := m_bShowDevelWarning g;
       lastSongFilename := lastSongFilename g; hearNewNotes := hearNewNotes g;
       m_recentFiles := m_recentFiles g; m_ladspaPathVect := m_ladspaPathVect g;
       quantizeEvents := quantizeEvents g; recordEvents := recordEvents g;
       m_sLastNews := m_sLastNews g |}).

Definition setShowDevelWarning (value : bool) : Preferences -> Preferences :=
  with_general (fun g =>
    {| restoreLastSong := restoreLastSong g; m_bShowDevelWarning := value;
       lastSongFilename := lastSongFilename g; hearNewNotes := hearNewNotes g;
       m_recentFiles := m_recentFiles g; m_ladspaPathVect := m_ladspaPathVect g;
       quantizeEvents := quantizeEvents g; recordEvents := recordEvents g;
       m_sLastNews := m_sLastNews g |}).

Definition setLastSongFilename (filename : string) : Preferences -> Preferences :=
  with_general (fun g =>
    {| restoreLastSong := restoreLastSong g;
       m_bShowDevelWarning := m_bShowDevelWarning g; lastSongFilename := filename;
       hearNewNotes := hearNewNotes g; m_recentFiles := m_recentFiles g;
       m_ladspaPathVect := m_ladspaPathVect g; quantizeEvents := quantizeEvents g;
       recordEvents := recordEvents g; m_sLastNews := m_sLastNews g |}).

Definition setHearNewNotes (value : bool) : Preferences -> Preferences :=
  with_general (fun g =>
    {| restoreLastSong := restoreLastSong g;
       m_bShowDevelWarning := m_bShowDevelWarning g;
       lastSongFilename := lastSongFilename g; hearNewNotes := value;
       m_recentFiles := m_recentFiles g; m_ladspaPathVect := m_ladspaPathVect g;
       quantizeEvents := quantizeEvents g; recordEvents := recordEvents g;
       m_sLastNews := m_sLastNews g |}).

Definition setRecordEvents (value : bool) : Preferences -> Preferences :=
  with_general (fun g =>
    {| restoreLastSong := restoreLastSong g;
       m_bShowDevelWarning := m_bShowDevelWarning g;
       lastSongFilename := lastSongFilename g; hearNewNotes := hearNewNotes g;
       m_recentFiles := m_recentFiles g; m_ladspaPathVect := m_ladspaPathVect g;
       quantizeEvents := quantizeEvents g; recordEvents := value;
       m_sLastNews := m_sLastNews g |}).

Definition setQuantizeEvents (value : bool) : Preferences -> Preferences :=
  with_general (fun g =>
    {| restoreLastSong := restoreLastSong g;
       m_bShowDevelWarning := m_bShowDevelWarning g;
       lastSongFilename := lastSongFilename g; hearNewNotes := hearNewNotes g;
       m_recentFiles := m_recentFiles g; m_ladspaPathVect := m_ladspaPathVect g;
       quantizeEvents := value; recordEvents := recordEvents g;
       m_sLastNews := m_sLastNews g |}).

Definition setLadspaPath (pathVect : list string) : Preferences -> Preferences :=
  with_general (fun g =>
    {| restoreLastSong := restoreLastSong g;
       m_bShowDevelWarning := m_bShowDevelWarning g;
       lastSongFilename := lastSongFilename g; hearNewNotes := hearNewNotes g;
       m_recentFiles := m_recentFiles g; m_ladspaPathVect := pathVect;
       quantizeEvents := quantizeEvents g; recordEvents := recordEvents g;
       m_sLastNews := m_sLastNews g |}).

Definition setLastNews (sNews : string) : Preferences -> Preferences :=
  with_general (fun g =>
    {| restoreLastSong := restoreLastSong g;
       m_bShowDevelWarning := m_bShowDevelWarning g;
       lastSongFilename := lastSongFilename g; hearNewNotes := hearNewNotes g;
       m_recentFiles := m_recentFiles g; m_ladspaPathVect := m_ladspaPathVect g;
       quantizeEvents := quantizeEvents g; recordEvents := recordEvents g;
       m_sLastNews := sNews |}).

Definition setQTStyle (sStyle : string) : Preferences -> Preferences :=
  with_gui (fun g =>
    {| m_sQTStyle := sStyle; applicationFontFamily := applicationFontFamily g;
       applicationFontPointSize := applicationFontPointSize g;
       mixerFontFamily := mixerFontFamily g;
       mixerFontPointSize := mixerFontPointSize g;
       mixerFalloffSpeed := mixerFalloffSpeed g;
       m_nPatternEditorGridResolution := m_nPatternEditorGridResolution g;
       m_bPatternEditorUsingTriplets := m_bPatternEditorUsingTriplets g;
       m_bShowInstrumentPeaks := m_bShowInstrumentPeaks g;
       m_bIsFXTabVisible := m_bIsFXTabVisible g;
       m_nPatternEditorGridHeight := m_nPatternEditorGridHeight g;
       m_nPatternEditorGridWidth := m_nPatternEditorGridWidth g |}).

Definition setApplicationFontFamily (family : string) : Preferences -> Preferences :=
  with_gui (fun g =>
    {| m_sQTStyle := m_sQTStyle g; applicationFontFamily := family;
       applicationFontPointSize := applicationFontPointSize g;
       mixerFontFamily := mixerFontFamily g;
       mixerFontPointSize := mixerFontPointSize g;
       mixerFalloffSpeed := mixerFalloffSpeed g;
       m_nPatternEditorGridResolution := m_nPatternEditorGridResolution g;
       m_bPatternEditorUsingTriplets := m_bPatternEditorUsingTriplets g;
       m_bShowInstrumentPeaks := m_bShowInstrumentPeaks g;
       m_bIsFXTabVisible := m_bIsFXTabVisible g;
       m_nPatternEditorGridHeight := m_nPatternEditorGridHeight g;
       m_nPatternEditorGridWidth := m_nPatternEditorGridWidth g |}).

Definition setApplicationFontPointSize (size : Z) : Preferences -> Preferences :=
  with_gui (fun g =>
    {| m_sQTStyle := m_sQTStyle g; applicationFontFamily := applicationFontFamily g;
       applicationFontPointSize := size; mixerFontFamily := mixerFontFamily g;
       mixerFontPointSize := mixerFontPointSize g;
       mixerFalloffSpeed := mixerFalloffSpeed g;
       m_nPatternEditorGridResolution := m_nPatternEditorGridResolution g;
       m_bPatternEditorUsingTriplets := m_bPatternEditorUsingTriplets g;
       m_bShowInstrumentPeaks := m_bShowInstrumentPeaks g;
       m_bIsFXTabVisible := m_bIsFXTabVisible g;
       m_nPatternEditorGridHeight := m_nPatternEditorGridHeight g;
       m_nPatternEditorGridWidth := m_nPatternEditorGridWidth g |}).

Definition setMixerFontFamily (family : string) : Preferences -> Preferences :=
  with_gui (fun g =>
    {| m_sQTStyle := m_sQTStyle g; applicationFontFamily := applicationFontFamily g;
       applicationFontPointSize := applicationFontPointSize g;
       mixerFontFamily := family; mixerFontPointSize := mixerFontPointSize g;
       mixerFalloffSpeed := mixerFalloffSpeed g;
       m_nPatternEditorGridResolution := m_nPatternEditorGridResolution g;
       m_bPatternEditorUsingTriplets := m_bPatternEditorUsingTriplets g;
       m_bShowInstrumentPeaks := m_bShowInstrumentPeaks g;
       m_bIsFXTabVisible := m_bIsFXTabVisible g;
       m_nPatternEditorGridHeight := m_nPatternEditorGridHeight g;
       m_nPatternEditorGridWidth := m_nPatternEditorGridWidth g |}).

Definition setMixerFontPointSize (size : Z) : Preferences -> Preferences :=
  with_gui (fun g =>
    {| m_sQTStyle := m_sQTStyle g; applicationFontFamily := applicationFontFamily g;
       applicationFontPointSize := applicationFontPointSize g;
       mixerFontFamily := mixerFontFamily g; mixerFontPointSize := size;
       mixerFalloffSpeed := mixerFalloffSpeed g;
       m_nPatternEditorGridResolution := m_nPatternEditorGridResolution g;
       m_bPatternEditorUsingTriplets := m_bPatternEditorUsingTriplets g;
       m_bShowInstrumentPeaks := m_bShowInstrumentPeaks g;
       m_bIsFXTabVisible := m_bIsFXTabVisible g;
       m_nPatternEditorGridHeight := m_nPatternEditorGridHeight g;
       m_nPatternEditorGridWidth := m_nPatternEditorGridWidth g |}).

Definition setMixerFalloffSpeed (value : Q) : Preferences -> Preferences :=
  with_gui (fun g =>
    {| m_sQTStyle := m_sQTStyle g; applicationFontFamily := applicationFontFamily g;
       applicationFontPointSize := applicationFontPointSize g;
       mixerFontFamily := mixerFontFamily g;
       mixerFontPointSize := mixerFontPointSize g; mixerFalloffSpeed := value;
       m_nPatternEditorGridResolution := m_nPatternEditorGridResolution g;
       m_bPatternEditorUsingTriplets := m_bPatternEditorUsingTriplets g;
       m_bShowInstrumentPeaks := m_bShowInstrumentPeaks g;
       m_bIsFXTabVisible := m_bIsFXTabVisible g;
       m_nPatternEditorGridHeight := m_nPatternEditorGridHeight g;
       m_nPatternEditorGridWidth := m_nPatternEditorGridWidth g |}).

Definition setInstrumentPeaks (value : bool) : Preferences -> Preferences :=
  with_gui (fun g =>
    {| m_sQTStyle := m_sQTStyle g; applicationFontFamily := applicationFontFamily g;
       applicationFontPointSize := applicationFontPointSize g;
       mixerFontFamily := mixerFontFamily g;
       mixerFontPointSize := mixerFontPointSize g;
       mixerFalloffSpeed := mixerFalloffSpeed g;
       m_nPatternEditorGridResolution := m_nPatternEditorGridResolution g;
       m_bPatternEditorUsingTriplets := m_bPatternEditorUsingTriplets g;
       m_bShowInstrumentPeaks := value; m_bIsFXTabVisible := m_bIsFXTabVisible g;
       m_nPatternEditorGridHeight := m_nPatternEditorGridHeight g;
       m_nPatternEditorGridWidth := m_nPatternEditorGridWidth g |}).

Definition setPatternEditorGridResolution (value : Z) : Preferences -> Preferences :=
  with_gui (fun g =>
    {| m_sQTStyle := m_sQTStyle g; applicationFontFamily := applicationFontFamily g;
       applicationFontPointSize := applicationFontPointSize g;
       mixerFontFamily := mixerFontFamily g;
       mixerFontPointSize := mixerFontPointSize g;
       mixerFalloffSpeed := mixerFalloffSpeed g;
       m_nPatternEditorGridResolution := value;
       m_bPatternEditorUsingTriplets := m_bPatternEditorUsingTriplets g;
       m_bShowInstrumentPeaks := m_bShowInstrumentPeaks g;
       m_bIsFXTabVisible := m_bIsFXTabVisible g;
       m_nPatternEditorGridHeight := m_nPatternEditorGridHeight g;
       m_nPatternEditorGridWidth := m_nPatternEditorGridWidth g |}).

Definition setPatternEditorUsingTriplets (value : bool) : Preferences -> Preferences :=
  with_gui (fun g =>
    {| m_sQTStyle := m_sQTStyle g; applicationFontFamily := applicationFontFamily g;
       applicationFontPointSize := applicationFontPointSize g;
       mixerFontFamily := mixerFontFamily g;
       mixerFontPointSize := mixerFontPointSize g;
       mixerFalloffSpeed := mixerFalloffSpeed g;
       m_nPatternEditorGridResolution := m_nPatternEditorGridResolution g;
       m_bPatternEditorUsingTriplets := value;
       m_bShowInstrumentPeaks := m_bShowInstrumentPeaks g;
       m_bIsFXTabVisible := m_bIsFXTabVisible g;
       m_nPatternEditorGridHeight := m_nPatternEditorGridHeight g;
       m_nPatternEditorGridWidth := m_nPatternEditorGridWidth g |}).

Definition setFXTabVisible (value : bool) : Preferences -> Preferences :=
  with_gui (fun g =>
    {| m_sQTStyle := m_sQTStyle g; applicationFontFamily := applicationFontFamily g;
       applicationFontPointSize := applicationFontPointSize g;
       mixerFontFamily := mixerFontFamily g;
       mixerFontPointSize := mixerFontPointSize g;
       mixerFalloffSpeed := mixerFalloffSpeed g;
       m_nPatternEditorGridResolution := m_nPatternEditorGridResolution g;
       m_bPatternEditorUsingTriplets := m_bPatternEditorUsingTriplets g;
       m_bShowInstrumentPeaks := m_bShowInstrumentPeaks g; m_bIsFXTabVisible := value;
       m_nPatternEditorGridHeight := m_nPatternEditorGridHeight g;
       m_nPatternEditorGridWidth := m_nPatternEditorGridWidth g |}).

(** [void setPatternEditorGridHeight( unsigned value )]: the argument is
    converted to [unsigned] ([to_unsigned]). *)
Definition setPatternEditorGridHeight (value : Z) : Preferences -> Preferences :=
  with_gui (fun g =>
    {| m_sQTStyle := m_sQTStyle g; applicationFontFamily := applicationFontFamily g;
       applicationFontPointSize := applicationFontPointSize g;
       mixerFontFamily := mixerFontFamily g;
       mixerFontPointSize := mixerFontPointSize g;
       mixerFalloffSpeed := mixerFalloffSpeed g;
       m_nPatternEditorGridResolution := m_nPatternEditorGridResolution g;
       m_bPatternEditorUsingTriplets := m_bPatternEditorUsingTriplets g;
       m_bShowInstrumentPeaks := m_bShowInstrumentPeaks g;
       m_bIsFXTabVisible := m_bIsFXTabVisible g; m_nPatternEditorGridHeight := to_unsigned value;
       m_nPatternEditorGridWidth := m_nPatternEditorGridWidth g |}).

(** [void setPatternEditorGridWidth( unsigned value )]: the argument is
    converted to [unsigned] ([to_unsigned]). *)
Definition setPatternEditorGridWidth (value : Z) : Preferences -> Preferences :=
  with_gui (fun g =>
    {| m_sQTStyle := m_sQTStyle g; applicationFontFamily := applicationFontFamily g;
       applicationFontPointSize := applicationFontPointSize g;
       mixerFontFamily := mixerFontFamily g;
       mixerFontPointSize := mixerFontPointSize g;
       mixerFalloffSpeed := mixerFalloffSpeed g;
       m_nPatternEditorGridResolution := m_nPatternEditorGridResolution g;
       m_bPatternEditorUsingTriplets := m_bPatternEditorUsingTriplets g;
       m_bShowInstrumentPeaks := m_bShowInstrumentPeaks g;
       m_bIsFXTabVisible := m_bIsFXTabVisible g;
       m_nPatternEditorGridHeight := m_nPatternEditorGridHeight g;
       m_nPatternEditorGridWidth := to_unsigned value |}).

Definition setMainFormProperties (prop : WindowProperties) : Preferences -> Preferences :=
  with_windows (fun g =>
    {| mainFormProperties := prop; mixerProperties := mixerProperties g;
       patternEditorProperties := patternEditorProperties g;
       songEditorProperties := songEditorProperties g;
       drumkitManagerProperties := drumkitManagerProperties g;
       audioEngineInfoProperties := audioEngineInfoProperties g;
       m_ladspaProperties := m_ladspaProperties g |}).

Definition setMixerProperties (prop : WindowProperties) : Preferences -> Preferences :=
  with_windows (fun g =>
    {| mainFormProperties := mainFormProperties g; mixerProperties := prop;
       patternEditorProperties := patternEditorProperties g;
       songEditorProperties := songEditorProperties g;
       drumkitManagerProperties := drumkitManagerProperties g;
       audioEngineInfoProperties := audioEngineInfoProperties g;
       m_ladspaProperties := m_ladspaProperties g |}).

Definition setPatternEditorProperties (prop : WindowProperties) : Preferences -> Preferences :=
  with_windows (fun g =>
    {| mainFormProperties := mainFormProperties g;
       mixerProperties := mixerProperties g; patternEditorProperties := prop;
       songEditorProperties := songEditorProperties g;
       drumkitManagerProperties := drumkitManagerProperties g;
       audioEngineInfoProperties := audioEngineInfoProperties g;
       m_ladspaProperties := m_ladspaProperties g |}).

Definition setSongEditorProperties (prop : WindowProperties) : Preferences -> Preferences :=
  with_windows (fun g =>
    {| mainFormProperties := mainFormProperties g;
       mixerProperties := mixerProperties g;
       patternEditorProperties := patternEditorProperties g;
       songEditorProperties := prop;
       drumkitManagerProperties := drumkitManagerProperties g;
       audioEngineInfoProperties := audioEngineInfoProperties g;
       m_ladspaProperties := m_ladspaProperties g |}).

Definition setDrumkitManagerProperties (prop : WindowProperties) : Preferences -> Preferences :=
  with_windows (fun g =>
    {| mainFormProperties := mainFormProperties g;
       mixerProperties := mixerProperties g;
       patternEditorProperties := patternEditorProperties g;
       songEditorProperties := songEditorProperties g;
       drumkitManagerProperties := prop;
       audioEngineInfoProperties := audioEngineInfoProperties g;
       m_ladspaProperties := m_ladspaProperties g |}).

Definition setAudioEngineInfoProperties (prop : WindowProperties) : Preferences -> Preferences :=
  with_windows (fun g =>
    {| mainFormProperties := mainFormProperties g;
       mixerProperties := mixerProperties g;
       patternEditorProperties := patternEditorProperties g;
       songEditorProperties := songEditorProperties g;
       drumkitManagerProperties := drumkitManagerProperties g;
       audioEngineInfoProperties := prop; m_ladspaProperties := m_ladspaProperties g |}).

(** ** The LADSPA window array *)

Section Ladspa.
(** The size of [m_ladspaProperties] (globals.h, not in the sources). *)
Variable MAX_FX : nat.

(** The array has its [MAX_FX] elements. *)
Definition wf_prefs (p : Preferences) : Prop :=
  length (m_ladspaProperties (windows p)) = MAX_FX.

(** [WindowProperties getLadspaProperties( unsigned nFX )]:
    [m_ladspaProperties[nFX]], undefined past the array. *)
Definition getLadspaProperties (nFX : nat) (p : Preferences) : option WindowProperties :=
  if decide (nFX < MAX_FX)%nat then m_ladspaProperties (windows p) !! nFX else None.

(** [void setLadspaProperties( unsigned nFX, const WindowProperties& prop )]:
    [m_ladspaProperties[nFX] = prop], undefined past the array. *)
Definition setLadspaProperties (nFX : nat) (prop : WindowProperties) (p : Preferences)
    : option Preferences :=
  if decide (nFX < MAX_FX)%nat then
    Some (with_windows (fun g =>
      {| mainFormProperties := mainFormProperties g; mixerProperties := mixerProperties g;
         patternEditorProperties := patternEditorProperties g;
         songEditorProperties := songEditorProperties g;
         drumkitManagerProperties := drumkitManagerProperties g;
         audioEngineInfoProperties := audioEngineInfoProperties g;
         m_ladspaProperties := <[nFX := prop]> (m_ladspaProperties g) |}) p)
  else None.
End Ladspa.

(** Every setter of the header, as a call. *)
Inductive PrefSetter :=
| SetDefaultEditor (s : string)
| SetRestoreLastSongEnabled (b : bool) | SetShowDevelWarning (b : bool)
| SetLastSongFilename (s : string) | SetHearNewNotes (b : bool)
| SetRecordEvents (b : bool) | SetQuantizeEvents (b : bool)
| SetLadspaPath (l : list string) | SetLastNews (s : string)
| SetQTStyle (s : string) | SetApplicationFontFamily (s : string)
| SetApplicationFontPointSize (n : Z) | SetMixerFontFamily (s : string)
| SetMixerFontPointSize (n : Z) | SetMixerFalloffSpeed (q : Q)
| SetInstrumentPeaks (b : bool) | SetPatternEditorGridResolution (n : Z)
| SetPatternEditorUsingTriplets (b : bool) | SetFXTabVisible (b : bool)
| SetPatternEditorGridHeight (n : Z) | SetPatternEditorGridWidth (n : Z)
| SetMainFormProperties (w : WindowProperties) | SetMixerProperties (w : WindowProperties)
| SetPatternEditorProperties (w : WindowProperties)
| SetSongEditorProperties (w : WindowProperties)
| SetDrumkitManagerProperties (w : WindowProperties)
| SetAudioEngineInfoProperties (w : WindowProperties)
| SetLadspaProperties (nFX : nat) (w : WindowProperties).

Definition applySetter (MAX_FX : nat) (c : PrefSetter) (p : Preferences) : option Preferences :=
  match c with
  | SetDefaultEditor s => Some (setDefaultEditor s p)
  | SetRestoreLastSongEnabled b => Some (setRestoreLastSongEnabled b p)
  | SetShowDevelWarning b => Some (setShowDevelWarning b p)
  | SetLastSongFilename s => Some (setLastSongFilename s p)
  | SetHearNewNotes b => Some (setHearNewNotes b p)
  | SetRecordEvents b => Some (setRecordEvents b p)
  | SetQuantizeEvents b => Some (setQuantizeEvents b p)
  | SetLadspaPath l => Some (setLadspaPath l p)
  | SetLastNews s => Some (setLastNews s p)
  | SetQTStyle s => Some (setQTStyle s p)
  | SetApplicationFontFamily s => Some (setApplicationFontFamily s p)
  | SetApplicationFontPointSize n => Some (setApplicationFontPointSize n p)
  | SetMixerFontFamily s => Some (setMixerFontFamily s p)
  | SetMixerFontPointSize n => Some (setMixerFontPointSize n p)
  | SetMixerFalloffSpeed q => Some (setMixerFalloffSpeed q p)
  | SetInstrumentPeaks b => Some (setInstrumentPeaks b p)
  | SetPatternEditorGridResolution n => Some (setPatternEditorGridResolution n p)
  | SetPatternEditorUsingTriplets b => Some (setPatternEditorUsingTriplets b p)
  | SetFXTabVisible b => Some (setFXTabVisible b p)
  | SetPatternEditorGridHeight n => Some (setPatternEditorGridHeight n p)
  | SetPatternEditorGridWidth n => Some (setPatternEditorGridWidth n p)
  | SetMainFormProperties w => Some (setMainFormProperties w p)
  | SetMixerProperties w => Some (setMixerProperties w p)
  | SetPatternEditorProperties w => Some (setPatternEditorProperties w p)
  | SetSongEditorProperties w => Some (setSongEditorProperties w p)
  | SetDrumkitManagerProperties w => Some (setDrumkitManagerProperties w p)
  | SetAudioEngineInfoProperties w => Some (setAudioEngineInfoProperties w p)
  | SetLadspaProperties n w => setLadspaProperties MAX_FX n w p
  end.

(** ** Getters *)

(** The values the getters of the header return. *)
Inductive PrefValue :=
| VBool (b : bool) | VString (s : string) | VZ (n : Z) | VQ (q : Q)
| VStrings (l : list string) | VWindow (w : WindowProperties) | VStyle (u : UIStyle).

(** Every getter of the header, as a call. *)
Inductive PrefGetter :=
| GetDemoPath | GetDataDirectory | GetDefaultEditor
| GetShowDevelWarning | IsRestoreLastSongEnabled | GetLastSongFilename
| GetHearNewNotes | GetRecordEvents | GetQuantizeEvents | GetRecentFiles
| GetLadspaPath | GetLastNews | GetQTStyle | GetApplicationFontFamily
| GetApplicationFontPointSize | GetMixerFontFamily | GetMixerFontPointSize
| GetMixerFalloffSpeed | ShowInstrumentPeaks | GetPatternEditorGridResolution
| IsPatternEditorUsingTriplets | IsFXTabVisible | GetPatternEditorGridHeight
| GetPatternEditorGridWidth | GetMainFormProperties | GetMixerProperties
| GetPatternEditorProperties | GetSongEditorProperties | GetDrumkitManagerProperties
| GetAudioEngineInfoProperties | GetLadspaProperties (nFX : nat) | GetDefaultUIStyle.

(** The bodies of the getters: each returns its field ([None] for a
    LADSPA index past the array). *)
Definition getPref (MAX_FX : nat) (g : PrefGetter) (p : Preferences) : option PrefValue :=
  match g with
  | GetDemoPath => Some (VString (demoPath p))
  | GetDataDirectory => Some (VString (m_sDataDirectory p))
  | GetDefaultEditor => Some (VString (m_sDefaultEditor p))
  | GetShowDevelWarning => Some (VBool (m_bShowDevelWarning (general p)))
  | IsRestoreLastSongEnabled => Some (VBool (restoreLastSong (general p)))
  | GetLastSongFilename => Some (VString (lastSongFilename (general p)))
  | GetHearNewNotes => Some (VBool (hearNewNotes (general p)))
  | GetRecordEvents => Some (VBool (recordEvents (general p)))
  | GetQuantizeEvents => Some (VBool (quantizeEvents (general p)))
  | GetRecentFiles => Some (VStrings (m_recentFiles (general p)))
  | GetLadspaPath => Some (VStrings (m_ladspaPathVect (general p)))
  | GetLastNews => Some (VString (m_sLastNews (general p)))
  | GetQTStyle => Some (VString (m_sQTStyle (gui p)))
  | GetApplicationFontFamily => Some (VString (applicationFontFamily (gui p)))
  | GetApplicationFontPointSize => Some (VZ (applicationFontPointSize (gui p)))
  | GetMixerFontFamily => Some (VString (mixerFontFamily (gui p)))
  | GetMixerFontPointSize => Some (VZ (mixerFontPointSize (gui p)))
  | GetMixerFalloffSpeed => Some (VQ (mixerFalloffSpeed (gui p)))
  | ShowInstrumentPeaks => Some (VBool (m_bShowInstrumentPeaks (gui p)))
  | GetPatternEditorGridResolution => Some (VZ (m_nPatternEditorGridResolution (gui p)))
  | IsPatternEditorUsingTriplets => Some (VBool (m_bPatternEditorUsingTriplets (gui p)))
  | IsFXTabVisible => Some (VBool (m_bIsFXTabVisible (gui p)))
  | GetPatternEditorGridHeight => Some (VZ (m_nPatternEditorGridHeight (gui p)))
  | GetPatternEditorGridWidth => Some (VZ (m_nPatternEditorGridWidth (gui p)))
  | GetMainFormProperties => Some (VWindow (mainFormProperties (windows p)))
  | GetMixerProperties => Some (VWindow (mixerProperties (windows p)))
  | GetPatternEditorProperties => Some (VWindow (patternEditorProperties (windows p)))
  | GetSongEditorProperties => Some (VWindow (songEditorProperties (windows p)))
  | GetDrumkitManagerProperties => Some (VWindow (drumkitManagerProperties (windows p)))
  | GetAudioEngineInfoProperties => Some (VWindow (audioEngineInfoProperties (windows p)))
  | GetLadspaProperties nFX => option_map VWindow (getLadspaProperties MAX_FX nFX p)
  | GetDefaultUIStyle => Some (VStyle (m_pDefaultUIStyle p))
  end.

(** The interface the header promises, as a table: the value a setter
    call makes a getter return; [None] when the setter does not touch the
    getter's field. *)
Definition writes (c : PrefSetter) (g : PrefGetter) : option PrefValue :=
  match c, g with
  | SetDefaultEditor s, GetDefaultEditor => Some (VString s)
  | SetRestoreLastSongEnabled b, IsRestoreLastSongEnabled => Some (VBool b)
  | SetShowDevelWarning b, GetShowDevelWarning => Some (VBool b)
  | SetLastSongFilename s, GetLastSongFilename => Some (VString s)
  | SetHearNewNotes b, GetHearNewNotes => Some (VBool b)
  | SetRecordEvents b, GetRecordEvents => Some (VBool b)
  | SetQuantizeEvents b, GetQuantizeEvents => Some (VBool b)
  | SetLadspaPath l, GetLadspaPath => Some (VStrings l)
  | SetLastNews s, GetLastNews => Some (VString s)
  | SetQTStyle s, GetQTStyle => Some (VString s)
  | SetApplicationFontFamily s, GetApplicationFontFamily => Some (VString s)
  | SetApplicationFontPointSize n, GetApplicationFontPointSize => Some (VZ n)
  | SetMixerFontFamily s, GetMixerFontFamily => Some (VString s)
  | SetMixerFontPointSize n, GetMixerFontPointSize => Some (VZ n)
  | SetMixerFalloffSpeed q, GetMixerFalloffSpeed => Some (VQ q)
  | SetInstrumentPeaks b, ShowInstrumentPeaks => Some (VBool b)
  | SetPatternEditorGridResolution n, GetPatternEditorGridResolution => Some (VZ n)
  | SetPatternEditorUsingTriplets b, IsPatternEditorUsingTriplets => Some (VBool b)
  | SetFXTabVisible b, IsFXTabVisible => Some (VBool b)
  | SetPatternEditorGridHeight n, GetPatternEditorGridHeight => Some (VZ (to_unsigned n))
  | SetPatternEditorGridWidth n, GetPatternEditorGridWidth => Some (VZ (to_unsigned n))
  | SetMainFormProperties w, GetMainFormProperties => Some (VWindow w)
  | SetMixerProperties w, GetMixerProperties => Some (VWindow w)
  | SetPatternEditorProperties w, GetPatternEditorProperties => Some (VWindow w)
  | SetSongEditorProperties w, GetSongEditorProperties => Some (VWindow w)
  | SetDrumkitManagerProperties w, GetDrumkitManagerProperties => Some (VWindow w)
  | SetAudioEngineInfoProperties w, GetAudioEngineInfoProperties => Some (VWindow w)
  | SetLadspaProperties n w, GetLadspaProperties j =>
      if decide (j = n) then Some (VWindow w) else None
  | _, _ => None
  end.

(** A state of the singleton for the examples: the given data directory
    and [nFX] LADSPA windows, every other field at a plain value. *)
Definition sample_prefs (dataDir : string) (nFX : nat) : Preferences :=
  let w0 := mkWindowProperties 0 0 100 100 true in
  mkPreferences "" "" false [] (mkAudioPrefs "" false 0 0 0 0 "" "" "" 0 false false ""
    "" "" false false 0) "" dataDir ""
    (mkGeneralPrefs false false "" false [] [] false false "")
    (mkGuiPrefs "" "" 10 "" 10 FALLOFF_NORMAL 0 false false false 0 0)
    (mkWindowPrefs w0 w0 w0 w0 w0 w0 (replicate nFX w0))
    (mkUIStyle H2RGBColor_default H2RGBColor_default H2RGBColor_default
       H2RGBColor_default H2RGBColor_default H2RGBColor_default H2RGBColor_default
       H2RGBColor_default H2RGBColor_default H2RGBColor_default H2RGBColor_default
       H2RGBColor_default H2RGBColor_default H2RGBColor_default H2RGBColor_default
       H2RGBColor_default H2RGBColor_default).

(** Decidable equality of the values and calls, so that [decide] compares
    what getters return. *)
#[export] Instance Q_eq_dec' : EqDecision Q.
Proof. intros [n1 d1] [n2 d2]. solve_decision. Defined.
#[export] Instance WindowProperties_eq_dec : EqDecision WindowProperties.
Proof. solve_decision. Defined.
#[export] Instance H2RGBColor_eq_dec : EqDecision H2RGBColor.
Proof. solve_decision. Defined.
#[export] Instance UIStyle_eq_dec : EqDecision UIStyle.
Proof. solve_decision. Defined.
#[export] Instance PrefValue_eq_dec : EqDecision PrefValue.
Proof. solve_decision. Defined.
#[export] Instance PrefGetter_eq_dec : EqDecision PrefGetter.
Proof. solve_decision. Defined.

(** ** Lemmas *)

(** Reading the LADSPA array after a successful store. *)
Lemma getLadspa_setLadspa MAX_FX nFX j prop p p' :
  wf_prefs MAX_FX p -> setLadspaProperties MAX_FX nFX prop p = Some p' ->
  getLadspaProperties MAX_FX j p' =
    if decide (j = nFX) then Some prop else getLadspaProperties MAX_FX j p.
Proof.
  intros Hwf H. unfold setLadspaProperties in H. case_decide as Hlt; [|discriminate].
  injection H as <-. unfold getLadspaProperties, wf_prefs in *. cbn.
  destruct (decide (j = nFX)) as [->|Hj].
  - rewrite decide_True by exact Hlt. apply list_lookup_insert_eq. lia.
  - case_decide; [apply list_lookup_insert_ne; congruence | reflexivity].
Qed.

(** One setter keeps the array's size. *)
Lemma applySetter_wf MAX_FX c p p' :
  wf_prefs MAX_FX p -> applySetter MAX_FX c p = Some p' -> wf_prefs MAX_FX p'.
Proof.
  intros Hwf E. destruct c; cbn [applySetter] in E; unfold setLadspaProperties in E;
    try (injection E as <-; exact Hwf).
  case_decide; [|discriminate]. injection E as <-.
  unfold wf_prefs. cbn. rewrite length_insert. exact Hwf.
Qed.

(** Whether a setter call fails does not depend on the state. *)
Lemma applySetter_None MAX_FX c p p' :
  applySetter MAX_FX c p = None -> applySetter MAX_FX c p' = None.
Proof.
  destruct c; cbn [applySetter]; try discriminate.
  unfold setLadspaProperties. case_decide; [discriminate | reflexivity].
Qed.

(** No setter moves the data directory: the header has no setter for
    [m_sDataDirectory]. *)
Lemma applySetter_dataDir MAX_FX c p p' :
  applySetter MAX_FX c p = Some p' -> m_sDataDirectory p' = m_sDataDirectory p.
Proof.
  destruct c; cbn [applySetter]; try (intros H; injection H as <-; reflexivity).
  unfold setLadspaProperties. case_decide; [intros E; injection E as <-; reflexivity | discriminate].
Qed.

(** The only setter call that fails is a LADSPA index past the array. *)
Lemma applySetter_fails MAX_FX c p :
  applySetter MAX_FX c p = None <-> exists n w, c = SetLadspaProperties n w /\ (MAX_FX <= n)%nat.
Proof.
  split.
  - destruct c; cbn [applySetter]; try discriminate.
    unfold setLadspaProperties. case_decide; [discriminate|]. intros _. eexists _, _. split; [reflexivity | lia].
  - intros (n & w & -> & Hn). cbn [applySetter]. unfold setLadspaProperties.
    rewrite decide_False by lia. reflexivity.
Qed.

(** What every getter returns after a setter. *)
Lemma getPref_applySetter MAX_FX c g p p' :
  wf_prefs MAX_FX p -> applySetter MAX_FX c p = Some p' ->
  getPref MAX_FX g p' =
    match writes c g with Some v => Some v | None => getPref MAX_FX g p end.
Proof.
  intros Hwf H. destruct c; cbn [applySetter] in H;
    try (injection H as <-; destruct g; reflexivity).
  destruct g; try (unfold setLadspaProperties in H; case_decide; [|discriminate];
                   injection H as <-; reflexivity).
  cbn [getPref writes]. rewrite (getLadspa_setLadspa _ _ _ _ _ _ Hwf H).
  case_decide; reflexivity.
Qed.

(** ** Theorems *)

(** C28 (functional): the getters and setters of the header form one
    interface.  After any setter call that succeeds, every getter returns
    the value that call wrote to its field, if it wrote that field, and
    otherwise what it returned before.  This covers every pair, including
    each LADSPA slot. *)
Theorem getters_after_setter (MAX_FX : nat) (c : PrefSetter) (g : PrefGetter)
    (p p' : Preferences) :
  wf_prefs MAX_FX p -> applySetter MAX_FX c p = Some p' ->
  getPref MAX_FX g p' =
    match writes c g with Some v => Some v | None => getPref MAX_FX g p end.
Proof. apply getPref_applySetter. Qed.

Lemma getters_after_setter_witness :
  let w0 := mkWindowProperties 0 0 100 100 true in
  let p0 := sample_prefs "" 4 in
  exists p', applySetter 4 (SetMixerFontPointSize 12) p0 = Some p' /\
    getPref 4 GetMixerFontPointSize p' = Some (VZ 12) /\
    getPref 4 GetApplicationFontPointSize p' = getPref 4 GetApplicationFontPointSize p0.
Proof.
  intros w0 p0. eexists. split; [reflexivity|]. split.
  - apply (getters_after_setter 4 (SetMixerFontPointSize 12)) with (p := p0); reflexivity.
  - apply (getters_after_setter 4 (SetMixerFontPointSize 12)) with (p := p0); reflexivity.
Defined.

(** C29 (functional): two setter calls that write no common field
    commute.  Run in either order, they fail together or succeed
    together, and every getter then returns the same value. *)
Theorem setters_commute (MAX_FX : nat) (c1 c2 : PrefSetter) (p : Preferences) (g : PrefGetter) :
  wf_prefs MAX_FX p -> (forall g', writes c1 g' = None \/ writes c2 g' = None) ->
  option_map (getPref MAX_FX g) (applySetter MAX_FX c1 p ≫= applySetter MAX_FX c2) =
  option_map (getPref MAX_FX g) (applySetter MAX_FX c2 p ≫= applySetter MAX_FX c1).
Proof.
  intros Hwf Hdis.
  destruct (applySetter MAX_FX c1 p) as [p1|] eqn:E1;
    destruct (applySetter MAX_FX c2 p) as [p2|] eqn:E2; cbn [mbind option_bind]; try reflexivity.
  - destruct (applySetter MAX_FX c2 p1) as [p12|] eqn:E12;
      [|rewrite (applySetter_None _ _ p1 p E12) in E2; discriminate].
    destruct (applySetter MAX_FX c1 p2) as [p21|] eqn:E21;
      [|rewrite (applySetter_None _ _ p2 p E21) in E1; discriminate].
    pose proof (applySetter_wf _ _ _ _ Hwf E1) as Hw1. pose proof (applySetter_wf _ _ _ _ Hwf E2) as Hw2.
    cbn [option_map]. f_equal.
    rewrite (getPref_applySetter _ _ _ _ _ Hw1 E12), (getPref_applySetter _ _ _ _ _ Hw2 E21),
      (getPref_applySetter _ _ _ _ _ Hwf E1), (getPref_applySetter _ _ _ _ _ Hwf E2).
    destruct (Hdis g) as [H1|H2]; [rewrite H1 | rewrite H2]; destruct (writes _ g); reflexivity.
  - rewrite (applySetter_None _ _ p p1 E2). reflexivity.
  - rewrite (applySetter_None _ _ p p2 E1). reflexivity.
Qed.

Lemma setters_commute_witness :
  let w0 := mkWindowProperties 0 0 100 100 true in
  let p0 := sample_prefs "" 4 in
  option_map (getPref 4 GetQTStyle)
    (applySetter 4 (SetQTStyle "Plastique") p0 ≫= applySetter 4 (SetLadspaProperties 1 w0)) =
  option_map (getPref 4 GetQTStyle)
    (applySetter 4 (SetLadspaProperties 1 w0) p0 ≫= applySetter 4 (SetQTStyle "Plastique")).
Proof.
  intros w0 p0. apply setters_commute; [reflexivity|]. intros []; cbn; auto.
Defined.

End Prefs.
