(* ===== verification/Session.v ===== *)
(** * Drumkit operations against the Preferences singleton

    [Drumkit::install] and [Drumkit::removeDrumkit] (sound_library.cpp)
    do not take the data directory as an argument: each reads it from the
    singleton, [Preferences::getInstance()->getDataDirectory()].  This
    file states what the drumkit code needs of the singleton as a class,
    [PreferencesSingleton]: a state, the calls that update it, and the
    getter, with the law that no call moves the data directory.  A
    session of the program is a sequence of preference calls and drumkit
    operations in any interleaving, run on the singleton's state; it ends
    at the first undefined behaviour, a preference call that fails or an
    install that faults.  The client's lemmas are proved against the
    class; the instance for the record of Preferences.h discharges the
    law with [applySetter], and the theorems are about that instance. *)

From Stdlib Require Import ZArith String List.
From stdpp Require Import base list.
From S2P Require Import Prelude Drumkit Preferences.
Import ListNotations Kit Prefs.
Open Scope Z_scope.

Module Session.

(** What the drumkit code relies on: the singleton's state [P], the calls
    [C] that update it (each may fail), and [getDataDirectory], which none
    of them changes. *)
Class PreferencesSingleton (P C : Type) := {
  pref_apply : C -> P -> option P;
  getDataDirectory : P -> string;
  pref_apply_dataDir : forall c p p', pref_apply c p = Some p' ->
                                      getDataDirectory p' = getDataDirectory p
}.

(** One step of a session: a preference call, or a drumkit operation
    with the results the libraries return to it ([gzread]'s reads, the
    status of [tar_open], [tar_extract_all], [tar_close]; the status of
    [system] for the removal). *)
Inductive SessionOp (C : Type) :=
| PrefCall (c : C)
| InstallOp (filename : string) (reads : list GzRead) (buf0 : list Z)
    (fopen_ok open_ok extract_ok close_ok : bool)
| RemoveOp (sDrumkitName : string) (status : Z).
Arguments PrefCall {C} c.
Arguments InstallOp {C} filename reads buf0 fopen_ok open_ok extract_ok close_ok.
Arguments RemoveOp {C} sDrumkitName status.

(** What a drumkit operation does that the outside sees: the install's
    library calls, logs, output and fault; the removal's shell command
    and its outcome. *)
Inductive Effect :=
| EInstall (r : InstallRun)
| ERemove (cmd : string) (r : Fault + unit).

Section Client.
Context {P C : Type} `{!PreferencesSingleton P C}.

(** [Drumkit::install] with its first line,
    [QString dataDir = Preferences::getInstance()->getDataDirectory();]. *)
Definition installDrumkit (prefs : P) (filename : string) (reads : list GzRead) (buf0 : list Z)
    (fopen_ok open_ok extract_ok close_ok : bool) : InstallRun :=
  install (getDataDirectory prefs) filename reads buf0 fopen_ok open_ok extract_ok close_ok.

(** [Drumkit::removeDrumkit] with its first line, the same read. *)
Definition removeDrumkitCall (prefs : P) (sDrumkitName : string) (status : Z) : Fault + unit :=
  removeDrumkit (getDataDirectory prefs) sDrumkitName (fun _ => status).

(** One step on the singleton's state.  An install whose run faults (a
    NULL [pGunzippedFile] or a [strcpy] overflow, undefined behaviour)
    ends the session; a removal that throws [H2Exception] is an outcome
    the caller sees. *)
Definition session_step (prefs : P) (op : SessionOp C) : option (P * list Effect) :=
  match op with
  | PrefCall c => option_map (fun p' => (p', [])) (pref_apply c prefs)
  | InstallOp f reads buf0 fo o e cl =>
      let r := installDrumkit prefs f reads buf0 fo o e cl in
      match run_fault r with
      | Some _ => None
      | None => Some (prefs, [EInstall r])
      end
  | RemoveOp name st =>
      Some (prefs, [ERemove (removeCommand (getDataDirectory prefs) name)
                            (removeDrumkitCall prefs name st)])
  end.

(** A session: the steps in order, up to the first undefined
    behaviour. *)
Fixpoint run_session (prefs : P) (ops : list (SessionOp C)) : option (P * list Effect) :=
  match ops with
  | [] => Some (prefs, [])
  | op :: rest =>
      match session_step prefs op with
      | None => None
      | Some (p', es) =>
          match run_session p' rest with
          | None => None
          | Some (p'', es') => Some (p'', es ++ es')
          end
      end
  end.
End Client.

(** The reference: the drumkit operations alone, all run on one data
    directory; the preference calls do nothing. *)
Definition drumkit_effects {C : Type} (dataDir : string) (op : SessionOp C) : list Effect :=
  match op with
  | PrefCall _ => []
  | InstallOp f reads buf0 fo o e cl => [EInstall (install dataDir f reads buf0 fo o e cl)]
  | RemoveOp name st =>
      [ERemove (removeCommand dataDir name) (removeDrumkit dataDir name (fun _ => st))]
  end.


(** Hydrogen's singleton: the record of Preferences.h with the setters of
    the header as its calls. *)
#[export] Instance hydrogen_preferences (MAX_FX : nat) :
  PreferencesSingleton Preferences PrefSetter := {
  pref_apply := applySetter MAX_FX;
  getDataDirectory := m_sDataDirectory;
  pref_apply_dataDir := applySetter_dataDir MAX_FX
}.

(** ** Lemmas *)

Section Theory.
Context {P C : Type} `{!PreferencesSingleton P C}.

(** One step keeps the data directory and does what the operation does
    on it. *)
Lemma session_step_spec prefs op p' es :
  session_step prefs op = Some (p', es) ->
  getDataDirectory p' = getDataDirectory prefs /\ es = drumkit_effects (getDataDirectory prefs) op.
Proof.
  destruct op as [c|f reads buf0 fo o e cl|name st]; cbn [session_step drumkit_effects].
  - destruct (pref_apply c prefs) as [q|] eqn:E; cbn; [|discriminate].
    intros H. injection H as <- <-. split; [exact (pref_apply_dataDir _ _ _ E) | reflexivity].
  - unfold installDrumkit. destruct (run_fault _); [discriminate|].
    intros H. injection H as <- <-. split; reflexivity.
  - intros H. injection H as <- <-. split; reflexivity.
Qed.

(** A session that runs to its end keeps the data directory, and its
    drumkit operations are those of the reference on the directory read
    at start. *)
Lemma run_session_effects (prefs p' : P) (ops : list (SessionOp C)) (effs : list Effect) :
  run_session prefs ops = Some (p', effs) ->
  getDataDirectory p' = getDataDirectory prefs /\
  effs = flat_map (drumkit_effects (getDataDirectory prefs)) ops.
Proof.
  revert prefs effs. induction ops as [|op ops IH]; intros prefs effs H; cbn [run_session] in H.
  - injection H as <- <-. split; reflexivity.
  - destruct (session_step prefs op) as [[q es]|] eqn:E; [|discriminate].
    destruct (run_session q ops) as [[q' es']|] eqn:E'; [|discriminate].
    injection H as <- <-. destruct (session_step_spec _ _ _ _ E) as [Hd ->].
    destruct (IH _ _ E') as [Hd' ->]. rewrite Hd in Hd'.
    split; [exact Hd' | cbn [flat_map]; rewrite Hd; reflexivity].
Qed.

End Theory.


(** ** Theorems *)

(** C31 (invariant): with Hydrogen's preferences as the singleton, a
    session that interleaves calls of the header's setters with drumkit
    installs and removals and runs to its end keeps the data directory it
    started with, and its drumkit operations do exactly what they would
    do alone on that directory: every [tar_extract_all] and every
    [rm -rf] of the session targets the directory read at start, in the
    order of the operations, whatever setters come between. *)
Theorem session_effects (MAX_FX : nat) (p p' : Preferences) (ops : list (SessionOp PrefSetter))
    (effs : list Effect) :
  @run_session _ _ (hydrogen_preferences MAX_FX) p ops = Some (p', effs) ->
  m_sDataDirectory p' = m_sDataDirectory p /\
  effs = flat_map (drumkit_effects (m_sDataDirectory p)) ops.
Proof. exact (@run_session_effects _ _ (hydrogen_preferences MAX_FX) p p' ops effs). Qed.

(** Witness: Hydrogen's preferences with data directory [/data/]: a
    removal, a style change and a LADSPA window change, then a second
    removal; both commands name [/data/]. *)
Lemma session_effects_witness :
  let w0 := mkWindowProperties 0 0 100 100 true in
  let ops := [RemoveOp "kit" 0; PrefCall (SetQTStyle "Plastique");
              PrefCall (SetLadspaProperties 2 w0); RemoveOp "old" 1] in
  exists p' effs, @run_session _ _ (hydrogen_preferences 4) (sample_prefs "/data/" 4) ops
                    = Some (p', effs) /\
    m_sDataDirectory p' = m_sDataDirectory (sample_prefs "/data/" 4) /\
    effs = flat_map (drumkit_effects (m_sDataDirectory (sample_prefs "/data/" 4))) ops.
Proof.
  intros w0 ops. do 2 eexists. split; [reflexivity|].
  apply (session_effects 4 (sample_prefs "/data/" 4) _ ops). reflexivity.
Defined.


End Session.
